(** * Verification of [cmake/generate_cmake_build.py]

    A shallow embedding of the build-descriptor generator and the proofs of
    the properties its specification states about it.

    Layout of the development:
    - [Py]: the Python string and list primitives the script relies on
      ([str.find], [str.split], [str.splitlines], slices, ...), over strings
      of Unicode code points;
    - [Gen]: the functions of the script, in the order of the source, with
      the file system as an explicit oracle and Python exceptions as an
      error result;
    - the vocabulary in which the properties are stated, and the file
      systems they are tried on;
    - the lemmas about the primitives, then the properties of the script,
      component by component. *)

From Stdlib Require Import String Ascii.
From Stdlib Require Import List Bool Arith NArith ZArith Lia.
Import ListNotations.

(* ================================================================== *)
(** * Python primitives *)
(* ================================================================== *)

Module Py.

(** A Python [str] is a sequence of Unicode code points. *)
Definition char := N.
Definition str := list char.

(** String literals of the source, written as Rocq strings. *)
Definition py (s : string) : str := map N_of_ascii (list_ascii_of_string s).

Definition LF : char := 10%N.
Definition CR : char := 13%N.
Definition TAB : char := 9%N.

(** ["\n"], ["\t"] and the like cannot be written inside a Rocq string. *)
Definition nl : str := [LF].
Definition tab : str := [TAB].

Fixpoint str_eqb (a b : str) : bool :=
  match a, b with
  | [], [] => true
  | x :: a', y :: b' => (x =? y)%N && str_eqb a' b'
  | _, _ => false
  end.

(** [s.startswith(p)] *)
Fixpoint startswith (s p : str) {struct p} : bool :=
  match p, s with
  | [], _ => true
  | x :: p', y :: s' => (x =? y)%N && startswith s' p'
  | _ :: _, [] => false
  end.

(** [s.endswith(p)] *)
Definition endswith (s p : str) : bool :=
  (length p <=? length s) && str_eqb (skipn (length s - length p) s) p.

(** [s[i:j]] for indices that are not negative (slices clamp to the length). *)
Definition slice (s : str) (i j : nat) : str := firstn (j - i) (skipn i s).

(** [s.find(sub)]: the lowest index at which [sub] occurs, or [-1]. *)
Fixpoint find_from (k : nat) (s sub : str) : Z :=
  if startswith s sub then Z.of_nat k
  else match s with
       | [] => (-1)%Z
       | _ :: s' => find_from (S k) s' sub
       end.

Definition find (s sub : str) : Z := find_from 0 s sub.

(** The line boundaries of [str.splitlines]. *)
Definition is_linebreak (c : char) : bool :=
  existsb (N.eqb c) [10; 11; 12; 13; 28; 29; 30; 133; 8232; 8233]%N.

(** The characters [str.split()] treats as white space ([str.isspace]). *)
Definition is_space (c : char) : bool :=
  existsb (N.eqb c)
    [9; 10; 11; 12; 13; 28; 29; 30; 31; 32; 133; 160; 5760;
     8192; 8193; 8194; 8195; 8196; 8197; 8198; 8199; 8200; 8201; 8202;
     8232; 8233; 8239; 8287; 12288]%N.

(** [s.splitlines()]: [cur] is the line being read.  A carriage return
    followed by a line feed is one boundary; a final line without a boundary
    is kept, an empty one after the last boundary is not. *)
Fixpoint splitlines_aux (cur s : str) : list str :=
  match s with
  | [] => match cur with [] => [] | _ => [cur] end
  | c :: rest =>
      if is_linebreak c then
        cur :: match rest with
               | d :: rest' =>
                   if (c =? CR)%N && (d =? LF)%N
                   then splitlines_aux [] rest'
                   else splitlines_aux [] rest
               | [] => splitlines_aux [] rest
               end
      else splitlines_aux (cur ++ [c]) rest
  end.

Definition splitlines (s : str) : list str := splitlines_aux [] s.

(** [s.split()]: the maximal runs of characters that are not white space. *)
Fixpoint split_ws_aux (cur s : str) : list str :=
  match s with
  | [] => match cur with [] => [] | _ => [cur] end
  | c :: rest =>
      if is_space c then
        match cur with
        | [] => split_ws_aux [] rest
        | _ => cur :: split_ws_aux [] rest
        end
      else split_ws_aux (cur ++ [c]) rest
  end.

Definition split_ws (s : str) : list str := split_ws_aux [] s.

(** [s.split(sep)] for a separator of one character (the script splits on
    ["/"] and on ["."] only): never empty, and empty fields are kept. *)
Fixpoint split_on (sep : char) (s : str) : list str :=
  match s with
  | [] => [[]]
  | c :: rest =>
      if (c =? sep)%N then [] :: split_on sep rest
      else match split_on sep rest with
           | h :: t => (c :: h) :: t
           | [] => [[c]]
           end
  end.

(** [sep.join(l)] *)
Fixpoint join (sep : str) (l : list str) : str :=
  match l with
  | [] => []
  | x :: rest =>
      match rest with
      | [] => x
      | _ => x ++ sep ++ join sep rest
      end
  end.

(** [l.remove(x)]: the first element equal to [x] goes. *)
Fixpoint remove_first (x : str) (l : list str) : list str :=
  match l with
  | [] => []
  | y :: l' => if str_eqb y x then l' else y :: remove_first x l'
  end.

End Py.

Import Py.

Definition SLASH : char := 47%N.
Definition STAR : char := 42%N.
Definition DOT : char := 46%N.
Definition HASH : char := 35%N.
Definition QUOTE : char := 34%N.

(** ** Exceptions

    A call either returns a value or raises; nothing in the script catches
    an exception, so a raised one ends the run. *)

Inductive exn : Type :=
| AssertionError
| RecursionError
| IndexError.

Inductive result (A : Type) : Type :=
| Ok (a : A)
| Raise (e : exn).

Arguments Ok {A} a.
Arguments Raise {A} e.

Definition bind {A B : Type} (c : result A) (k : A -> result B) : result B :=
  match c with
  | Ok a => k a
  | Raise e => Raise e
  end.

Notation "x <- c ;; k" := (bind c (fun x => k))
  (at level 61, c at next level, right associativity).

(** [assert b] *)
Definition assert (b : bool) : result unit :=
  if b then Ok tt else Raise AssertionError.

(** A [for] loop whose body may raise. *)
Fixpoint for_each {A B : Type} (body : A -> B -> result A) (l : list B) (a : A)
  : result A :=
  match l with
  | [] => Ok a
  | x :: l' => a' <- body a x ;; for_each body l' a'
  end.

(** ** The file system

    The script only asks the file system four things.  A run does all its
    reading before it writes anything, so one oracle serves the whole run.
    Reading a file that was just listed is taken to succeed. *)

Record filesystem : Type := {
  isdir : str -> bool;          (* os.path.isdir *)
  isfile : str -> bool;         (* os.path.isfile *)
  listdir : str -> list str;    (* os.listdir, in listing order *)
  read : str -> str             (* open(p, 'r').read() *)
}.

(* ================================================================== *)
(** * The script *)
(* ================================================================== *)

Module Gen.

(** ** Comment stripper *)

(** The first loop of [purge_comments]: each line is cut at its first ["//"]
    and terminated by a line feed. *)
Definition cut_line (outstr line : str) : str :=
  let pos := find line (py "//") in
  if (pos =? -1)%Z then outstr ++ line ++ nl
  else outstr ++ slice line 0 (Z.to_nat pos) ++ nl.

Definition line_pass (file_contents : str) : str :=
  fold_left cut_line (splitlines file_contents) [].

(** One turn of the second loop, at index [i] of [outstr]; the state is
    [(recording, outstr2)].  [outstr[i]] is [slice outstr i (i + 1)], as [i]
    is in range. *)
Definition block_step (outstr : str) (st : bool * str) (i : nat) : bool * str :=
  let '(recording, outstr2) := st in
  if (i + 1 <? length outstr) && recording
     && str_eqb (slice outstr i (i + 2)) (py "/*")
  then (false, outstr2)
  else if (0 <? i) && negb recording
          && str_eqb (slice outstr (i - 1) (i + 1)) (py "*/")
  then (true, outstr2)
  else if recording then (recording, outstr2 ++ slice outstr i (i + 1))
  else (recording, outstr2).

Definition block_pass (outstr : str) : bool * str :=
  fold_left (block_step outstr) (seq 0 (length outstr)) (true, []).

Definition purge_comments (file_contents : str) : str :=
  let outstr := line_pass file_contents in
  snd (block_pass outstr).

(** ** API declaration detector *)

Definition has_api_definition (fs : filesystem) (filename concatname : str) : bool :=
  let file_contents := read fs concatname in
  let filename_base := hd [] (split_on DOT filename) in
  if (find file_contents (filename_base ++ py "::" ++ py "get_api_definition") =? -1)%Z
  then false
  else
    let file_contents := join (py " ") (split_ws (purge_comments file_contents)) in
    if (find file_contents (filename_base ++ py "::" ++ py "get_api_definition") =? -1)%Z
    then false
    else true.

(** ** Path-to-API-name mapper *)

Definition apiname_step (fname_entries : list str) (newname : str) (i : nat)
  : result str :=
  if i =? 0 then Ok (newname ++ nth i fname_entries [])
  else if i =? 2 then
    Ok (newname ++ py "/" ++ nth i fname_entries [] ++ py "_api/auto_generated_api")
  else if i =? length fname_entries - 1 then
    let entrysplit := split_on DOT (nth i fname_entries []) in
    _ <- assert (length entrysplit =? 2) ;;
    Ok (newname ++ py "/" ++ nth 0 entrysplit [] ++ py "_API")
  else Ok (newname ++ py "/" ++ nth i fname_entries []).

Definition apiname_from_filename (fname : str) : result str :=
  let fname_entries := split_on SLASH fname in
  _ <- assert (3 <? length fname_entries) ;;
  for_each (apiname_step fname_entries) (seq 0 (length fname_entries)) [].

(** ** Directory walker *)

(** What the walker returns depends on [skip_apps]: the pair
    [(outlist, outlist_apis)] when it is set, [outlist] alone otherwise. *)
Definition walked (skip_apps : bool) : Type :=
  if skip_apps then (list str * list str)%type else list str.

Definition nothing_walked (skip_apps : bool) : walked skip_apps :=
  match skip_apps with
  | true => ([], [])
  | false => []
  end.

(** [outlist.extend(...)] and [outlist_apis.extend(...)] after a recursive
    call. *)
Definition extend_walked (skip_apps : bool)
  : list str * list str -> walked skip_apps -> list str * list str :=
  match skip_apps with
  | true => fun st r => (fst st ++ fst r, snd st ++ snd r)
  | false => fun st r => (fst st ++ r, snd st)
  end.

Definition return_walked (skip_apps : bool) (st : list str * list str)
  : walked skip_apps :=
  match skip_apps with
  | true => st
  | false => fst st
  end.

(** The directories the walker leaves out. *)
Definition excluded (libname dirname : str) (skip_apps : bool) : bool :=
  if skip_apps then
    endswith dirname (libname ++ py "_apps")
    || endswith dirname (libname ++ py "_apps/")
  else
    endswith dirname (libname ++ py "/auto_generated_api")
    || endswith dirname (libname ++ py "/auto_generated_api/").

(** The body of the loop over [listdir( dirname )]; [recurse] is the
    recursive call on a subdirectory.  The state is
    [(outlist, outlist_apis)]; the second list stays empty when [skip_apps]
    is unset (the source does not create it then). *)
Definition visit_entry (fs : filesystem) (skip_apps : bool)
    (recurse : str -> result (walked skip_apps))
    (dirname : str) (st : list str * list str) (fname : str)
  : result (list str * list str) :=
  let '(outlist, outlist_apis) := st in
  let concatname := dirname ++ py "/" ++ fname in
  if isfile fs concatname then
    let outlist :=
      if endswith fname (py ".cc") || endswith fname (py ".hh")
      then outlist ++ [concatname] else outlist in
    if skip_apps
       && endswith fname (py ".cc")
       && negb (str_eqb concatname (py "../src/base/MasalaObject.cc"))
       && has_api_definition fs fname concatname
    then
      apiname <- apiname_from_filename concatname ;;
      Ok (outlist,
          outlist_apis
            ++ [apiname ++ py ".cc"; apiname ++ py ".hh"; apiname ++ py ".fwd.hh"])
    else Ok (outlist, outlist_apis)
  else if isdir fs concatname then
    r <- recurse concatname ;;
    Ok (extend_walked skip_apps (outlist, outlist_apis) r)
  else Ok (outlist, outlist_apis).

(** [depth] bounds the nesting of the recursive calls, as the interpreter's
    recursion limit does: a tree nested deeper than that (or a cycle of
    links) ends the run with [RecursionError]. *)
Fixpoint get_all_cc_and_hh_files_in_dir_and_subdirs
    (depth : nat) (fs : filesystem) (libname dirname : str) (skip_apps : bool)
    {struct depth} : result (walked skip_apps) :=
  match depth with
  | 0 => Raise RecursionError
  | S depth' =>
      _ <- assert (isdir fs dirname) ;;
      if excluded libname dirname skip_apps then Ok (nothing_walked skip_apps)
      else
        st <- for_each
                (visit_entry fs skip_apps
                   (fun d =>
                      get_all_cc_and_hh_files_in_dir_and_subdirs
                        depth' fs libname d skip_apps)
                   dirname)
                (listdir fs dirname) ([], []) ;;
        Ok (return_walked skip_apps st)
  end.

(** ** Dependency reader *)

(** [for entry in dlist] with [dlist.remove(entry)] in its body: the
    iterator holds an index [i] into the list as it is at that moment, and
    stops when the index is out of range.  The list never grows, so
    [length dlist] turns are enough ([fuel] counts them). *)
Fixpoint drop_comment_entries (fuel i : nat) (dlist : list str)
  : result (list str) :=
  match fuel with
  | 0 => Ok dlist
  | S fuel' =>
      match nth_error dlist i with
      | None => Ok dlist
      | Some entry =>
          match entry with
          | [] => Raise IndexError                            (* entry[0] *)
          | c :: _ =>
              if (c =? HASH)%N
              then drop_comment_entries fuel' (S i) (remove_first entry dlist)
              else drop_comment_entries fuel' (S i) dlist
          end
      end
  end.

Definition get_library_dependencies (fs : filesystem) (dirname : str)
  : result (list str) :=
  _ <- assert (isdir fs dirname) ;;
  let liblistfile := dirname ++ py "/link_dependencies.txt" in
  if isfile fs liblistfile then
    let dlist := split_ws (read fs liblistfile) in
    drop_comment_entries (length dlist) 0 dlist
  else Ok [].

(** ** Descriptor emitter *)

(** The lists the script collects before it writes. *)
Record lists : Type := {
  cclist : list str;
  api_cclist : list str;
  depend_list : list str;
  appslist : list str;
  testslist : list str
}.

(** [for dentry in depend_list : fhandle.write( "\n\tPUBLIC " + dentry )] *)
Definition public_links (depend_list : list str) : str :=
  concat (map (fun dentry => nl ++ tab ++ py "PUBLIC " ++ dentry) depend_list).

(** [for entry in l : fhandle.write( "\n\t" + entry )] *)
Definition entry_lines (l : list str) : str :=
  concat (map (fun entry => nl ++ tab ++ entry) l).

(** [os.path.basename] *)
Definition basename (p : str) : str := last (split_on SLASH p) [].

Definition app_block (lib_name : str) (depend_list : list str) (app : str) : str :=
  let appname := hd [] (split_on DOT (basename app)) in
  nl ++ py "ADD_EXECUTABLE( " ++ appname ++ py " " ++ app ++ py ")" ++ nl
  ++ py "TARGET_LINK_LIBRARIES(" ++ appname
  ++ public_links depend_list
  ++ nl ++ tab ++ py "PRIVATE Threads::Threads"
  ++ nl ++ tab ++ py "PUBLIC " ++ lib_name ++ nl ++ py ")" ++ nl.

(** What is written between [open( output_file, 'w' )] and the end of its
    [with] block. *)
Definition library_descriptor (lib_name : str) (l : lists) : str :=
  (if 0 <? length (cclist l) then
     py "ADD_LIBRARY(" ++ lib_name ++ py " SHARED"
     ++ entry_lines (cclist l)
     ++ nl ++ py ")" ++ nl
     ++ py "SET_TARGET_PROPERTIES(" ++ lib_name
     ++ py " PROPERTIES VERSION ${PROJECT_VERSION})" ++ nl
     ++ (if 0 <? length (depend_list l) then
           py "TARGET_LINK_LIBRARIES(" ++ lib_name
           ++ public_links (depend_list l)
           ++ nl ++ tab ++ py "PRIVATE Threads::Threads"
           ++ nl ++ py ")" ++ nl
         else [])
   else [])
  ++ (if 0 <? length (appslist l)
      then concat (map (app_block lib_name (depend_list l)) (appslist l))
      else []).

Definition api_descriptor (lib_name : str) (l : lists) : str :=
  py "ADD_CUSTOM_COMMAND(" ++ nl
  ++ tab ++ py "DEPENDS generate_" ++ lib_name ++ py "_api POST_BUILD" ++ nl
  ++ tab ++ py "OUTPUT" ++ nl
  ++ concat (map (fun entry => tab ++ tab ++ entry ++ nl) (api_cclist l))
  ++ tab ++ py "COMMAND echo " ++ [QUOTE]
  ++ py "Generating JSON description of core API." ++ [QUOTE] ++ nl
  ++ tab ++ py "COMMAND ./generate_" ++ lib_name ++ py "_api" ++ nl
  ++ tab ++ py "COMMAND echo " ++ [QUOTE]
  ++ py "Auto-generating core API C++ code." ++ [QUOTE] ++ nl
  ++ tab ++ py "COMMAND sh -c " ++ [QUOTE]
  ++ py "cd .. && python3 code_templates/generate_library_api.py core build/core_api.json && cd build"
  ++ [QUOTE] ++ nl
  ++ tab ++ py "VERBATIM" ++ nl ++ py ")" ++ nl ++ nl
  ++ py "ADD_LIBRARY(" ++ lib_name ++ py "_api SHARED"
  ++ entry_lines (api_cclist l)
  ++ nl ++ py ")" ++ nl
  ++ py "SET_TARGET_PROPERTIES(" ++ lib_name
  ++ py "_api PROPERTIES VERSION ${PROJECT_VERSION})" ++ nl
  ++ py "TARGET_LINK_LIBRARIES(" ++ lib_name ++ py "_api"
  ++ nl ++ tab ++ py "PUBLIC " ++ lib_name
  ++ (if 0 <? length (depend_list l) then public_links (depend_list l) else [])
  ++ nl ++ tab ++ py "PRIVATE Threads::Threads"
  ++ nl ++ py ")" ++ nl.

Definition tests_descriptor (lib_name : str) (l : lists) : str :=
  let testlibname := lib_name ++ py "_tests" in
  if 0 <? length (testslist l) then
    py "ADD_EXECUTABLE(" ++ testlibname ++ py " "
    ++ entry_lines (testslist l)
    ++ nl ++ py ")" ++ nl
    ++ py "SET_TARGET_PROPERTIES(" ++ testlibname
    ++ py " PROPERTIES VERSION ${PROJECT_VERSION})" ++ nl
    ++ py "TARGET_LINK_LIBRARIES(" ++ testlibname
    ++ nl ++ tab ++ py "PUBLIC " ++ lib_name
    ++ public_links (depend_list l)
    ++ nl ++ tab ++ py "PRIVATE Threads::Threads"
    ++ nl ++ py ")" ++ nl
  else [].

(** A file opened for writing: its path and all that is written to it. *)
Definition written : Type := (str * str)%type.

(** The three [with open( ..., 'w' )] blocks, each as the files it writes. *)
Definition write_library (output_file lib_name : str) (l : lists) : list written :=
  [(output_file, library_descriptor lib_name l)].

Definition write_api (output_file_api : option str) (lib_name : str) (l : lists)
  : list written :=
  match output_file_api with
  | Some f =>
      if 0 <? length (api_cclist l) then [(f, api_descriptor lib_name l)] else []
  | None => []
  end.

Definition write_tests (output_file_tests : option str) (lib_name : str) (l : lists)
  : result (list written) :=
  if 0 <? length (testslist l) then
    match output_file_tests with
    | Some f => Ok [(f, tests_descriptor lib_name l)]
    | None => Raise AssertionError
    end
  else Ok [].

(** ** The run *)

(** [if x == "NONE" : x = None] *)
Definition or_none (x : str) : option str :=
  if str_eqb x (py "NONE") then None else Some x.

(** Lines 174 to 192: the walks and the dependency file. *)
Definition collect (depth : nat) (fs : filesystem) (lib_name source_dir : str)
    (output_file_tests : option str) : result lists :=
  r <- get_all_cc_and_hh_files_in_dir_and_subdirs depth fs lib_name source_dir true ;;
  let cclist := fst r in
  let api_cclist := snd r in
  r_api <- get_all_cc_and_hh_files_in_dir_and_subdirs depth fs
             (lib_name ++ py "_api") (source_dir ++ py "_api") false ;;
  let api_cclist := api_cclist ++ r_api in
  depend_list <- get_library_dependencies fs source_dir ;;
  let appsdir := source_dir ++ py "/" ++ lib_name ++ py "_apps" in
  appslist <-
    (if isdir fs appsdir
     then get_all_cc_and_hh_files_in_dir_and_subdirs depth fs lib_name appsdir false
     else Ok []) ;;
  let testsdir := py "../tests/unit/" ++ lib_name in
  let testlibname := lib_name ++ py "_tests" in
  testslist <-
    match output_file_tests with
    | Some _ =>
        _ <- assert (isdir fs testsdir) ;;
        get_all_cc_and_hh_files_in_dir_and_subdirs depth fs testlibname testsdir false
    | None => Ok []
    end ;;
  Ok {| cclist := cclist; api_cclist := api_cclist; depend_list := depend_list;
        appslist := appslist; testslist := testslist |}.

(** The module-level code: [argv] is [sys.argv], the result is the files
    written, in the order of writing.  What the script prints is left out.
    Every exception but the last assertion is raised before the first
    [open( ..., 'w' )]; the last one is never raised after [collect]
    (lemma [write_tests_after_collect]). *)
Definition main (depth : nat) (fs : filesystem) (argv : list str)
  : result (list written) :=
  _ <- assert (length argv =? 6) ;;
  let lib_name := nth 1 argv [] in
  let source_dir := nth 2 argv [] in
  let output_file := nth 3 argv [] in
  let output_file_api := or_none (nth 4 argv []) in
  let output_file_tests := or_none (nth 5 argv []) in
  l <- collect depth fs lib_name source_dir output_file_tests ;;
  let w_lib := write_library output_file lib_name l in
  let w_api := write_api output_file_api lib_name l in
  w_tests <- write_tests output_file_tests lib_name l ;;
  Ok (w_lib ++ w_api ++ w_tests).

End Gen.

Import Gen.

(* ================================================================== *)
(** * Vocabulary of the properties *)
(* ================================================================== *)

(** [sub] occurs in [s]. *)
Definition Substring (sub s : str) : Prop :=
  exists pre post, s = pre ++ sub ++ post.

(** [sub] occurs in [s] at offset [i]. *)
Definition occurs_at (sub s : str) (i : nat) : Prop :=
  exists pre post, s = pre ++ sub ++ post /\ length pre = i.

(** Two adjacent characters [a], [b] somewhere in [s]. *)
Fixpoint has_pair (a b : char) (s : str) : bool :=
  match s with
  | [] => false
  | x :: t =>
      match t with
      | y :: _ => ((x =? a)%N && (y =? b)%N) || has_pair a b t
      | [] => false
      end
  end.

(** The second loop of [purge_comments] without indices: [prev] is the
    character before the current one, when there is one. *)
Fixpoint scan (recording : bool) (prev : option char) (s : str) : bool * str :=
  match s with
  | [] => (recording, [])
  | c :: rest =>
      if recording then
        match rest with
        | d :: _ =>
            if (c =? SLASH)%N && (d =? STAR)%N then scan false (Some c) rest
            else (fst (scan true (Some c) rest), c :: snd (scan true (Some c) rest))
        | [] => (true, [c])
        end
      else
        match prev with
        | Some p =>
            if (p =? STAR)%N && (c =? SLASH)%N then scan true (Some c) rest
            else scan false (Some c) rest
        | None => scan false (Some c) rest
        end
  end.

Definition last_char (s : str) : option char :=
  match s with
  | [] => None
  | _ => Some (last s 0%N)
  end.

(** [s] is not empty and its last character is a line feed. *)
Definition ends_LF (s : str) : Prop := exists s', s = s' ++ nl.

(** Every line of [s] is closed by a line feed. *)
Definition terminated (s : str) : Prop := s = [] \/ ends_LF s.

(** The only line boundary in [s] is the line feed. *)
Definition only_LF (s : str) : Prop :=
  Forall (fun c => is_linebreak c = true -> c = LF) s.

Definition no_break (s : str) : Prop :=
  Forall (fun c => is_linebreak c = false) s.

Definition unlines (ls : list str) : str :=
  concat (map (fun l => l ++ nl) ls).

(** What the first loop keeps of one line. *)
Definition cut (line : str) : str :=
  let pos := find line (py "//") in
  if (pos =? -1)%Z then line else slice line 0 (Z.to_nat pos).

(** [s] is empty or ends in a line feed. *)
Definition terminatedb (s : str) : bool :=
  match s with
  | [] => true
  | _ => (last s 0 =? LF)%N
  end.

(** No line boundary in [s] but the line feed. *)
Definition unix_lines (s : str) : bool :=
  forallb (fun c => negb (is_linebreak c) || (c =? LF)%N) s.

(** [sub in s] *)
Definition contains (s sub : str) : bool := negb (find s sub =? -1)%Z.

(** The value of [recording] when the second loop of [purge_comments] ends:
    [false] when a block comment was left open. *)
Definition ends_recording (file_contents : str) : bool :=
  fst (block_pass (line_pass file_contents)).

(** The number of occurrences of the character [c] in [s]. *)
Definition count (c : char) (s : str) : nat := count_occ N.eq_dec s c.

(** The text the detector looks for in the file named [filename]. *)
Definition needle (filename : str) : str :=
  hd [] (split_on DOT filename) ++ py "::" ++ py "get_api_definition".

(** The text of the second search: comments stripped, the words that are
    left joined by single spaces. *)
Definition normalised (T : str) : str :=
  join (py " ") (split_ws (purge_comments T)).

(** The [n] characters of [T] from offset [i] on lie inside a block comment:
    [T] is [pre /* body */ post], with no comment marker in [pre] (so that
    the opener is not itself commented out), no closer in [body], and the
    [n] characters within [body]. *)
Definition in_block_comment (T : str) (i n : nat) : Prop :=
  exists pre body post,
    T = pre ++ py "/*" ++ body ++ py "*/" ++ post
    /\ contains pre (py "//") = false
    /\ contains pre (py "/*") = false
    /\ contains body (py "*/") = false
    /\ length pre + 2 <= i
    /\ i + n <= length pre + 2 + length body.

(** A file system with one file. *)
Definition one_file (name contents : str) : filesystem :=
  {| isdir := fun _ => false;
     isfile := fun p => str_eqb p name;
     listdir := fun _ => [];
     read := fun p => if str_eqb p name then contents else [] |}.

(** The reader as the specification words it: the words of the file, those
    that start with ["#"] left out. *)
Definition dependency_tokens (contents : str) : list str :=
  filter (fun token => negb (startswith token (py "#"))) (split_ws contents).

(** A file system made of the listed directories and files. *)
Definition lookup {A : Type} (d : A) (k : str) (m : list (str * A)) : A :=
  match List.find (fun kv => str_eqb (fst kv) k) m with
  | Some kv => snd kv
  | None => d
  end.

Definition mem (k : str) (l : list str) : bool := existsb (str_eqb k) l.

Definition make_fs (dirs : list (str * list str)) (files : list (str * str))
  : filesystem :=
  {| isdir := fun p => mem p (map fst dirs);
     isfile := fun p => mem p (map fst files);
     listdir := fun p => lookup [] p dirs;
     read := fun p => lookup [] p files |}.

(** A library directory that holds the dependency file only. *)
Definition deps_fs (contents : str) : filesystem :=
  make_fs [(py "core", [py "link_dependencies.txt"])]
          [(py "core/link_dependencies.txt", contents)].


(** A source tree: a library [core] with a class that declares an API, an
    application directory, a directory whose name merely ends like one, and
    the API directory next to the library. *)
Definition tree_fs : filesystem :=
  make_fs
    [ (py "../src/core",
        [py "a"; py "core_apps"; py "hardcore_apps"; py "notes.txt"]);
      (py "../src/core/a", [py "Foo.cc"; py "Foo.hh"; py "Bar.cc"]);
      (py "../src/core/core_apps", [py "app.cc"]);
      (py "../src/core/hardcore_apps", [py "tool.cc"]);
      (py "../src/core_api", [py "auto_generated_api"; py "extra.cc"]);
      (py "../src/core_api/auto_generated_api", [py "gen.cc"]) ]
    [ (py "../src/core/a/Foo.cc", py "int Foo::get_api_definition() {}");
      (py "../src/core/a/Foo.hh", py "class Foo;");
      (py "../src/core/a/Bar.cc", py "// Bar::get_api_definition");
      (py "../src/core/notes.txt", []);
      (py "../src/core/core_apps/app.cc", py "int main(){}");
      (py "../src/core/hardcore_apps/tool.cc", py "int main(){}");
      (py "../src/core_api/extra.cc", []);
      (py "../src/core_api/auto_generated_api/gen.cc", []) ].

(** A library directory and its API directory, both empty. *)
Definition empty_fs : filesystem :=
  make_fs [(py "src/core", []); (py "src/core_api", [])] [].

(** An empty library with its API directory and a directory of unit tests. *)
Definition tested_fs : filesystem :=
  make_fs [(py "src/core", []); (py "src/core_api", []);
           (py "../tests/unit/core", [py "CoreTests.cc"])]
          [(py "../tests/unit/core/CoreTests.cc", py "int main() {}")].

(** A library that holds applications only. *)
Definition apps_only_fs : filesystem :=
  make_fs [(py "src/core", [py "core_apps"]);
           (py "src/core/core_apps", [py "tool.cc"]);
           (py "src/core_api", [])]
          [(py "src/core/core_apps/tool.cc", py "int main() {}")].

(** A library with one plain source file and no API directory beside it. *)
Definition no_api_dir_fs : filesystem :=
  make_fs [(py "src/core", [py "a.cc"])] [(py "src/core/a.cc", py "int f();")].

(** The text the line pass hands over when there is no ["//"]. *)
Definition closed (T : str) : str := if terminatedb T then [] else nl.

(** The word starts with the comment marker. *)
Definition is_comment (token : str) : bool := startswith token (py "#").

(** No two words in a row start with the comment marker. *)
Fixpoint no_adjacent_comments (l : list str) : bool :=
  match l with
  | [] => true
  | a :: t =>
      match t with
      | b :: _ => negb (is_comment a && is_comment b) && no_adjacent_comments t
      | [] => true
      end
  end.

(** A library directory with a file that declares an API under a name with
    two dots. *)
Definition malformed_fs : filesystem :=
  make_fs [(py "../src/core", [py "Foo.test.cc"])]
          [(py "../src/core/Foo.test.cc", py "int Foo::get_api_definition() {}")].

(** The directory of the one file the walker never maps, beside a file it
    does map; both declare an API. *)
Definition masala_fs : filesystem :=
  make_fs [(py "../src/base", [py "MasalaObject.cc"; py "Other.cc"])]
          [(py "../src/base/MasalaObject.cc",
            py "int MasalaObject::get_api_definition() {}");
           (py "../src/base/Other.cc",
            py "int Other::get_api_definition() {}")].

(** The first list of what the walker returns (the only one when the flag
    is unset). *)
Definition listed (skip_apps : bool) : walked skip_apps -> list str :=
  match skip_apps with
  | true => fun r => fst r
  | false => fun r => r
  end.

(** [p] lies under [dirname] and ends like a source or header file. *)
Definition source_under (dirname p : str) : bool :=
  startswith p (dirname ++ py "/")
  && (endswith p (py ".cc") || endswith p (py ".hh")).

(** [p] ends like one of the three files of an API counterpart. *)
Definition api_entry (p : str) : bool :=
  endswith p (py "_API.cc") || endswith p (py "_API.hh")
  || endswith p (py "_API.fwd.hh").

(** The API list grows by triples of counterpart paths. *)
Definition api_list_ok (apis : list str) : Prop :=
  Forall (fun p => api_entry p = true) apis /\ exists k, length apis = 3 * k.

(** The API name of the file the walker never maps. *)
Definition masala_api : str :=
  py "../src/base_api/auto_generated_api/MasalaObject_API".

(** The three paths of its counterpart. *)
Definition masala_counterpart (p : str) : Prop :=
  p = masala_api ++ py ".cc" \/ p = masala_api ++ py ".hh"
  \/ p = masala_api ++ py ".fwd.hh".

(* ================================================================== *)
(** * Facts about the primitives *)
(* ================================================================== *)

Section StringFacts.

Lemma str_eqb_eq (a b : str) : str_eqb a b = true <-> a = b.
Proof.
  revert b; induction a as [|x a IH]; intros [|y b]; simpl; split;
    try discriminate; try reflexivity.
  - rewrite andb_true_iff, N.eqb_eq, IH. intros [-> ->]. reflexivity.
  - intros [= -> ->]. rewrite N.eqb_refl. apply IH. reflexivity.
Qed.

Lemma str_eqb_refl (a : str) : str_eqb a a = true.
Proof. apply str_eqb_eq. reflexivity. Qed.

Lemma str_eqb_neq (a b : str) : str_eqb a b = false <-> a <> b.
Proof.
  rewrite <- str_eqb_eq. destruct (str_eqb a b); split; congruence.
Qed.

Lemma startswith_prefix (s p : str) :
  startswith s p = true <-> exists t, s = p ++ t.
Proof.
  revert s; induction p as [|x p IH]; intros s; simpl.
  - split; [exists s; reflexivity | reflexivity].
  - destruct s as [|y s].
    + split; [discriminate | intros [t [=]]].
    + rewrite andb_true_iff, N.eqb_eq, IH. split.
      * intros [-> [t ->]]. exists t. reflexivity.
      * intros [t [= -> ->]]. split; [reflexivity | exists t; reflexivity].
Qed.

Lemma startswith_app (p t : str) : startswith (p ++ t) p = true.
Proof. apply startswith_prefix. exists t. reflexivity. Qed.

Lemma endswith_suffix (s p : str) :
  endswith s p = true <-> exists pre, s = pre ++ p.
Proof.
  unfold endswith. rewrite andb_true_iff, Nat.leb_le, str_eqb_eq. split.
  - intros [_ H]. exists (firstn (length s - length p) s).
    transitivity (firstn (length s - length p) s ++ skipn (length s - length p) s).
    + symmetry. apply firstn_skipn.
    + f_equal. exact H.
  - intros [pre ->]. rewrite length_app. split; [lia|].
    replace (length pre + length p - length p) with (length pre + 0) by lia.
    rewrite skipn_app, Nat.add_0_r, skipn_all.
    replace (length pre - length pre) with 0 by lia. reflexivity.
Qed.

Lemma endswith_app (pre p : str) : endswith (pre ++ p) p = true.
Proof. apply endswith_suffix. exists pre. reflexivity. Qed.

Lemma Substring_cons (sub : str) (c : char) (s : str) :
  Substring sub (c :: s) <-> startswith (c :: s) sub = true \/ Substring sub s.
Proof.
  split.
  - intros [[|x pre] [post H]]; simpl in H.
    + left. apply startswith_prefix. exists post. exact H.
    + right. injection H as _ H. exists pre, post. exact H.
  - intros [H | [pre [post ->]]].
    + apply startswith_prefix in H. destruct H as [t H].
      exists [], t. exact H.
    + exists (c :: pre), post. reflexivity.
Qed.

Lemma Substring_nil (sub : str) :
  Substring sub [] <-> startswith [] sub = true.
Proof.
  split.
  - intros [pre [post H]]. symmetry in H.
    apply app_eq_nil in H. destruct H as [_ H].
    apply app_eq_nil in H. destruct H as [-> _]. reflexivity.
  - intros H. apply startswith_prefix in H. destruct H as [t H].
    exists [], t. exact H.
Qed.

(** [find] answers [-1] exactly when there is no occurrence. *)
Lemma find_from_lower (s sub : str) (k : nat) :
  (find_from k s sub = -1 \/ Z.of_nat k <= find_from k s sub)%Z.
Proof.
  revert k; induction s as [|c s IH]; intros k; simpl.
  - destruct (startswith [] sub); [right; lia | left; reflexivity].
  - destruct (startswith (c :: s) sub); [right; lia|].
    destruct (IH (S k)) as [H | H]; [left; exact H | right; lia].
Qed.

Lemma find_from_absent (s sub : str) (k : nat) :
  find_from k s sub = (-1)%Z <-> ~ Substring sub s.
Proof.
  revert k; induction s as [|c s IH]; intros k; simpl.
  - rewrite Substring_nil. destruct (startswith [] sub); split; intros H.
    + lia.
    + exfalso. apply H. reflexivity.
    + discriminate.
    + reflexivity.
  - rewrite Substring_cons. destruct (startswith (c :: s) sub).
    + split; [lia | intros H; exfalso; apply H; left; reflexivity].
    + rewrite IH. split.
      * intros H [H' | H']; [discriminate | exact (H H')].
      * intros H H'. apply H. right. exact H'.
Qed.

Lemma find_absent (s sub : str) :
  find s sub = (-1)%Z <-> ~ Substring sub s.
Proof. apply find_from_absent. Qed.

(** The first occurrence: where [find] points, [sub] occurs, and nowhere
    before. *)
Lemma find_from_first (s sub : str) (k : nat) (r : Z) :
  find_from k s sub = r -> r <> (-1)%Z ->
  exists pre post,
    s = pre ++ sub ++ post /\ r = Z.of_nat (k + length pre)
    /\ forall j, j < length pre -> ~ occurs_at sub s j.
Proof.
  revert k; induction s as [|c s IH]; intros k; simpl.
  - destruct (startswith [] sub) eqn:P; [|congruence].
    intros <- _. apply startswith_prefix in P. destruct P as [t P].
    exists [], t. simpl. split; [exact P|]. split; [f_equal; lia|].
    intros j Hj. inversion Hj.
  - destruct (startswith (c :: s) sub) eqn:P.
    + intros <- _. apply startswith_prefix in P. destruct P as [t P].
      exists [], t. simpl. split; [exact P|]. split; [f_equal; lia|].
      intros j Hj. inversion Hj.
    + intros H Hr. destruct (IH (S k) H Hr) as [pre [post [E [Er Hfirst]]]].
      exists (c :: pre), post. simpl. split; [rewrite E; reflexivity|].
      split; [rewrite Er; f_equal; lia|].
      intros [|j] Hj [p1 [p2 [E1 E2]]].
      * destruct p1; [|discriminate]. simpl in E1.
        assert (startswith (c :: s) sub = true) as Q
          by (apply startswith_prefix; exists p2; exact E1).
        congruence.
      * destruct p1 as [|x p1]; [discriminate|]. simpl in E1, E2.
        injection E1 as _ E1. injection E2 as E2.
        apply (Hfirst j); [lia|]. exists p1, p2. split; assumption.
Qed.

Lemma find_present (s sub : str) :
  (find s sub =? -1)%Z = false <-> Substring sub s.
Proof.
  rewrite Z.eqb_neq. split.
  - intros H. destruct (find_from_first s sub 0 _ eq_refl H) as [pre [post [E _]]].
    exists pre, post. exact E.
  - intros H E. apply find_absent in E. exact (E H).
Qed.

End StringFacts.

(* ================================================================== *)
(** * The comment stripper, read as a scanner *)
(* ================================================================== *)

Section Scanner.

Lemma has_pair_Substring (a b : char) (s : str) :
  has_pair a b s = true <-> Substring [a; b] s.
Proof.
  induction s as [|x t IH].
  - simpl. split; [discriminate|]. intros H. apply Substring_nil in H. discriminate.
  - rewrite Substring_cons, <- IH. simpl has_pair. destruct t as [|y t'].
    + simpl. split; [discriminate | intros [H | H]; [|discriminate]].
      rewrite andb_false_r in H. discriminate.
    + rewrite orb_true_iff. simpl startswith. rewrite andb_true_r.
      rewrite (N.eqb_sym a x), (N.eqb_sym b y). reflexivity.
Qed.

Lemma has_pair_find (a b : char) (s : str) :
  has_pair a b s = false <-> find s [a; b] = (-1)%Z.
Proof.
  rewrite find_absent, <- has_pair_Substring.
  destruct (has_pair a b s); split; congruence.
Qed.

Lemma skipn_length_app (pre l : str) : skipn (length pre) (pre ++ l) = l.
Proof. induction pre; simpl; auto. Qed.

Lemma slice_here (pre l : str) (k : nat) :
  slice (pre ++ l) (length pre) (length pre + k) = firstn k l.
Proof.
  unfold slice. rewrite skipn_length_app. f_equal. lia.
Qed.

Lemma slice_before (pre : str) (p : char) (l : str) :
  slice ((pre ++ [p]) ++ l) (length (pre ++ [p]) - 1) (length (pre ++ [p]) + 1)
  = firstn 2 (p :: l).
Proof.
  unfold slice. rewrite length_app. simpl length.
  replace (length pre + 1 - 1) with (length pre) by lia.
  rewrite <- app_assoc, skipn_length_app.
  replace (length pre + 1 + 1 - length pre) with 2 by lia. reflexivity.
Qed.

Lemma last_char_snoc (pre : str) (c : char) : last_char (pre ++ [c]) = Some c.
Proof.
  unfold last_char. rewrite last_last. destruct pre; reflexivity.
Qed.

(** One turn of the loop, at the first index after [pre]. *)
Lemma block_step_here (pre : str) (c : char) (rest : str)
    (recording : bool) (acc : str) :
  block_step (pre ++ c :: rest) (recording, acc) (length pre)
  = if recording then
      match rest with
      | d :: _ =>
          if (c =? SLASH)%N && (d =? STAR)%N then (false, acc)
          else (true, acc ++ [c])
      | [] => (true, acc ++ [c])
      end
    else
      match last_char pre with
      | Some p =>
          if (p =? STAR)%N && (c =? SLASH)%N then (true, acc) else (false, acc)
      | None => (false, acc)
      end.
Proof.
  unfold block_step.
  rewrite (slice_here pre (c :: rest) 2), (slice_here pre (c :: rest) 1).
  rewrite length_app. destruct recording.
  - rewrite andb_true_r.
    replace ((0 <? length pre) && negb true) with false
      by (simpl; rewrite andb_false_r; reflexivity).
    destruct rest as [|d rest'].
    + replace (length pre + 1 <? length pre + length [c]) with false
        by (symmetry; apply Nat.ltb_ge; simpl; lia).
      reflexivity.
    + replace (length pre + 1 <? length pre + length (c :: d :: rest')) with true
        by (symmetry; apply Nat.ltb_lt; simpl; lia).
      change (str_eqb (firstn 2 (c :: d :: rest')) (py "/*"))
        with ((c =? SLASH)%N && ((d =? STAR)%N && true)).
      rewrite andb_true_r. cbn [andb firstn].
      destruct ((c =? SLASH)%N && (d =? STAR)%N); reflexivity.
  - rewrite andb_false_r. simpl negb. rewrite andb_true_r.
    destruct pre as [|p0 pre0 _] using rev_ind.
    + reflexivity.
    + rewrite last_char_snoc.
      replace (0 <? length (pre0 ++ [p0])) with true
        by (symmetry; apply Nat.ltb_lt; rewrite length_app; simpl; lia).
      rewrite (slice_before pre0 p0 (c :: rest)).
      change (str_eqb (firstn 2 (p0 :: c :: rest)) (py "*/"))
        with ((p0 =? STAR)%N && ((c =? SLASH)%N && true)).
      rewrite andb_true_r. simpl andb.
      destruct ((p0 =? STAR)%N && (c =? SLASH)%N); reflexivity.
Qed.

(** The loop over the indices of [pre ++ post], started at the first index
    of [post], is the scanner run on [post]. *)
Lemma block_fold_scan (post pre : str) (recording : bool) (acc : str) :
  fold_left (block_step (pre ++ post)) (seq (length pre) (length post))
    (recording, acc)
  = (fst (scan recording (last_char pre) post),
     acc ++ snd (scan recording (last_char pre) post)).
Proof.
  revert pre recording acc.
  induction post as [|c rest IH]; intros pre recording acc.
  - simpl. rewrite app_nil_r. reflexivity.
  - assert (Hnext : forall r a,
      fold_left (block_step (pre ++ c :: rest))
        (seq (S (length pre)) (length rest)) (r, a)
      = (fst (scan r (Some c) rest), a ++ snd (scan r (Some c) rest))).
    { intros r a. specialize (IH (pre ++ [c]) r a).
      rewrite <- app_assoc, length_app, last_char_snoc in IH.
      simpl in IH. rewrite Nat.add_1_r in IH. exact IH. }
    change (seq (length pre) (length (c :: rest)))
      with (length pre :: seq (S (length pre)) (length rest)).
    cbn [fold_left]. rewrite block_step_here. cbn [scan].
    destruct recording.
    + destruct rest as [|d rest'].
      * reflexivity.
      * destruct ((c =? SLASH)%N && (d =? STAR)%N); rewrite Hnext.
        -- reflexivity.
        -- cbn [fst snd]. rewrite <- app_assoc. reflexivity.
    + destruct (last_char pre) as [p|].
      * destruct ((p =? STAR)%N && (c =? SLASH)%N); rewrite Hnext; reflexivity.
      * rewrite Hnext. reflexivity.
Qed.

Lemma block_pass_scan (outstr : str) : block_pass outstr = scan true None outstr.
Proof.
  unfold block_pass.
  change (fold_left (block_step outstr) (seq 0 (length outstr)) (true, []))
    with (fold_left (block_step ([] ++ outstr))
            (seq (length (@nil char)) (length outstr)) (true, [])).
  rewrite block_fold_scan.
  simpl. destruct (scan true None outstr). reflexivity.
Qed.

End Scanner.

(** ** What the scanner keeps *)

Section ScannerFacts.

Lemma str_length_ind (P : str -> Prop) :
  (forall s, (forall t, length t < length s -> P t) -> P s) -> forall s, P s.
Proof.
  intros H s.
  induction s as [s IH] using (well_founded_induction
                                 (well_founded_ltof _ (@length char))).
  apply H. exact IH.
Qed.

Lemma Substring_app_l (sub x y : str) : Substring sub x -> Substring sub (x ++ y).
Proof.
  intros [pre [post ->]]. exists pre, (post ++ y).
  rewrite <- !app_assoc. reflexivity.
Qed.

Lemma Substring_app_r (sub x y : str) : Substring sub y -> Substring sub (x ++ y).
Proof.
  intros [pre [post ->]]. exists (x ++ pre), post.
  rewrite <- !app_assoc. reflexivity.
Qed.

Lemma Substring_nil_l (s : str) : Substring [] s.
Proof. exists [], s. reflexivity. Qed.

Lemma Substring_refl (s : str) : Substring s s.
Proof. exists [], []. rewrite app_nil_r. reflexivity. Qed.

Lemma has_pair_app_false (a b : char) (x y : str) :
  has_pair a b (x ++ y) = false ->
  has_pair a b x = false /\ has_pair a b y = false.
Proof.
  intros H. split.
  - destruct (has_pair a b x) eqn:E; [|reflexivity].
    apply has_pair_Substring in E.
    apply (Substring_app_l _ _ y), has_pair_Substring in E. congruence.
  - destruct (has_pair a b y) eqn:E; [|reflexivity].
    apply has_pair_Substring in E.
    apply (Substring_app_r _ x), has_pair_Substring in E. congruence.
Qed.

Lemma has_pair_cons (a b x : char) (t : str) :
  has_pair a b (x :: t)
  = match t with
    | y :: _ => ((x =? a)%N && (y =? b)%N) || has_pair a b t
    | [] => false
    end.
Proof. reflexivity. Qed.

(** A character that is neither [a] nor [b] splits the search. *)
Lemma has_pair_split (a b c : char) (x y : str) :
  c <> a -> c <> b ->
  has_pair a b (x ++ c :: y) = has_pair a b x || has_pair a b y.
Proof.
  intros Ha Hb. apply N.eqb_neq in Ha, Hb.
  induction x as [|x0 x IH].
  - simpl app. rewrite has_pair_cons. destruct y as [|y0 y]; [reflexivity|].
    rewrite Ha. reflexivity.
  - change ((x0 :: x) ++ c :: y) with (x0 :: (x ++ c :: y)).
    rewrite !has_pair_cons. destruct x as [|x1 x].
    + simpl app. simpl app in IH. rewrite IH, Hb, andb_false_r. reflexivity.
    + change ((x1 :: x) ++ c :: y) with (x1 :: (x ++ c :: y)).
      change ((x1 :: x) ++ c :: y) with (x1 :: (x ++ c :: y)) in IH.
      rewrite IH, orb_assoc. reflexivity.
Qed.

(** Text without ["/*"] goes through the scanner untouched. *)
Lemma scan_no_open (s : str) (prev : option char) :
  has_pair SLASH STAR s = false -> scan true prev s = (true, s).
Proof.
  revert prev; induction s as [|c rest IH]; intros prev H.
  - reflexivity.
  - rewrite has_pair_cons in H. cbn [scan]. destruct rest as [|d rest'].
    + reflexivity.
    + apply orb_false_iff in H. destruct H as [H1 H2].
      rewrite H1, (IH (Some c) H2). reflexivity.
Qed.

(** The scanner only drops characters. *)
Lemma scan_Forall (P : char -> Prop) (s : str) (r : bool) (prev : option char) :
  Forall P s -> Forall P (snd (scan r prev s)).
Proof.
  revert r prev; induction s as [|c rest IH]; intros r prev H.
  - constructor.
  - inversion H as [|? ? Hc Hrest]; subst. cbn [scan]. destruct r.
    + destruct rest as [|d rest'].
      * constructor; [exact Hc | constructor].
      * destruct ((c =? SLASH)%N && (d =? STAR)%N).
        -- apply IH. exact Hrest.
        -- cbn [snd]. constructor; [exact Hc | apply IH; exact Hrest].
    + destruct prev as [p|];
        [destruct ((p =? STAR)%N && (c =? SLASH)%N)|]; apply IH; exact Hrest.
Qed.

Lemma scan_true_head (d : char) (rest : str) (prev : option char) :
  (d =? SLASH)%N = false ->
  snd (scan true prev (d :: rest)) = d :: snd (scan true (Some d) rest).
Proof.
  intros H. cbn [scan]. destruct rest as [|e rest'].
  - reflexivity.
  - rewrite H. reflexivity.
Qed.

(** After the line pass there is no ["//"]; then the scanner leaves neither
    ["//"] nor ["/*"] behind: the character kept before a comment is never
    a slash. *)
Lemma scan_no_markers (s : str) (r : bool) (prev : option char) :
  has_pair SLASH SLASH s = false ->
  has_pair SLASH SLASH (snd (scan r prev s)) = false
  /\ has_pair SLASH STAR (snd (scan r prev s)) = false.
Proof.
  revert r prev; induction s as [|c rest IH]; intros r prev H.
  - split; reflexivity.
  - assert (Hrest : has_pair SLASH SLASH rest = false).
    { rewrite has_pair_cons in H. destruct rest; [reflexivity|].
      apply orb_false_iff in H. apply H. }
    cbn [scan]. destruct r.
    + destruct rest as [|d rest'].
      * split; reflexivity.
      * destruct ((c =? SLASH)%N && (d =? STAR)%N) eqn:Hopen.
        -- apply IH. exact Hrest.
        -- cbn [snd]. destruct (IH true (Some c) Hrest) as [IH1 IH2].
           destruct (c =? SLASH)%N eqn:Hc.
           ++ (* a slash is kept: the next character is kept too, and is
                 neither a slash nor a star *)
              assert (Hd1 : (d =? SLASH)%N = false).
              { rewrite has_pair_cons in H. apply orb_false_iff in H.
                destruct H as [H _]. rewrite Hc in H. exact H. }
              assert (Hd2 : (d =? STAR)%N = false) by exact Hopen.
              rewrite (scan_true_head d rest' (Some c) Hd1) in *.
              rewrite !(has_pair_cons _ _ c). rewrite Hd1, Hd2, IH1, IH2.
              rewrite !andb_false_r. split; reflexivity.
           ++ rewrite !(has_pair_cons _ _ c), Hc.
              destruct (snd (scan true (Some c) (d :: rest')));
                [split; reflexivity|].
              simpl andb. simpl orb. split; assumption.
    + destruct prev as [p|];
        [destruct ((p =? STAR)%N && (c =? SLASH)%N)|]; apply IH; exact Hrest.
Qed.

(** When the scanner stops outside a comment, the final line feed of its
    input was kept. *)
Lemma scan_ends_LF (s : str) (r : bool) (prev : option char) :
  ends_LF s -> fst (scan r prev s) = true -> ends_LF (snd (scan r prev s)).
Proof.
  revert r prev; induction s as [|c rest IH]; intros r prev [s' Hs] Hfst.
  - destruct s'; discriminate.
  - cbn [scan] in Hfst |- *. destruct rest as [|d rest'].
    + (* the last character: it is the line feed *)
      assert (c = LF) as ->.
      { destruct s' as [|x [|y s']]; try discriminate.
        injection Hs as ->. reflexivity. }
      destruct r.
      * exists []. reflexivity.
      * destruct prev as [p|].
        -- change (LF =? SLASH)%N with false in Hfst.
           rewrite andb_false_r in Hfst. discriminate.
        -- discriminate.
    + assert (Hrest : ends_LF (d :: rest')).
      { destruct s' as [|x s']; [discriminate|].
        injection Hs as _ Hs. exists s'. exact Hs. }
      destruct r.
      * destruct ((c =? SLASH)%N && (d =? STAR)%N).
        -- apply IH; assumption.
        -- cbn [fst] in Hfst. cbn [snd].
           destruct (IH true (Some c) Hrest Hfst) as [o Ho].
           exists (c :: o). rewrite Ho. reflexivity.
      * destruct prev as [p|];
          [destruct ((p =? STAR)%N && (c =? SLASH)%N)|]; apply IH; assumption.
Qed.

End ScannerFacts.

Create HintDb substr.
#[global] Hint Resolve Substring_app_l Substring_app_r Substring_nil_l
  Substring_refl : substr.

(** ** The line pass *)

Section LinePass.

Lemma contains_Substring (s sub : str) :
  contains s sub = true <-> Substring sub s.
Proof.
  unfold contains. rewrite negb_true_iff. apply find_present.
Qed.

Lemma contains_pair (s : str) (a b : char) :
  contains s [a; b] = has_pair a b s.
Proof.
  destruct (has_pair a b s) eqn:E.
  - apply contains_Substring, has_pair_Substring. exact E.
  - unfold contains. apply has_pair_find in E. rewrite E. reflexivity.
Qed.

Lemma unix_lines_only_LF (s : str) : unix_lines s = true <-> only_LF s.
Proof.
  unfold unix_lines, only_LF. rewrite forallb_forall, Forall_forall.
  split; intros H c Hc; specialize (H c Hc).
  - intros Hb. rewrite Hb in H. apply N.eqb_eq. exact H.
  - destruct (is_linebreak c); [|reflexivity].
    apply N.eqb_eq. apply H. reflexivity.
Qed.

Lemma terminatedb_snoc (s : str) (c : char) :
  terminatedb (s ++ [c]) = (c =? LF)%N.
Proof.
  unfold terminatedb. rewrite last_last. destruct s; reflexivity.
Qed.

Lemma terminatedb_terminated (s : str) : terminatedb s = true <-> terminated s.
Proof.
  unfold terminated, ends_LF, nl. destruct s as [|c s _] using rev_ind.
  - split; [left; reflexivity | reflexivity].
  - rewrite terminatedb_snoc, N.eqb_eq. split.
    + intros ->. right. exists s. reflexivity.
    + intros [H | [s' H]].
      * destruct s; discriminate.
      * apply app_inj_tail in H. apply H.
Qed.

Lemma terminatedb_app_cons (x : str) (c : char) (y : str) :
  terminatedb (x ++ c :: y) = terminatedb (c :: y).
Proof.
  destruct y as [|d y _] using rev_ind.
  - rewrite terminatedb_snoc. change [c] with ([] ++ [c]).
    rewrite terminatedb_snoc. reflexivity.
  - change (x ++ c :: y ++ [d]) with (x ++ (c :: y) ++ [d]).
    rewrite app_assoc, terminatedb_snoc.
    change (c :: y ++ [d]) with ((c :: y) ++ [d]).
    rewrite terminatedb_snoc. reflexivity.
Qed.

Lemma no_break_not_terminated (c : char) (s : str) :
  no_break (c :: s) -> terminatedb (c :: s) = false.
Proof.
  intros H. remember (c :: s) as t eqn:Et.
  destruct t as [|d t _] using rev_ind; [discriminate|].
  rewrite terminatedb_snoc. apply Forall_app in H. destruct H as [_ H].
  inversion H as [|? ? Hd _]; subst.
  destruct (d =? LF)%N eqn:E; [|reflexivity].
  apply N.eqb_eq in E. subst d. discriminate.
Qed.

Lemma cut_line_cut (outstr line : str) :
  cut_line outstr line = outstr ++ cut line ++ nl.
Proof.
  unfold cut_line, cut. cbv zeta.
  destruct (find line (py "//") =? -1)%Z; reflexivity.
Qed.

Lemma fold_cut_line (ls : list str) (acc : str) :
  fold_left cut_line ls acc = acc ++ unlines (map cut ls).
Proof.
  revert acc; induction ls as [|l ls IH]; intros acc; simpl.
  - rewrite app_nil_r. reflexivity.
  - rewrite IH, cut_line_cut. unfold unlines. simpl.
    rewrite <- !app_assoc. reflexivity.
Qed.

Lemma line_pass_unlines (T : str) :
  line_pass T = unlines (map cut (splitlines T)).
Proof. unfold line_pass. rewrite fold_cut_line. reflexivity. Qed.

Lemma firstn_length_app (pre l : str) : firstn (length pre) (pre ++ l) = pre.
Proof. induction pre; simpl; [destruct l; reflexivity | f_equal; assumption]. Qed.

Lemma cut_prefix (line : str) : exists rest, line = cut line ++ rest.
Proof.
  unfold cut. cbv zeta. destruct (find line (py "//") =? -1)%Z.
  - exists []. rewrite app_nil_r. reflexivity.
  - exists (skipn (Z.to_nat (find line (py "//"))) line).
    unfold slice. rewrite Nat.sub_0_r. simpl skipn at 1.
    symmetry. apply firstn_skipn.
Qed.

Lemma cut_identity (line : str) :
  has_pair SLASH SLASH line = false -> cut line = line.
Proof.
  intros H. apply has_pair_find in H. unfold cut. cbv zeta.
  change (py "//") with [SLASH; SLASH]. rewrite H. reflexivity.
Qed.

Lemma cut_no_slashes (line : str) : has_pair SLASH SLASH (cut line) = false.
Proof.
  unfold cut. cbv zeta. destruct (find line (py "//") =? -1)%Z eqn:E.
  - apply Z.eqb_eq in E. apply has_pair_find. exact E.
  - apply Z.eqb_neq in E.
    destruct (find_from_first line (py "//") 0 _ eq_refl E)
      as [pre [post [El [Er Hfirst]]]].
    unfold find. rewrite Er. simpl (0 + _). rewrite Nat2Z.id.
    assert (slice line 0 (length pre) = pre) as ->.
    { rewrite El. unfold slice. rewrite Nat.sub_0_r. simpl skipn.
      apply firstn_length_app. }
    destruct (has_pair SLASH SLASH pre) eqn:P; [|reflexivity].
    apply has_pair_Substring in P. destruct P as [p1 [p2 P]].
    exfalso. apply (Hfirst (length p1)).
    + rewrite P, !length_app. simpl. lia.
    + exists p1, (p2 ++ py "//" ++ post). split; [|reflexivity].
      rewrite El, P. rewrite <- !app_assoc. reflexivity.
Qed.

Lemma cut_no_break (line : str) : no_break line -> no_break (cut line).
Proof.
  intros H. destruct (cut_prefix line) as [rest E]. rewrite E in H.
  apply Forall_app in H. apply H.
Qed.

(** The lines [splitlines] returns hold no line boundary. *)
Lemma splitlines_aux_no_break (s : str) :
  forall cur, no_break cur -> Forall no_break (splitlines_aux cur s).
Proof.
  induction s as [s IH] using str_length_ind. intros cur Hcur.
  destruct s as [|c rest]; cbn [splitlines_aux].
  - destruct cur; constructor; [assumption | constructor].
  - destruct (is_linebreak c) eqn:E.
    + constructor; [exact Hcur|].
      destruct rest as [|d rest'].
      * apply IH; [simpl; lia | constructor].
      * destruct ((c =? CR)%N && (d =? LF)%N);
          (apply IH; [simpl; lia | constructor]).
    + apply IH; [simpl; lia|].
      apply Forall_app. split; [exact Hcur|].
      constructor; [exact E | constructor].
Qed.

(** They are pieces of the text: a pair of characters absent from the text
    is absent from its lines. *)
Lemma splitlines_aux_pairs (a b : char) (s : str) :
  forall cur, has_pair a b (cur ++ s) = false ->
  Forall (fun l => has_pair a b l = false) (splitlines_aux cur s).
Proof.
  induction s as [s IH] using str_length_ind. intros cur H.
  destruct s as [|c rest]; cbn [splitlines_aux].
  - rewrite app_nil_r in H. destruct cur; constructor; [assumption | constructor].
  - destruct (is_linebreak c) eqn:E.
    + apply has_pair_app_false in H. destruct H as [Hcur H].
      constructor; [exact Hcur|].
      change (c :: rest) with ([c] ++ rest) in H.
      apply has_pair_app_false in H. destruct H as [_ H].
      destruct rest as [|d rest'].
      * apply IH; [simpl; lia | exact H].
      * destruct ((c =? CR)%N && (d =? LF)%N).
        -- apply IH; [simpl; lia|].
           change (d :: rest') with ([d] ++ rest') in H.
           apply has_pair_app_false in H. apply H.
        -- apply IH; [simpl; lia | exact H].
    + apply IH; [simpl; lia|]. rewrite <- app_assoc. exact H.
Qed.

(** On text whose only line boundary is the line feed, splitting into lines
    and closing each line again gives the text back, with a line feed added
    when the last line had none. *)
Lemma splitlines_aux_unlines (s : str) :
  forall cur, only_LF s -> no_break cur ->
  unlines (splitlines_aux cur s)
  = if terminatedb (cur ++ s) then cur ++ s else (cur ++ s) ++ nl.
Proof.
  induction s as [|c rest IH]; intros cur Hs Hcur; cbn [splitlines_aux].
  - rewrite app_nil_r. destruct cur as [|x cur'].
    + reflexivity.
    + rewrite (no_break_not_terminated _ _ Hcur).
      unfold unlines. simpl. rewrite app_nil_r. reflexivity.
  - inversion Hs as [|? ? Hc Hrest]; subst.
    destruct (is_linebreak c) eqn:E.
    + assert (c = LF) as -> by (apply Hc; reflexivity).
      change (LF =? CR)%N with false. cbn [andb].
      assert (unlines (cur :: splitlines_aux [] rest)
              = cur ++ LF :: unlines (splitlines_aux [] rest)) as Hu.
      { unfold unlines. simpl. rewrite <- app_assoc. reflexivity. }
      destruct rest as [|d rest'].
      * rewrite Hu. simpl. rewrite terminatedb_snoc. reflexivity.
      * rewrite Hu, (IH [] Hrest (Forall_nil _)).
        change ([] ++ d :: rest') with (d :: rest').
        rewrite (terminatedb_app_cons cur LF (d :: rest')).
        change (terminatedb (LF :: d :: rest')) with (terminatedb (d :: rest')).
        destruct (terminatedb (d :: rest')).
        -- reflexivity.
        -- rewrite <- app_assoc. reflexivity.
    + rewrite IH.
      * rewrite <- !app_assoc. reflexivity.
      * exact Hrest.
      * apply Forall_app. split; [exact Hcur|].
        constructor; [exact E | constructor].
Qed.

Lemma unlines_cons (l : str) (ls : list str) :
  unlines (l :: ls) = l ++ LF :: unlines ls.
Proof. unfold unlines. simpl. rewrite <- app_assoc. reflexivity. Qed.

Lemma unlines_terminated (ls : list str) : terminatedb (unlines ls) = true.
Proof.
  induction ls as [|l ls IH].
  - reflexivity.
  - rewrite unlines_cons, terminatedb_app_cons.
    destruct (unlines ls) as [|x u] eqn:E; [reflexivity|].
    change (terminatedb (LF :: x :: u)) with (terminatedb (x :: u)). exact IH.
Qed.

Lemma unlines_only_LF (ls : list str) :
  Forall no_break ls -> only_LF (unlines ls).
Proof.
  induction 1 as [|l ls Hl _ IH].
  - constructor.
  - rewrite unlines_cons. apply Forall_app. split.
    + eapply Forall_impl; [|exact Hl]. simpl. intros c H1 H2. congruence.
    + constructor; [reflexivity | exact IH].
Qed.

Lemma unlines_pairs (a b : char) (ls : list str) :
  LF <> a -> LF <> b ->
  Forall (fun l => has_pair a b l = false) ls ->
  has_pair a b (unlines ls) = false.
Proof.
  intros Ha Hb. induction 1 as [|l ls Hl _ IH].
  - reflexivity.
  - rewrite unlines_cons, (has_pair_split a b LF l _ Ha Hb), Hl, IH. reflexivity.
Qed.

(** What the line pass hands to the scanner. *)
Lemma line_pass_facts (T : str) :
  has_pair SLASH SLASH (line_pass T) = false
  /\ only_LF (line_pass T)
  /\ terminatedb (line_pass T) = true.
Proof.
  rewrite line_pass_unlines.
  pose proof (splitlines_aux_no_break T [] (Forall_nil _)) as Hnb.
  fold (splitlines T) in Hnb. split; [|split].
  - apply unlines_pairs; try discriminate.
    apply Forall_forall. intros l Hl. apply in_map_iff in Hl.
    destruct Hl as [l0 [<- _]]. apply cut_no_slashes.
  - apply unlines_only_LF. apply Forall_forall. intros l Hl.
    apply in_map_iff in Hl. destruct Hl as [l0 [<- Hl0]].
    apply cut_no_break. rewrite Forall_forall in Hnb. apply Hnb. exact Hl0.
  - apply unlines_terminated.
Qed.

(** On text without ["//"] whose lines end in line feeds, the line pass only
    closes the last line. *)
Lemma line_pass_plain (T : str) :
  has_pair SLASH SLASH T = false -> only_LF T ->
  line_pass T = if terminatedb T then T else T ++ nl.
Proof.
  intros Hp Hlf. rewrite line_pass_unlines.
  assert (map cut (splitlines T) = splitlines T) as ->.
  { pose proof (splitlines_aux_pairs SLASH SLASH T [] Hp) as H.
    fold (splitlines T) in H. induction H as [|l ls Hl _ IH].
    - reflexivity.
    - simpl. rewrite (cut_identity l Hl), IH. reflexivity. }
  apply (splitlines_aux_unlines T [] Hlf (Forall_nil _)).
Qed.

End LinePass.

(* ================================================================== *)
(** * Properties of the comment stripper *)
(* ================================================================== *)

Section Stripper.

Lemma purge_comments_scan (T : str) :
  purge_comments T = snd (scan true None (line_pass T)).
Proof. unfold purge_comments. cbv zeta. rewrite block_pass_scan. reflexivity. Qed.

(** Text without ["//"] and without ["/*"], whose lines end in line feeds:
    the stripper closes the last line and changes nothing else. *)
Lemma purge_comments_plain (T : str) :
  has_pair SLASH SLASH T = false ->
  has_pair SLASH STAR T = false ->
  only_LF T ->
  purge_comments T = if terminatedb T then T else T ++ nl.
Proof.
  intros Hss Hst Hlf.
  rewrite purge_comments_scan, (line_pass_plain T Hss Hlf).
  rewrite scan_no_open; [reflexivity|].
  destruct (terminatedb T); [exact Hst|].
  unfold nl. rewrite (has_pair_split SLASH STAR LF T []); try discriminate.
  rewrite Hst. reflexivity.
Qed.

(** What is left after one pass holds no comment opener, and its only line
    boundary is the line feed. *)
Lemma purge_comments_clean (T : str) :
  has_pair SLASH SLASH (purge_comments T) = false
  /\ has_pair SLASH STAR (purge_comments T) = false
  /\ only_LF (purge_comments T).
Proof.
  rewrite purge_comments_scan.
  destruct (line_pass_facts T) as [Hss [Hlf _]].
  destruct (scan_no_markers (line_pass T) true None Hss) as [H1 H2].
  split; [exact H1 | split; [exact H2|]].
  apply scan_Forall. exact Hlf.
Qed.

(** A second pass can only add the line feed an open block comment took. *)
Lemma purge_comments_twice (T : str) :
  purge_comments (purge_comments T)
  = if terminatedb (purge_comments T) then purge_comments T
    else purge_comments T ++ nl.
Proof.
  destruct (purge_comments_clean T) as [H1 [H2 H3]].
  apply purge_comments_plain; assumption.
Qed.

Lemma purge_comments_idempotent_iff (T : str) :
  purge_comments (purge_comments T) = purge_comments T
  <-> terminatedb (purge_comments T) = true.
Proof.
  rewrite purge_comments_twice. destruct (terminatedb (purge_comments T)).
  - split; reflexivity.
  - split; [|discriminate]. intros H. apply (f_equal (@length char)) in H.
    rewrite length_app in H. simpl in H. lia.
Qed.

Lemma ends_recording_terminated (T : str) :
  ends_recording T = true -> terminatedb (purge_comments T) = true.
Proof.
  unfold ends_recording. rewrite block_pass_scan, purge_comments_scan.
  intros Hrec. destruct (line_pass_facts T) as [_ [_ Hterm]].
  apply terminatedb_terminated in Hterm. apply terminatedb_terminated.
  destruct Hterm as [E | E].
  - rewrite E. left. reflexivity.
  - right. apply scan_ends_LF; assumption.
Qed.

(** C4, as the code has it.  Stripping the stripped text gives the stripped
    text exactly when the stripped text is empty or ends in a line feed, and
    the stripped text with one line feed added otherwise.  The stripped text
    is empty or ends in a line feed whenever no block comment is left open
    (the second loop ends with [recording] set). *)
Theorem purge_comments_idempotent (T : str) :
  (purge_comments (purge_comments T) = purge_comments T
   <-> terminated (purge_comments T))
  /\ (~ terminated (purge_comments T) ->
      purge_comments (purge_comments T) = purge_comments T ++ nl)
  /\ (ends_recording T = true ->
      purge_comments (purge_comments T) = purge_comments T).
Proof.
  split; [|split].
  - rewrite <- terminatedb_terminated. apply purge_comments_idempotent_iff.
  - intros H. rewrite purge_comments_twice.
    destruct (terminatedb (purge_comments T)) eqn:E; [|reflexivity].
    exfalso. apply H, terminatedb_terminated, E.
  - intros H. apply purge_comments_idempotent_iff, ends_recording_terminated, H.
Qed.

Lemma purge_comments_idempotent_witness :
  (ends_recording (py "a /* b */ c // d") = true
   /\ purge_comments (purge_comments (py "a /* b */ c // d"))
      = purge_comments (py "a /* b */ c // d"))
  /\ (ends_recording (py "a" ++ nl ++ py "/* b") = false
      /\ purge_comments (py "a" ++ nl ++ py "/* b") = py "a" ++ nl
      /\ purge_comments (purge_comments (py "a" ++ nl ++ py "/* b"))
         = purge_comments (py "a" ++ nl ++ py "/* b"))
  /\ (~ terminated (purge_comments (py "a /* b"))
      /\ purge_comments (purge_comments (py "a /* b"))
         = purge_comments (py "a /* b") ++ nl).
Proof.
  split; [|split].
  - split; [reflexivity|].
    apply (proj2 (proj2 (purge_comments_idempotent (py "a /* b */ c // d")))).
    reflexivity.
  - split; [reflexivity | split; [reflexivity|]].
    apply (proj1 (purge_comments_idempotent (py "a" ++ nl ++ py "/* b"))).
    right. exists (py "a"). reflexivity.
  - assert (H : ~ terminated (purge_comments (py "a /* b"))).
    { intros H. apply terminatedb_terminated in H. discriminate H. }
    split; [exact H|].
    apply (proj1 (proj2 (purge_comments_idempotent (py "a /* b")))). exact H.
Defined.

(** C4 as stated fails: an open block comment takes the final line feed with
    it, and the second pass puts one back.  Here the first pass gives ["a "]
    and the second ["a \n"]. *)
Lemma purge_comments_not_idempotent :
  purge_comments (py "a /* b") = py "a "
  /\ purge_comments (purge_comments (py "a /* b")) = py "a " ++ nl
  /\ purge_comments (purge_comments (py "a /* b")) <> purge_comments (py "a /* b").
Proof.
  split; [reflexivity | split; [reflexivity | discriminate]].
Qed.

(** C5, as the code has it.  On a text with no comment marker and no line
    boundary but the line feed, the stripper returns the text unchanged when
    it is empty or ends in a line feed, and the text with one line feed
    added otherwise. *)
Theorem purge_comments_no_markers (T : str) :
  contains T (py "//") = false ->
  contains T (py "/*") = false ->
  contains T (py "*/") = false ->
  unix_lines T = true ->
  purge_comments T = if terminatedb T then T else T ++ nl.
Proof.
  intros Hss Hst _ Hlf.
  change (py "//") with [SLASH; SLASH] in Hss.
  change (py "/*") with [SLASH; STAR] in Hst.
  rewrite contains_pair in Hss, Hst.
  apply purge_comments_plain; [exact Hss | exact Hst|].
  apply unix_lines_only_LF. exact Hlf.
Qed.

Lemma purge_comments_no_markers_witness :
  let T := py "int x;" ++ nl ++ py "int y;" ++ nl in
  contains T (py "//") = false
  /\ contains T (py "/*") = false
  /\ contains T (py "*/") = false
  /\ unix_lines T = true
  /\ purge_comments T = T.
Proof.
  intros T. do 4 (split; [reflexivity|]).
  apply (purge_comments_no_markers T); reflexivity.
Defined.

(** C5 as stated fails on a text whose last line is not closed: ["abc"] has
    no comment marker and comes back as ["abc\n"]. *)
Lemma purge_comments_adds_newline :
  contains (py "abc") (py "//") = false
  /\ contains (py "abc") (py "/*") = false
  /\ contains (py "abc") (py "*/") = false
  /\ purge_comments (py "abc") = py "abc" ++ nl
  /\ purge_comments (py "abc") <> py "abc".
Proof.
  repeat split; try reflexivity. discriminate.
Qed.

End Stripper.

(* ================================================================== *)
(** * Facts about loops that may raise *)
(* ================================================================== *)

Section ResultFacts.

Context {A B : Type}.

Lemma bind_Ok {C : Type} (c : result A) (k : A -> result C) (b : C) :
  bind c k = Ok b -> exists a, c = Ok a /\ k a = Ok b.
Proof.
  destruct c as [a | e]; simpl; [|discriminate].
  intros H. exists a. split; [reflexivity | exact H].
Qed.

Lemma for_each_app (body : A -> B -> result A) (l1 l2 : list B) (a : A) :
  for_each body (l1 ++ l2) a = bind (for_each body l1 a) (for_each body l2).
Proof.
  revert a; induction l1 as [|x l1 IH]; intros a; simpl.
  - reflexivity.
  - destruct (body a x); simpl; [apply IH | reflexivity].
Qed.

(** A loop whose body returns more often returns more often. *)
Lemma for_each_mono (body1 body2 : A -> B -> result A) (l : list B) :
  (forall a x a', body1 a x = Ok a' -> body2 a x = Ok a') ->
  forall a a', for_each body1 l a = Ok a' -> for_each body2 l a = Ok a'.
Proof.
  intros Hb. induction l as [|x l IH]; simpl; intros a a' H.
  - exact H.
  - apply bind_Ok in H. destruct H as [a1 [H1 H2]].
    rewrite (Hb _ _ _ H1). simpl. apply IH. exact H2.
Qed.

End ResultFacts.

(* ================================================================== *)
(** * Properties of the path-to-API-name mapper *)
(* ================================================================== *)

(** A test [n =? m] on indices, settled by arithmetic on lengths. *)
Ltac index_test b n m :=
  replace (n =? m) with b
    by (symmetry; first [apply Nat.eqb_neq | apply Nat.eqb_eq];
        rewrite ?length_app; simpl; lia).

Section Mapper.

Lemma split_on_length (sep : char) (s : str) :
  length (split_on sep s) = S (count sep s).
Proof.
  unfold count. induction s as [|c s IH]; simpl.
  - reflexivity.
  - destruct (N.eqb_spec c sep) as [-> | Hne].
    + destruct (N.eq_dec sep sep); [|contradiction]. simpl. rewrite IH. reflexivity.
    + destruct (N.eq_dec c sep); [contradiction|].
      destruct (split_on sep s); simpl in *; [discriminate | exact IH].
Qed.

Lemma split_on_absent (sep : char) (s : str) :
  ~ In sep s -> split_on sep s = [s].
Proof.
  induction s as [|c s IH]; intros H; simpl.
  - reflexivity.
  - destruct (N.eqb_spec c sep) as [-> | Hne].
    + exfalso. apply H. left. reflexivity.
    + rewrite IH; [reflexivity|]. intros Hin. apply H. right. exact Hin.
Qed.

Lemma split_on_first (sep : char) (a b : str) :
  ~ In sep a -> split_on sep (a ++ sep :: b) = a :: split_on sep b.
Proof.
  induction a as [|c a IH]; intros H; simpl.
  - rewrite N.eqb_refl. reflexivity.
  - destruct (N.eqb_spec c sep) as [-> | Hne].
    + exfalso. apply H. left. reflexivity.
    + rewrite IH; [reflexivity|]. intros Hin. apply H. right. exact Hin.
Qed.

(** A text with exactly one [sep] is a base, the separator and an
    extension. *)
Lemma count_one (sep : char) (s : str) :
  count sep s = 1 ->
  exists base ext, s = base ++ sep :: ext /\ ~ In sep base /\ ~ In sep ext.
Proof.
  unfold count. induction s as [|c s IH]; simpl; [discriminate|].
  destruct (N.eq_dec c sep) as [-> | Hne].
  - intros [= H]. exists [], s. split; [reflexivity|]. split; [intros []|].
    apply (count_occ_not_In N.eq_dec). exact H.
  - intros H. destruct (IH H) as [base [ext [-> [Hb He]]]].
    exists (c :: base), ext. split; [reflexivity|]. split; [|exact He].
    intros [E | Hin]; [exact (Hne E) | exact (Hb Hin)].
Qed.

Lemma join_cons (sep x : str) (l : list str) :
  join sep (x :: l) = x ++ concat (map (fun y => sep ++ y) l).
Proof.
  revert x; induction l as [|y l IH]; intros x.
  - simpl. rewrite app_nil_r. reflexivity.
  - change (join sep (x :: y :: l)) with (x ++ sep ++ join sep (y :: l)).
    rewrite IH. simpl. rewrite <- app_assoc. reflexivity.
Qed.

(** The turns of the loop at the segments that are copied: those after the
    third and before the last. *)
Lemma apiname_copy_loop (mid pre : list str) (lastseg newname : str) :
  3 <= length pre ->
  for_each (apiname_step (pre ++ mid ++ [lastseg]))
    (seq (length pre) (length mid)) newname
  = Ok (newname ++ concat (map (fun m => py "/" ++ m) mid)).
Proof.
  revert pre newname; induction mid as [|m mid IH]; intros pre newname Hpre.
  - simpl. rewrite app_nil_r. reflexivity.
  - cbn [length seq for_each].
    assert (apiname_step (pre ++ (m :: mid) ++ [lastseg]) newname (length pre)
            = Ok (newname ++ py "/" ++ m)) as ->.
    { unfold apiname_step.
      index_test false (length pre) 0.
      index_test false (length pre) 2.
      index_test false (length pre) (length (pre ++ (m :: mid) ++ [lastseg]) - 1).
      rewrite app_nth2, Nat.sub_diag by lia. reflexivity. }
    cbn [bind].
    specialize (IH (pre ++ [m]) (newname ++ py "/" ++ m)).
    rewrite length_app, Nat.add_1_r in IH. simpl length in IH.
    replace ((pre ++ [m]) ++ mid ++ [lastseg]) with (pre ++ (m :: mid) ++ [lastseg])
      in IH by (rewrite <- app_assoc; reflexivity).
    rewrite IH by lia. simpl. rewrite <- !app_assoc. reflexivity.
Qed.

(** The turn of the loop at the last segment. *)
Lemma apiname_last_step (pre : list str) (lastseg newname : str) :
  3 <= length pre ->
  apiname_step (pre ++ [lastseg]) newname (length pre)
  = if length (split_on DOT lastseg) =? 2
    then Ok (newname ++ py "/" ++ nth 0 (split_on DOT lastseg) [] ++ py "_API")
    else Raise AssertionError.
Proof.
  intros Hpre. unfold apiname_step.
  index_test false (length pre) 0.
  index_test false (length pre) 2.
  index_test true (length pre) (length (pre ++ [lastseg]) - 1).
  rewrite app_nth2, Nat.sub_diag by lia. cbn [nth].
  destruct (length (split_on DOT lastseg) =? 2); reflexivity.
Qed.

(** The whole loop, on a path of at least four segments. *)
Lemma apiname_loop (seg0 seg1 seg2 : str) (mid : list str) (lastseg : str) :
  let fname_entries := seg0 :: seg1 :: seg2 :: mid ++ [lastseg] in
  for_each (apiname_step fname_entries) (seq 0 (length fname_entries)) []
  = if length (split_on DOT lastseg) =? 2
    then Ok (seg0 ++ py "/" ++ seg1 ++ py "/" ++ seg2
             ++ py "_api/auto_generated_api"
             ++ concat (map (fun m => py "/" ++ m) mid)
             ++ py "/" ++ nth 0 (split_on DOT lastseg) [] ++ py "_API")
    else Raise AssertionError.
Proof.
  intros fname_entries.
  assert (Hseq : seq 0 (length fname_entries)
                 = seq 0 3 ++ seq 3 (length mid) ++ [S (S (S (length mid)))]).
  { unfold fname_entries. cbn [length]. rewrite length_app. cbn [length].
    replace (S (S (S (length mid + 1)))) with (3 + (length mid + 1)) by lia.
    rewrite seq_app, seq_app. reflexivity. }
  rewrite Hseq, !for_each_app.
  assert (for_each (apiname_step fname_entries) (seq 0 3) []
          = Ok (seg0 ++ py "/" ++ seg1 ++ py "/" ++ seg2
                ++ py "_api/auto_generated_api")) as ->.
  { unfold fname_entries. cbn [seq for_each]. unfold apiname_step.
    cbn [Nat.eqb length Nat.sub app nth bind].
    rewrite <- !app_assoc. reflexivity. }
  cbn [bind].
  pose proof (apiname_copy_loop mid [seg0; seg1; seg2] lastseg
                (seg0 ++ py "/" ++ seg1 ++ py "/" ++ seg2
                 ++ py "_api/auto_generated_api")) as Hcopy.
  cbn [length app] in Hcopy. fold fname_entries in Hcopy.
  rewrite for_each_app, Hcopy by lia. cbn [bind for_each].
  pose proof (apiname_last_step ([seg0; seg1; seg2] ++ mid) lastseg
                ((seg0 ++ py "/" ++ seg1 ++ py "/" ++ seg2
                  ++ py "_api/auto_generated_api")
                 ++ concat (map (fun m => py "/" ++ m) mid))) as Hlast.
  rewrite length_app in Hlast. cbn [length app Nat.add] in Hlast.
  fold fname_entries in Hlast.
  rewrite Hlast by lia.
  destruct (length (split_on DOT lastseg) =? 2); cbn [bind].
  - rewrite <- !app_assoc. reflexivity.
  - reflexivity.
Qed.

(** A list of more than three segments, taken apart. *)
Lemma four_segments (l : list str) :
  3 < length l ->
  exists seg0 seg1 seg2 mid lastseg,
    l = seg0 :: seg1 :: seg2 :: mid ++ [lastseg] /\ last l [] = lastseg.
Proof.
  intros H. destruct l as [|seg0 [|seg1 [|seg2 rest]]]; simpl in H; try lia.
  destruct rest as [|x rest _] using rev_ind; [simpl in H; lia|].
  exists seg0, seg1, seg2, rest, x. split; [reflexivity|].
  change (seg0 :: seg1 :: seg2 :: rest ++ [x])
    with ((seg0 :: seg1 :: seg2 :: rest) ++ [x]).
  apply last_last.
Qed.

End Mapper.

Section MapperProperties.

Lemma join_split_on (sep : char) (s : str) : join [sep] (split_on sep s) = s.
Proof.
  induction s as [|c s IH].
  - reflexivity.
  - cbn [split_on]. destruct (c =? sep)%N eqn:E.
    + apply N.eqb_eq in E. subst c.
      destruct (split_on sep s) as [|h t] eqn:Es;
        [pose proof (split_on_length sep s) as L; rewrite Es in L; discriminate L|].
      change (join [sep] ([] :: h :: t)) with ([] ++ [sep] ++ join [sep] (h :: t)).
      rewrite IH. reflexivity.
    + destruct (split_on sep s) as [|h t] eqn:Es;
        [pose proof (split_on_length sep s) as L; rewrite Es in L; discriminate L|].
      destruct t as [|h' t'].
      * simpl in IH |- *. rewrite IH. reflexivity.
      * change (join [sep] ((c :: h) :: h' :: t'))
          with (c :: (h ++ [sep] ++ join [sep] (h' :: t'))).
        change (join [sep] (h :: h' :: t'))
          with (h ++ [sep] ++ join [sep] (h' :: t')) in IH.
        rewrite IH. reflexivity.
Qed.

Lemma split_on_base_ext (base ext : str) :
  ~ In DOT base -> ~ In DOT ext ->
  split_on DOT (base ++ DOT :: ext) = [base; ext].
Proof.
  intros Hb He. rewrite (split_on_first DOT base ext Hb).
  rewrite (split_on_absent DOT ext He). reflexivity.
Qed.

(** The mapper on a path given by its segments. *)
Lemma apiname_from_segments (fname seg0 seg1 seg2 : str) (mid : list str)
    (lastseg : str) :
  split_on SLASH fname = seg0 :: seg1 :: seg2 :: mid ++ [lastseg] ->
  apiname_from_filename fname
  = if count DOT lastseg =? 1
    then Ok (join (py "/")
               (seg0 :: seg1 :: (seg2 ++ py "_api/auto_generated_api")
                :: mid ++ [nth 0 (split_on DOT lastseg) [] ++ py "_API"]))
    else Raise AssertionError.
Proof.
  intros E. unfold apiname_from_filename. cbv zeta. rewrite E.
  assert ((3 <? length (seg0 :: seg1 :: seg2 :: mid ++ [lastseg])) = true) as ->.
  { apply Nat.ltb_lt. simpl. rewrite length_app. simpl. lia. }
  cbn [assert bind]. rewrite apiname_loop, split_on_length.
  change (S (count DOT lastseg) =? 2) with (count DOT lastseg =? 1).
  destruct (count DOT lastseg =? 1); [|reflexivity].
  f_equal. rewrite join_cons. cbn [map concat].
  rewrite map_app, concat_app. cbn [map concat].
  rewrite <- !app_assoc, app_nil_r. reflexivity.
Qed.

(** The mapper raises exactly when the path has at most three segments or
    its last segment does not hold exactly one dot; it raises nothing but
    [AssertionError]. *)
Lemma apiname_aborts_iff (fname : str) :
  (apiname_from_filename fname = Raise AssertionError
   <-> length (split_on SLASH fname) <= 3
       \/ count DOT (last (split_on SLASH fname) []) <> 1)
  /\ ((exists newname, apiname_from_filename fname = Ok newname)
      \/ apiname_from_filename fname = Raise AssertionError).
Proof.
  destruct (Nat.ltb_spec 3 (length (split_on SLASH fname))) as [Hlen | Hlen].
  - destruct (four_segments _ Hlen) as [seg0 [seg1 [seg2 [mid [lastseg [E El]]]]]].
    rewrite El, (apiname_from_segments fname seg0 seg1 seg2 mid lastseg E).
    destruct (Nat.eqb_spec (count DOT lastseg) 1) as [Hc | Hc].
    + split.
      * split; [discriminate | intros [H | H]; [lia | contradiction]].
      * left. eexists. reflexivity.
    + split.
      * split; [intros _; right; exact Hc | reflexivity].
      * right. reflexivity.
  - assert (apiname_from_filename fname = Raise AssertionError) as ->.
    { unfold apiname_from_filename. cbv zeta.
      replace (3 <? length (split_on SLASH fname)) with false
        by (symmetry; apply Nat.ltb_ge; exact Hlen).
      reflexivity. }
    split.
    + split; [intros _; left; exact Hlen | reflexivity].
    + right. reflexivity.
Qed.

(** C2.  On a path of more than three segments whose last segment holds
    exactly one dot, the mapper copies segment 0, turns segment 2 into
    [<seg2>_api/auto_generated_api], replaces the last segment
    [<base>.<ext>] by [<base>_API], copies every other segment and joins
    the segments with ["/"] again; [a/b/c/Foo.cc] gives
    [a/b/c_api/auto_generated_api/Foo_API]. *)
Theorem apiname_from_filename_rewrites :
  (forall fname : str,
     3 < length (split_on SLASH fname) ->
     count DOT (last (split_on SLASH fname) []) = 1 ->
     exists seg0 seg1 seg2 mid base ext,
       fname = join (py "/") (seg0 :: seg1 :: seg2 :: mid ++ [base ++ DOT :: ext])
       /\ split_on SLASH fname = seg0 :: seg1 :: seg2 :: mid ++ [base ++ DOT :: ext]
       /\ ~ In DOT base /\ ~ In DOT ext
       /\ apiname_from_filename fname
          = Ok (join (py "/")
                  (seg0 :: seg1 :: (seg2 ++ py "_api/auto_generated_api")
                   :: mid ++ [base ++ py "_API"])))
  /\ apiname_from_filename (py "a/b/c/Foo.cc")
     = Ok (py "a/b/c_api/auto_generated_api/Foo_API").
Proof.
  split; [|reflexivity].
  intros fname Hlen Hdot.
  destruct (four_segments _ Hlen) as [seg0 [seg1 [seg2 [mid [lastseg [E El]]]]]].
  rewrite El in Hdot.
  destruct (count_one DOT lastseg Hdot) as [base [ext [-> [Hb He]]]].
  exists seg0, seg1, seg2, mid, base, ext.
  split; [|split; [exact E | split; [exact Hb | split; [exact He|]]]].
  - transitivity (join (py "/") (split_on SLASH fname)).
    + symmetry. apply (join_split_on SLASH).
    + rewrite E. reflexivity.
  - rewrite (apiname_from_segments fname seg0 seg1 seg2 mid _ E), Hdot.
    cbn [Nat.eqb]. rewrite (split_on_base_ext base ext Hb He). reflexivity.
Qed.

Lemma apiname_from_filename_rewrites_witness :
  exists seg0 seg1 seg2 mid base ext,
    py "../src/core/a/b/Foo.cc"
    = join (py "/") (seg0 :: seg1 :: seg2 :: mid ++ [base ++ DOT :: ext])
    /\ split_on SLASH (py "../src/core/a/b/Foo.cc")
       = seg0 :: seg1 :: seg2 :: mid ++ [base ++ DOT :: ext]
    /\ ~ In DOT base /\ ~ In DOT ext
    /\ apiname_from_filename (py "../src/core/a/b/Foo.cc")
       = Ok (join (py "/")
               (seg0 :: seg1 :: (seg2 ++ py "_api/auto_generated_api")
                :: mid ++ [base ++ py "_API"])).
Proof.
  apply (proj1 apiname_from_filename_rewrites (py "../src/core/a/b/Foo.cc")).
  - vm_compute. lia.
  - reflexivity.
Defined.

End MapperProperties.

(* ================================================================== *)
(** * Properties of the API declaration detector *)
(* ================================================================== *)

Section Detector.

(** A word in which [c] does not occur lies on one side of a [c]. *)
Lemma Substring_split_char (w x y : str) (c : char) :
  ~ In c w -> Substring w (x ++ c :: y) -> Substring w x \/ Substring w y.
Proof.
  intros Hc [pre [post H]].
  apply app_eq_app in H. destruct H as [l [[H1 H2] | [H1 H2]]].
  - apply app_eq_app in H2. destruct H2 as [l' [[H3 H4] | [H3 H4]]].
    + destruct l' as [|c' l''].
      * left. rewrite app_nil_r in H3. subst w x.
        exists pre, []. rewrite app_nil_r. reflexivity.
      * exfalso. injection H4 as <- _. apply Hc. rewrite H3.
        apply in_or_app. right. left. reflexivity.
    + left. subst l x. exists pre, l'. reflexivity.
  - destruct l as [|c' l''].
    + simpl in H2. destruct w as [|w0 w]; [left; auto with substr|].
      exfalso. injection H2 as <- _. apply Hc. left. reflexivity.
    + injection H2 as <- H2. right. exists l'', post. exact H2.
Qed.

Lemma Substring_join (w t sep : str) (tokens : list str) :
  In t tokens -> Substring w t -> Substring w (join sep tokens).
Proof.
  intros Hin Hw. induction tokens as [|x rest IH]; [contradiction|].
  cbn [join]. destruct rest as [|y rest'].
  - destruct Hin as [-> | []]. exact Hw.
  - destruct Hin as [-> | Hin]; auto with substr.
Qed.

(** [split()] does not cut a word that holds no white space. *)
Lemma split_ws_aux_keeps (w : str) (s : str) :
  w <> [] -> (forall c, In c w -> is_space c = false) ->
  forall cur, Substring w (cur ++ s) ->
  exists t, In t (split_ws_aux cur s) /\ Substring w t.
Proof.
  intros Hw Hns. induction s as [|c rest IH]; intros cur H; cbn [split_ws_aux].
  - rewrite app_nil_r in H. destruct cur as [|x cur'].
    + exfalso. destruct H as [pre [post H]]. destruct pre; [|discriminate].
      destruct w; [contradiction | discriminate].
    + exists (x :: cur'). split; [left; reflexivity | exact H].
  - destruct (is_space c) eqn:E.
    + assert (Hc : ~ In c w) by (intros Hin; rewrite (Hns c Hin) in E; discriminate).
      destruct (Substring_split_char w cur rest c Hc H) as [Hcur | Hrest].
      * destruct cur as [|x cur'].
        -- exfalso. destruct Hcur as [pre [post Hcur]]. destruct pre; [|discriminate].
           destruct w; [contradiction | discriminate].
        -- exists (x :: cur'). split; [left; reflexivity | exact Hcur].
      * destruct (IH [] Hrest) as [t [Hin Ht]].
        exists t. split; [|exact Ht].
        destruct cur; [exact Hin | right; exact Hin].
    + apply IH. rewrite <- app_assoc. exact H.
Qed.

Lemma normalised_keeps (w T : str) :
  w <> [] -> (forall c, In c w -> is_space c = false) ->
  Substring w (purge_comments T) -> Substring w (normalised T).
Proof.
  intros Hw Hns H.
  destruct (split_ws_aux_keeps w (purge_comments T) Hw Hns [] H) as [t [Hin Ht]].
  exact (Substring_join w t (py " ") _ Hin Ht).
Qed.

Lemma has_api_definition_searches (fs : filesystem) (filename concatname : str) :
  has_api_definition fs filename concatname
  = contains (read fs concatname) (needle filename)
    && contains (normalised (read fs concatname)) (needle filename).
Proof.
  unfold has_api_definition, contains, normalised, needle. cbv zeta.
  destruct (find (read fs concatname) _ =? -1)%Z; [reflexivity|].
  destruct (find (join _ _) _ =? -1)%Z; reflexivity.
Qed.

(** The two searches: the detector returns true exactly when the raw text
    contains [<base>::get_api_definition] and the text still contains it
    once comments are stripped and the words left are joined by single
    spaces.  In particular it returns true on a text with no comment marker
    and no line boundary but the line feed in which the text occurs,
    provided the base name holds no white space. *)
Lemma has_api_definition_iff (fs : filesystem) (filename concatname : str) :
  (has_api_definition fs filename concatname = true
   <-> Substring (needle filename) (read fs concatname)
       /\ Substring (needle filename) (normalised (read fs concatname)))
  /\ (contains (read fs concatname) (py "//") = false ->
      contains (read fs concatname) (py "/*") = false ->
      unix_lines (read fs concatname) = true ->
      forallb (fun c => negb (is_space c)) (needle filename) = true ->
      Substring (needle filename) (read fs concatname) ->
      has_api_definition fs filename concatname = true).
Proof.
  rewrite has_api_definition_searches, andb_true_iff, !contains_Substring.
  split; [reflexivity|].
  intros Hss Hst Hlf Hns Hsub. split; [exact Hsub|].
  apply normalised_keeps.
  - unfold needle. intros H. apply app_eq_nil in H. destruct H as [_ H].
    discriminate H.
  - intros c Hc. rewrite forallb_forall in Hns. specialize (Hns c Hc).
    apply negb_true_iff in Hns. exact Hns.
  - change (py "//") with [SLASH; SLASH] in Hss.
    change (py "/*") with [SLASH; STAR] in Hst.
    rewrite contains_pair in Hss, Hst. apply unix_lines_only_LF in Hlf.
    rewrite (purge_comments_plain _ Hss Hst Hlf).
    destruct (terminatedb (read fs concatname)); auto with substr.
Qed.

(** Why the base name must hold no white space: the second search runs on
    words joined by single spaces, where a base name with two spaces in a
    row cannot occur. *)
Example has_api_definition_spaced_base :
  let T := py "int A  B::get_api_definition() { }" in
  contains T (needle (py "A  B.cc")) = true
  /\ contains T (py "//") = false
  /\ contains T (py "/*") = false
  /\ has_api_definition (one_file (py "d/A  B.cc") T) (py "A  B.cc") (py "d/A  B.cc")
     = false.
Proof. repeat split; reflexivity. Qed.

Lemma occurs_at_startswith (sub s : str) (i : nat) :
  occurs_at sub s i -> startswith (skipn i s) sub = true /\ i <= length s.
Proof.
  intros [pre [post [-> <-]]]. rewrite skipn_length_app. split.
  - apply startswith_app.
  - rewrite length_app. lia.
Qed.

End Detector.

(* ================================================================== *)
(** * Properties of the dependency reader *)
(* ================================================================== *)

Section DependencyReader.

Lemma split_ws_aux_nonempty (s cur : str) :
  Forall (fun t => t <> []) (split_ws_aux cur s).
Proof.
  revert cur; induction s as [|c rest IH]; intros cur; cbn [split_ws_aux].
  - destruct cur; constructor; [discriminate | constructor].
  - destruct (is_space c); [|apply IH].
    destruct cur; [apply IH | constructor; [discriminate | apply IH]].
Qed.

Lemma remove_first_Forall (P : str -> Prop) (x : str) (l : list str) :
  Forall P l -> Forall P (remove_first x l).
Proof.
  induction 1 as [|y l Hy Hl IH]; simpl; [constructor|].
  destruct (str_eqb y x); [exact Hl | constructor; assumption].
Qed.

Lemma remove_first_length (x : str) (l : list str) :
  length (remove_first x l) <= length l.
Proof.
  induction l as [|y l IH]; simpl; [lia|].
  destruct (str_eqb y x); simpl; lia.
Qed.

(** [entry[0]] never fails on the words [split()] returns. *)
Lemma drop_comment_entries_returns (fuel i : nat) (dlist : list str) :
  Forall (fun t => t <> []) dlist ->
  exists l, drop_comment_entries fuel i dlist = Ok l.
Proof.
  revert i dlist; induction fuel as [|fuel IH]; intros i dlist H; simpl.
  - exists dlist. reflexivity.
  - destruct (nth_error dlist i) as [entry|] eqn:E; [|exists dlist; reflexivity].
    assert (entry <> []) as Hne.
    { rewrite Forall_forall in H. apply H. eapply nth_error_In. exact E. }
    destruct entry as [|c entry']; [contradiction|].
    destruct (c =? HASH)%N; apply IH; [apply remove_first_Forall|]; exact H.
Qed.

(** The loop ends because the iterator runs off the list, not because the
    fuel runs out: more fuel changes nothing. *)
Lemma drop_comment_entries_fuel (fuel i : nat) (dlist : list str) (extra : nat) :
  length dlist <= i + fuel ->
  drop_comment_entries (fuel + extra) i dlist = drop_comment_entries fuel i dlist.
Proof.
  revert i dlist; induction fuel as [|fuel IH]; intros i dlist H.
  - assert (nth_error dlist i = None) as E by (apply nth_error_None; lia).
    destruct extra; simpl; [reflexivity | rewrite E; reflexivity].
  - simpl. destruct (nth_error dlist i) as [[|c entry']|]; try reflexivity.
    destruct (c =? HASH)%N; apply IH.
    + pose proof (remove_first_length (c :: entry') dlist). lia.
    + lia.
Qed.

Lemma get_library_dependencies_returns (fs : filesystem) (dirname : str) :
  (isdir fs dirname = true -> exists l, get_library_dependencies fs dirname = Ok l)
  /\ (isdir fs dirname = false ->
      get_library_dependencies fs dirname = Raise AssertionError)
  /\ (isdir fs dirname = true ->
      isfile fs (dirname ++ py "/link_dependencies.txt") = false ->
      get_library_dependencies fs dirname = Ok []).
Proof.
  unfold get_library_dependencies. cbv zeta. split; [|split].
  - intros ->. cbn [assert bind].
    destruct (isfile fs _); [|exists []; reflexivity].
    apply drop_comment_entries_returns. apply split_ws_aux_nonempty.
  - intros ->. reflexivity.
  - intros -> ->. reflexivity.
Qed.

(** Where no word starts with ["#"] the loop removes nothing, and the
    reader returns the words of the file. *)
Lemma drop_comment_entries_plain (fuel i : nat) (dlist : list str) :
  Forall (fun t => t <> [] /\ startswith t (py "#") = false) dlist ->
  drop_comment_entries fuel i dlist = Ok dlist.
Proof.
  intros H. revert i; induction fuel as [|fuel IH]; intros i; simpl.
  - reflexivity.
  - destruct (nth_error dlist i) as [entry|] eqn:E; [|reflexivity].
    rewrite Forall_forall in H.
    destruct (H entry (nth_error_In _ _ E)) as [Hne Hs].
    destruct entry as [|c entry']; [contradiction|].
    change (py "#") with [HASH] in Hs. cbn [startswith] in Hs.
    rewrite andb_true_r, N.eqb_sym in Hs. rewrite Hs. apply IH.
Qed.

Lemma get_library_dependencies_plain (fs : filesystem) (dirname : str) :
  isdir fs dirname = true ->
  isfile fs (dirname ++ py "/link_dependencies.txt") = true ->
  Forall (fun t => startswith t (py "#") = false)
    (split_ws (read fs (dirname ++ py "/link_dependencies.txt"))) ->
  get_library_dependencies fs dirname
  = Ok (dependency_tokens (read fs (dirname ++ py "/link_dependencies.txt"))).
Proof.
  intros Hd Hf Hplain. unfold get_library_dependencies, dependency_tokens.
  rewrite Hd, Hf. cbn [assert bind]. cbv zeta.
  rewrite drop_comment_entries_plain.
  - f_equal. symmetry. apply forallb_filter_id. apply forallb_forall.
    intros t Ht. rewrite Forall_forall in Hplain. rewrite (Hplain t Ht). reflexivity.
  - pose proof (split_ws_aux_nonempty (read fs (dirname ++ py "/link_dependencies.txt")) [])
      as Hne.
    fold (split_ws (read fs (dirname ++ py "/link_dependencies.txt"))) in Hne.
    rewrite Forall_forall in Hne, Hplain |- *.
    intros t Ht. split; [apply Hne | apply Hplain]; exact Ht.
Qed.

(** C6 fails on the code.  On a file that holds [#a #b libC], the reader
    returns [#b] and [libC]: removing [#a] from the list while the loop runs
    over it moves [#b] under the index already visited, so that the loop
    never looks at it.  The words without those that start with ["#"] are
    [libC] alone. *)
Theorem get_library_dependencies_keeps_comment :
  get_library_dependencies (deps_fs (py "#a #b libC")) (py "core")
  = Ok [py "#b"; py "libC"]
  /\ dependency_tokens (py "#a #b libC") = [py "libC"].
Proof. split; reflexivity. Qed.

(** C7, as the code has it.  On a file that holds ["# comment\nlibA libB"]
    the reader returns [comment], [libA] and [libB]: the words are tested
    one by one, and only the word [#] starts with the marker.  With the
    marker attached to the word ([#comment]) it returns [libA] and [libB]. *)
Theorem get_library_dependencies_example :
  get_library_dependencies (deps_fs (py "# comment" ++ nl ++ py "libA libB"))
    (py "core")
  = Ok [py "comment"; py "libA"; py "libB"]
  /\ get_library_dependencies (deps_fs (py "#comment" ++ nl ++ py "libA libB"))
       (py "core")
     = Ok [py "libA"; py "libB"].
Proof. split; reflexivity. Qed.

(** C7 as stated fails: the result has three elements, not two. *)
Lemma get_library_dependencies_example_differs :
  get_library_dependencies (deps_fs (py "# comment" ++ nl ++ py "libA libB"))
    (py "core")
  <> Ok [py "libA"; py "libB"].
Proof. vm_compute. discriminate. Qed.

End DependencyReader.

(* ================================================================== *)
(** * Properties of the directory walker *)
(* ================================================================== *)

Section Walker.

Variable fs : filesystem.
Variable libname : str.


(** One call of the walker, its recursive calls left folded. *)
Lemma walk_S (depth : nat) (dirname : str) (skip_apps : bool) :
  get_all_cc_and_hh_files_in_dir_and_subdirs (S depth) fs libname dirname skip_apps
  = (_ <- assert (isdir fs dirname) ;;
     if excluded libname dirname skip_apps then Ok (nothing_walked skip_apps)
     else
       st <- for_each
               (visit_entry fs skip_apps
                  (fun d =>
                     get_all_cc_and_hh_files_in_dir_and_subdirs
                       depth fs libname d skip_apps)
                  dirname)
               (listdir fs dirname) ([], []) ;;
       Ok (return_walked skip_apps st)).
Proof. reflexivity. Qed.


Lemma walk_missing (depth : nat) (dirname : str) (skip_apps : bool) :
  isdir fs dirname = false ->
  get_all_cc_and_hh_files_in_dir_and_subdirs (S depth) fs libname dirname skip_apps
  = Raise AssertionError.
Proof.
  intros Hd. rewrite walk_S, Hd. reflexivity.
Qed.

Lemma walk_missing_raises (depth : nat) (dirname : str) (skip_apps : bool) :
  isdir fs dirname = false ->
  exists e,
    get_all_cc_and_hh_files_in_dir_and_subdirs depth fs libname dirname skip_apps
    = Raise e.
Proof.
  intros Hd. destruct depth.
  - exists RecursionError. reflexivity.
  - exists AssertionError. apply walk_missing. exact Hd.
Qed.


(** The bound on the depth only decides whether the walk returns: a walk
    that returns returns the same lists under any larger bound. *)
Lemma visit_entry_mono (skip_apps : bool)
    (recurse1 recurse2 : str -> result (walked skip_apps))
    (dirname : str) (st : list str * list str) (fname : str)
    (st' : list str * list str) :
  (forall d r, recurse1 d = Ok r -> recurse2 d = Ok r) ->
  visit_entry fs skip_apps recurse1 dirname st fname = Ok st' ->
  visit_entry fs skip_apps recurse2 dirname st fname = Ok st'.
Proof.
  intros Hr. unfold visit_entry. destruct st as [outlist outlist_apis].
  cbv zeta. destruct (isfile fs _); [intros H; exact H|].
  destruct (isdir fs _); [|intros H; exact H].
  intros H. apply bind_Ok in H. destruct H as [r [H1 H2]].
  rewrite (Hr _ _ H1). exact H2.
Qed.

Lemma walk_deeper (depth : nat) :
  forall dirname skip_apps r,
    get_all_cc_and_hh_files_in_dir_and_subdirs depth fs libname dirname skip_apps
    = Ok r ->
    get_all_cc_and_hh_files_in_dir_and_subdirs (S depth) fs libname dirname skip_apps
    = Ok r.
Proof.
  induction depth as [|depth IH]; intros dirname skip_apps r H; [discriminate H|].
  rewrite walk_S in H. rewrite walk_S.
  destruct (isdir fs dirname); [|discriminate H]. cbn [assert bind] in H |- *.
  destruct (excluded libname dirname skip_apps); [exact H|].
  apply bind_Ok in H. destruct H as [st [H1 H2]].
  rewrite (for_each_mono _ _ _
             (fun a x a' =>
                visit_entry_mono skip_apps _ _ dirname a x a'
                  (fun d r' => IH d skip_apps r'))
             _ _ H1).
  exact H2.
Qed.

Lemma walk_deeper_plus (depth extra : nat) (dirname : str) (skip_apps : bool)
    (r : walked skip_apps) :
  get_all_cc_and_hh_files_in_dir_and_subdirs depth fs libname dirname skip_apps
  = Ok r ->
  get_all_cc_and_hh_files_in_dir_and_subdirs (extra + depth) fs libname dirname
    skip_apps
  = Ok r.
Proof.
  intros H. induction extra as [|extra IH]; [exact H|].
  apply walk_deeper. exact IH.
Qed.


End Walker.

Section WalkerExamples.


(** The walk of the library: neither [core_apps/app.cc] nor
    [hardcore_apps/tool.cc] is listed, and [Foo.cc], which declares an API,
    yields the three paths of its counterpart. *)
Example walk_library_tree :
  get_all_cc_and_hh_files_in_dir_and_subdirs 3 tree_fs (py "core")
    (py "../src/core") true
  = Ok ([py "../src/core/a/Foo.cc"; py "../src/core/a/Foo.hh";
         py "../src/core/a/Bar.cc"],
        [py "../src/core_api/auto_generated_api/a/Foo_API.cc";
         py "../src/core_api/auto_generated_api/a/Foo_API.hh";
         py "../src/core_api/auto_generated_api/a/Foo_API.fwd.hh"]).
Proof. reflexivity. Qed.

(** The walk of the API directory leaves [auto_generated_api] out. *)
Example walk_api_tree :
  get_all_cc_and_hh_files_in_dir_and_subdirs 3 tree_fs (py "core_api")
    (py "../src/core_api") false
  = Ok [py "../src/core_api/extra.cc"].
Proof. reflexivity. Qed.

(** A tree nested deeper than the bound ends the walk. *)
Example walk_too_deep :
  get_all_cc_and_hh_files_in_dir_and_subdirs 1 tree_fs (py "core")
    (py "../src/core") true
  = Raise RecursionError.
Proof. reflexivity. Qed.

End WalkerExamples.

(* ================================================================== *)
(** * Properties of the run *)
(* ================================================================== *)

Section Run.

(** A walk that returns was given a directory. *)
Lemma walk_Ok_isdir (depth : nat) (fs : filesystem) (libname dirname : str)
    (skip_apps : bool) (r : walked skip_apps) :
  get_all_cc_and_hh_files_in_dir_and_subdirs depth fs libname dirname skip_apps
  = Ok r ->
  isdir fs dirname = true.
Proof.
  destruct depth; [discriminate|]. rewrite walk_S.
  destruct (isdir fs dirname); [reflexivity | discriminate].
Qed.

Lemma main_argc (depth : nat) (fs : filesystem) (argv : list str) :
  length argv <> 6 -> main depth fs argv = Raise AssertionError.
Proof.
  intros H. unfold main.
  replace (length argv =? 6) with false by (symmetry; apply Nat.eqb_neq; exact H).
  reflexivity.
Qed.

(** What [collect] did when it returned. *)
Lemma collect_Ok (depth : nat) (fs : filesystem) (lib_name source_dir : str)
    (output_file_tests : option str) (l : lists) :
  collect depth fs lib_name source_dir output_file_tests = Ok l ->
  exists r r_api,
    get_all_cc_and_hh_files_in_dir_and_subdirs depth fs lib_name source_dir true
    = Ok r
    /\ get_all_cc_and_hh_files_in_dir_and_subdirs depth fs
         (lib_name ++ py "_api") (source_dir ++ py "_api") false
       = Ok r_api
    /\ cclist l = fst r
    /\ api_cclist l = snd r ++ r_api
    /\ (output_file_tests = None -> testslist l = []).
Proof.
  unfold collect. intros H.
  apply bind_Ok in H. destruct H as [r [Hr H]].
  apply bind_Ok in H. destruct H as [r_api [Hapi H]].
  apply bind_Ok in H. destruct H as [deps [_ H]].
  apply bind_Ok in H. destruct H as [apps [_ H]].
  apply bind_Ok in H. destruct H as [tests [Ht H]].
  injection H as <-. exists r, r_api. cbn [cclist api_cclist testslist].
  repeat split; try assumption.
  intros ->. injection Ht as <-. reflexivity.
Qed.

Lemma collect_needs_api_dir (depth : nat) (fs : filesystem)
    (lib_name source_dir : str) (output_file_tests : option str) :
  isdir fs (source_dir ++ py "_api") = false ->
  exists e, collect depth fs lib_name source_dir output_file_tests = Raise e.
Proof.
  intros Hd. unfold collect.
  destruct (get_all_cc_and_hh_files_in_dir_and_subdirs depth fs lib_name
              source_dir true) as [r | e]; [|exists e; reflexivity].
  cbn [bind].
  destruct (walk_missing_raises fs (lib_name ++ py "_api") depth
              (source_dir ++ py "_api") false Hd) as [e He].
  rewrite He. exists e. reflexivity.
Qed.

(** The assertion before the test descriptor is written never fails. *)
Lemma write_tests_after_collect (depth : nat) (fs : filesystem)
    (lib_name source_dir : str) (output_file_tests : option str) (l : lists) :
  collect depth fs lib_name source_dir output_file_tests = Ok l ->
  (testslist l = [] /\ write_tests output_file_tests lib_name l = Ok [])
  \/ (exists f, output_file_tests = Some f /\ testslist l <> []
                /\ write_tests output_file_tests lib_name l
                   = Ok [(f, tests_descriptor lib_name l)]).
Proof.
  intros H. destruct (collect_Ok _ _ _ _ _ _ H) as [_ [_ [_ [_ [_ [_ Hnone]]]]]].
  unfold write_tests. destruct (testslist l) as [|t ts] eqn:Et.
  - left. split; reflexivity.
  - right. destruct output_file_tests as [f|].
    + exists f. repeat split. discriminate.
    + discriminate (Hnone eq_refl).
Qed.

End Run.

Section RunProperties.

Lemma main_Ok (depth : nat) (fs : filesystem) (argv : list str)
    (ws : list written) :
  main depth fs argv = Ok ws ->
  length argv = 6
  /\ exists l w_tests,
       collect depth fs (nth 1 argv []) (nth 2 argv []) (or_none (nth 5 argv []))
       = Ok l
       /\ write_tests (or_none (nth 5 argv [])) (nth 1 argv []) l = Ok w_tests
       /\ ws = write_library (nth 3 argv []) (nth 1 argv []) l
               ++ write_api (or_none (nth 4 argv [])) (nth 1 argv []) l
               ++ w_tests.
Proof.
  unfold main. intros H.
  destruct (Nat.eqb_spec (length argv) 6) as [Hlen | Hlen]; [|discriminate H].
  split; [exact Hlen|]. cbn [assert bind] in H. cbv zeta in H.
  apply bind_Ok in H. destruct H as [l [Hl H]].
  apply bind_Ok in H. destruct H as [w_tests [Hw H]].
  injection H as <-. exists l, w_tests. repeat split; assumption.
Qed.

Lemma main_needs_source_dir (depth : nat) (fs : filesystem) (argv : list str) :
  isdir fs (nth 2 argv []) = false -> exists e, main depth fs argv = Raise e.
Proof.
  intros Hd. unfold main. destruct (length argv =? 6); cbn [assert bind];
    [|exists AssertionError; reflexivity].
  cbv zeta. unfold collect.
  destruct (walk_missing_raises fs (nth 1 argv []) depth (nth 2 argv []) true Hd)
    as [e He].
  rewrite He. exists e. reflexivity.
Qed.

(** C8.  The mapper raises exactly when the path has at most three segments
    or its last segment does not hold exactly one dot, and raises nothing
    but the failed assertion; a run with an argument vector of another
    length than six (the script's name and five values) raises; the walk of
    a path that is not a directory raises, and so does the run whose source
    directory is none.  Nothing catches what is raised. *)
Theorem precondition_violations_abort :
  (forall fname,
     (apiname_from_filename fname = Raise AssertionError
      <-> length (split_on SLASH fname) <= 3
          \/ count DOT (last (split_on SLASH fname) []) <> 1)
     /\ ((exists newname, apiname_from_filename fname = Ok newname)
         \/ apiname_from_filename fname = Raise AssertionError))
  /\ (forall depth fs argv,
        length argv <> 6 -> main depth fs argv = Raise AssertionError)
  /\ (forall depth fs libname dirname skip_apps,
        isdir fs dirname = false ->
        get_all_cc_and_hh_files_in_dir_and_subdirs
          (S depth) fs libname dirname skip_apps
        = Raise AssertionError)
  /\ (forall depth fs argv,
        isdir fs (nth 2 argv []) = false ->
        exists e, main depth fs argv = Raise e).
Proof.
  split; [exact apiname_aborts_iff|].
  split; [exact main_argc|].
  split; [|exact main_needs_source_dir].
  intros depth fs libname dirname skip_apps Hd. apply walk_missing. exact Hd.
Qed.

Lemma precondition_violations_abort_witness :
  main 3 tree_fs [py "generate_cmake_build.py"; py "core"; py "../src/core"]
  = Raise AssertionError
  /\ get_all_cc_and_hh_files_in_dir_and_subdirs 3 tree_fs (py "core")
       (py "../src/nowhere") true
     = Raise AssertionError.
Proof.
  split.
  - apply (proj1 (proj2 precondition_violations_abort)). simpl. lia.
  - apply (proj1 (proj2 (proj2 precondition_violations_abort))). reflexivity.
Defined.

(** C9, as the code has it.  The library descriptor file is opened for
    writing in every run that gets that far, also when no source file was
    collected: it then holds the application blocks and nothing else, and
    is empty when there are no applications either.  The API
    descriptor file is written exactly when the API list is not empty and
    its path was not suppressed; the test descriptor file exactly when the
    test list is not empty, which it can only be when its path was not
    suppressed.  A run that returns wrote these files, in this order. *)
Theorem descriptors_written :
  (forall output_file lib_name l,
     write_library output_file lib_name l
     = [(output_file, library_descriptor lib_name l)]
     /\ (cclist l = [] ->
         library_descriptor lib_name l
         = concat (map (app_block lib_name (depend_list l)) (appslist l)))
     /\ (cclist l = [] -> appslist l = [] -> library_descriptor lib_name l = []))
  /\ (forall output_file_api lib_name l,
        (write_api output_file_api lib_name l <> []
         <-> api_cclist l <> [] /\ output_file_api <> None)
        /\ (forall f, output_file_api = Some f -> api_cclist l <> [] ->
                      write_api output_file_api lib_name l
                      = [(f, api_descriptor lib_name l)]))
  /\ (forall depth fs lib_name source_dir output_file_tests l,
        collect depth fs lib_name source_dir output_file_tests = Ok l ->
        (testslist l = [] /\ write_tests output_file_tests lib_name l = Ok [])
        \/ (exists f, output_file_tests = Some f /\ testslist l <> []
                      /\ write_tests output_file_tests lib_name l
                         = Ok [(f, tests_descriptor lib_name l)]))
  /\ (forall depth fs argv ws,
        main depth fs argv = Ok ws ->
        exists l w_tests,
          collect depth fs (nth 1 argv []) (nth 2 argv []) (or_none (nth 5 argv []))
          = Ok l
          /\ write_tests (or_none (nth 5 argv [])) (nth 1 argv []) l = Ok w_tests
          /\ ws = (nth 3 argv [], library_descriptor (nth 1 argv []) l)
                  :: write_api (or_none (nth 4 argv [])) (nth 1 argv []) l
                  ++ w_tests).
Proof.
  split; [|split; [|split]].
  - intros output_file lib_name l. split; [reflexivity | split].
    + intros Hc. unfold library_descriptor. rewrite Hc.
      destruct (appslist l); reflexivity.
    + intros Hc Ha. unfold library_descriptor. rewrite Hc, Ha. reflexivity.
  - intros output_file_api lib_name l. unfold write_api. split.
    + destruct output_file_api as [f|]; destruct (api_cclist l) as [|x xs];
        cbn [length Nat.ltb Nat.leb]; split;
        try (intros H; exfalso; apply H; reflexivity);
        try (intros [H1 H2]; exfalso; (apply H1 || apply H2); reflexivity).
      * intros _. split; discriminate.
      * intros _. discriminate.
    + intros f -> Hne. destruct (api_cclist l); [contradiction | reflexivity].
  - exact write_tests_after_collect.
  - intros depth fs argv ws H. apply main_Ok in H.
    destruct H as [_ [l [w_tests [Hl [Hw ->]]]]].
    exists l, w_tests. repeat split; assumption.
Qed.

Lemma descriptors_written_witness :
  (exists l w_tests,
     collect 3 tree_fs (py "core") (py "../src/core") None = Ok l
     /\ write_tests None (py "core") l = Ok w_tests
     /\ main 3 tree_fs
          [py "generate_cmake_build.py"; py "core"; py "../src/core";
           py "core.cmake"; py "core_api.cmake"; py "NONE"]
        = Ok ((py "core.cmake", library_descriptor (py "core") l)
              :: write_api (Some (py "core_api.cmake")) (py "core") l ++ w_tests))
  /\ (exists l,
        collect 3 apps_only_fs (py "core") (py "src/core") None = Ok l
        /\ cclist l = []
        /\ appslist l = [py "src/core/core_apps/tool.cc"]
        /\ library_descriptor (py "core") l
           = app_block (py "core") [] (py "src/core/core_apps/tool.cc")).
Proof.
  split.
  - destruct (proj2 (proj2 (proj2 descriptors_written)) 3 tree_fs
                [py "generate_cmake_build.py"; py "core"; py "../src/core";
                 py "core.cmake"; py "core_api.cmake"; py "NONE"]
                _ eq_refl) as [l [w_tests [Hl [Hw Hws]]]].
    exists l, w_tests. split; [exact Hl | split; [exact Hw|]].
    exact (f_equal Ok Hws).
  - exists {| cclist := []; api_cclist := []; depend_list := [];
              appslist := [py "src/core/core_apps/tool.cc"]; testslist := [] |}.
    split; [reflexivity|]. split; [reflexivity|]. split; [reflexivity|].
    rewrite (proj1 (proj2 (proj1 descriptors_written (py "core.cmake") (py "core")
                             {| cclist := []; api_cclist := []; depend_list := [];
                                appslist := [py "src/core/core_apps/tool.cc"];
                                testslist := [] |}))
               eq_refl).
    cbn [appslist depend_list map concat]. apply app_nil_r.
Defined.

(** C9 as stated fails for the library descriptor: no source file is
    collected here, and the file [core.cmake] is written all the same,
    empty. *)
Lemma library_descriptor_written_when_empty :
  (exists l, collect 3 empty_fs (py "core") (py "src/core") None = Ok l
             /\ cclist l = [])
  /\ main 3 empty_fs
       [py "generate_cmake_build.py"; py "core"; py "src/core";
        py "core.cmake"; py "NONE"; py "NONE"]
     = Ok [(py "core.cmake", [])].
Proof.
  split; [eexists; split; reflexivity | reflexivity].
Qed.

(** C10.  The run walks [<source dir>_api], with the library name
    [<library>_api] and the flag unset, whatever the first walk found and
    whatever the fourth argument says, and appends what it finds to the API
    list.  A run in which that path is not a directory therefore raises: the
    failed assertion, when the first walk returned.  A run whose walks
    return does return, with the API list so extended. *)
Theorem api_directory_always_walked (depth : nat) (fs : filesystem)
    (argv : list str) :
  (isdir fs (nth 2 argv [] ++ py "_api") = false ->
   exists e, main depth fs argv = Raise e)
  /\ (isdir fs (nth 2 argv [] ++ py "_api") = false ->
      length argv = 6 ->
      forall r,
        get_all_cc_and_hh_files_in_dir_and_subdirs depth fs
          (nth 1 argv []) (nth 2 argv []) true = Ok r ->
        main depth fs argv = Raise AssertionError)
  /\ (forall ws,
        main depth fs argv = Ok ws ->
        exists l r r_api,
          collect depth fs (nth 1 argv []) (nth 2 argv []) (or_none (nth 5 argv []))
          = Ok l
          /\ get_all_cc_and_hh_files_in_dir_and_subdirs depth fs
               (nth 1 argv []) (nth 2 argv []) true = Ok r
          /\ get_all_cc_and_hh_files_in_dir_and_subdirs depth fs
               (nth 1 argv [] ++ py "_api") (nth 2 argv [] ++ py "_api") false
             = Ok r_api
          /\ api_cclist l = snd r ++ r_api)
  /\ (forall r r_api apps tests,
        length argv = 6 ->
        get_all_cc_and_hh_files_in_dir_and_subdirs depth fs
          (nth 1 argv []) (nth 2 argv []) true = Ok r ->
        get_all_cc_and_hh_files_in_dir_and_subdirs depth fs
          (nth 1 argv [] ++ py "_api") (nth 2 argv [] ++ py "_api") false
        = Ok r_api ->
        (isdir fs (nth 2 argv [] ++ py "/" ++ nth 1 argv [] ++ py "_apps") = false
         /\ apps = []
         \/ isdir fs (nth 2 argv [] ++ py "/" ++ nth 1 argv [] ++ py "_apps") = true
            /\ get_all_cc_and_hh_files_in_dir_and_subdirs depth fs (nth 1 argv [])
                 (nth 2 argv [] ++ py "/" ++ nth 1 argv [] ++ py "_apps") false
               = Ok apps) ->
        (nth 5 argv [] = py "NONE" /\ tests = []
         \/ nth 5 argv [] <> py "NONE"
            /\ get_all_cc_and_hh_files_in_dir_and_subdirs depth fs
                 (nth 1 argv [] ++ py "_tests") (py "../tests/unit/" ++ nth 1 argv [])
                 false
               = Ok tests) ->
        exists deps ws,
          get_library_dependencies fs (nth 2 argv []) = Ok deps
          /\ collect depth fs (nth 1 argv []) (nth 2 argv [])
               (or_none (nth 5 argv []))
             = Ok {| cclist := fst r; api_cclist := snd r ++ r_api;
                     depend_list := deps; appslist := apps; testslist := tests |}
          /\ main depth fs argv = Ok ws).
Proof.
  split; [|split; [|split]].
  4:{ intros r r_api apps tests Hlen Hr Hapi Happs Htests.
      pose proof (walk_Ok_isdir _ _ _ _ _ _ Hr) as Hd.
      destruct (get_library_dependencies_returns fs (nth 2 argv [])) as [Hdeps _].
      destruct (Hdeps Hd) as [deps Hdl].
      assert (Hc : collect depth fs (nth 1 argv []) (nth 2 argv [])
                     (or_none (nth 5 argv []))
                   = Ok {| cclist := fst r; api_cclist := snd r ++ r_api;
                           depend_list := deps; appslist := apps;
                           testslist := tests |}).
      { unfold collect. rewrite Hr. cbn [bind]. cbv zeta. rewrite Hapi. cbn [bind].
        rewrite Hdl. cbn [bind].
        destruct Happs as [[Ha ->] | [Ha Hw]]; rewrite Ha; [|rewrite Hw]; cbn [bind];
          (destruct Htests as [[Ht ->] | [Ht Hw']];
           [ rewrite Ht; reflexivity
           | unfold or_none;
             destruct (str_eqb (nth 5 argv []) (py "NONE")) eqn:E;
             [ apply str_eqb_eq in E; contradiction
             | rewrite (walk_Ok_isdir _ _ _ _ _ _ Hw'); cbn [assert bind];
               rewrite Hw'; reflexivity ] ]). }
      exists deps. unfold main. rewrite Hlen. cbn [Nat.eqb assert bind]. cbv zeta.
      rewrite Hc. cbn [bind].
      destruct (write_tests_after_collect _ _ _ _ _ _ Hc) as [[_ Hw] | [f [_ [_ Hw]]]];
        rewrite Hw; cbn [bind]; eexists; (split; [exact Hdl | split; reflexivity]). }
  - intros Hd. unfold main. destruct (length argv =? 6); cbn [assert bind];
      [|exists AssertionError; reflexivity].
    cbv zeta.
    destruct (collect_needs_api_dir depth fs (nth 1 argv []) (nth 2 argv [])
                (or_none (nth 5 argv [])) Hd) as [e He].
    rewrite He. exists e. reflexivity.
  - intros Hd Hlen r Hr. unfold main. rewrite Hlen. cbn [Nat.eqb assert bind].
    cbv zeta. unfold collect. rewrite Hr. cbn [bind].
    destruct depth as [|depth']; [discriminate Hr|].
    rewrite (walk_missing fs _ depth' _ false Hd). reflexivity.
  - intros ws H. apply main_Ok in H.
    destruct H as [_ [l [w_tests [Hl _]]]].
    destruct (collect_Ok _ _ _ _ _ _ Hl) as [r [r_api [Hr [Hapi [_ [Happ _]]]]]].
    exists l, r, r_api. repeat split; assumption.
Qed.

Lemma api_directory_always_walked_witness :
  (get_all_cc_and_hh_files_in_dir_and_subdirs 3 no_api_dir_fs (py "core")
     (py "src/core") true
   = Ok ([py "src/core/a.cc"], [])
   /\ main 3 no_api_dir_fs
        [py "generate_cmake_build.py"; py "core"; py "src/core";
         py "core.cmake"; py "NONE"; py "NONE"]
      = Raise AssertionError)
  /\ (exists deps ws,
        get_library_dependencies tree_fs (py "../src/core") = Ok deps
        /\ collect 3 tree_fs (py "core") (py "../src/core") None
           = Ok {| cclist := [py "../src/core/a/Foo.cc"; py "../src/core/a/Foo.hh";
                              py "../src/core/a/Bar.cc"];
                   api_cclist :=
                     [py "../src/core_api/auto_generated_api/a/Foo_API.cc";
                      py "../src/core_api/auto_generated_api/a/Foo_API.hh";
                      py "../src/core_api/auto_generated_api/a/Foo_API.fwd.hh";
                      py "../src/core_api/extra.cc"];
                   depend_list := deps;
                   appslist := [py "../src/core/core_apps/app.cc"];
                   testslist := [] |}
        /\ main 3 tree_fs
             [py "generate_cmake_build.py"; py "core"; py "../src/core";
              py "core.cmake"; py "NONE"; py "NONE"]
           = Ok ws).
Proof.
  split.
  - split; [reflexivity|].
    apply (proj1 (proj2 (api_directory_always_walked 3 no_api_dir_fs
                           [py "generate_cmake_build.py"; py "core"; py "src/core";
                            py "core.cmake"; py "NONE"; py "NONE"])))
      with (r := ([py "src/core/a.cc"], [])); reflexivity.
  - apply (proj2 (proj2 (proj2 (api_directory_always_walked 3 tree_fs
                           [py "generate_cmake_build.py"; py "core"; py "../src/core";
                            py "core.cmake"; py "NONE"; py "NONE"])))
             ([py "../src/core/a/Foo.cc"; py "../src/core/a/Foo.hh";
               py "../src/core/a/Bar.cc"],
              [py "../src/core_api/auto_generated_api/a/Foo_API.cc";
               py "../src/core_api/auto_generated_api/a/Foo_API.hh";
               py "../src/core_api/auto_generated_api/a/Foo_API.fwd.hh"])
             [py "../src/core_api/extra.cc"]
             [py "../src/core/core_apps/app.cc"]
             []).
    + reflexivity.
    + reflexivity.
    + reflexivity.
    + right. split; reflexivity.
    + left. split; reflexivity.
Defined.

End RunProperties.

(* ================================================================== *)
(** * More about the comment stripper *)
(* ================================================================== *)

Section StripperShapes.

(** While it records, the scanner does not look at the character before. *)
Lemma scan_true_prev (p1 p2 : option char) (s : str) :
  scan true p1 s = scan true p2 s.
Proof. destruct s as [|c [|d rest]]; reflexivity. Qed.

(** A stretch without ["/*"], followed by a character that is no star, is
    kept as it is. *)
Lemma scan_keep_prefix (pre : str) (c : char) (s : str) (prev : option char) :
  has_pair SLASH STAR pre = false -> c <> STAR ->
  scan true prev (pre ++ c :: s)
  = (fst (scan true None (c :: s)), pre ++ snd (scan true None (c :: s))).
Proof.
  intros Hpre Hc. apply N.eqb_neq in Hc.
  revert prev; induction pre as [|x pre IH]; intros prev.
  - change ([] ++ c :: s) with (c :: s). rewrite (scan_true_prev prev None).
    apply surjective_pairing.
  - assert (Hpre' : has_pair SLASH STAR pre = false).
    { rewrite has_pair_cons in Hpre. destruct pre; [reflexivity|].
      apply orb_false_iff in Hpre. apply Hpre. }
    change ((x :: pre) ++ c :: s) with (x :: (pre ++ c :: s)).
    specialize (IH Hpre' (Some x)).
    cbn [scan]. destruct (pre ++ c :: s) as [|d rest] eqn:E.
    + destruct pre; discriminate E.
    + assert ((x =? SLASH)%N && (d =? STAR)%N = false) as ->.
      { destruct pre as [|y pre0].
        - injection E as <- _. rewrite Hc. apply andb_false_r.
        - injection E as <- _. rewrite has_pair_cons in Hpre.
          apply orb_false_iff in Hpre. apply Hpre. }
      rewrite IH. reflexivity.
Qed.

(** Inside a block comment, a stretch without the closer is dropped. *)
Lemma scan_skip (w : str) (p : char) (s : str) :
  has_pair STAR SLASH (p :: w) = false ->
  scan false (Some p) (w ++ s) = scan false (Some (last (p :: w) 0%N)) s.
Proof.
  revert p; induction w as [|c w IH]; intros p H.
  - reflexivity.
  - rewrite has_pair_cons in H. apply orb_false_iff in H. destruct H as [H1 H2].
    change ((c :: w) ++ s) with (c :: (w ++ s)). cbn [scan].
    rewrite H1, (IH c H2). reflexivity.
Qed.

Lemma scan_close (q : char) (post : str) :
  scan false (Some q) (STAR :: SLASH :: post) = scan true (Some SLASH) post.
Proof.
  cbn [scan]. change (STAR =? SLASH)%N with false. rewrite andb_false_r.
  reflexivity.
Qed.

Lemma line_pass_closed (T : str) :
  contains T (py "//") = false -> unix_lines T = true ->
  line_pass T = T ++ closed T.
Proof.
  intros Hss Hlf. change (py "//") with [SLASH; SLASH] in Hss.
  rewrite contains_pair in Hss. apply unix_lines_only_LF in Hlf.
  rewrite (line_pass_plain T Hss Hlf). unfold closed.
  destruct (terminatedb T); [rewrite app_nil_r|]; reflexivity.
Qed.

Lemma has_pair_closed (a b : char) (s T : str) :
  LF <> a -> LF <> b ->
  has_pair a b (s ++ closed T) = has_pair a b s.
Proof.
  intros Ha Hb. unfold closed. destruct (terminatedb T).
  - rewrite app_nil_r. reflexivity.
  - unfold nl. rewrite (has_pair_split a b LF s [] Ha Hb). apply orb_false_r.
Qed.

End StripperShapes.

Section StripperExtras.

Lemma forallb_no_break (s : str) :
  forallb (fun c => negb (is_linebreak c)) s = true <-> no_break s.
Proof.
  unfold no_break. rewrite forallb_forall, Forall_forall.
  split; intros H c Hc; specialize (H c Hc).
  - apply negb_true_iff in H. exact H.
  - rewrite H. reflexivity.
Qed.

(** X1.  Whatever the text, what the stripper returns holds neither ["//"]
    nor ["/*"], and no line boundary but the line feed. *)
Theorem purge_comments_output_shape (T : str) :
  contains (purge_comments T) (py "//") = false
  /\ contains (purge_comments T) (py "/*") = false
  /\ unix_lines (purge_comments T) = true.
Proof.
  destruct (purge_comments_clean T) as [H1 [H2 H3]].
  change (py "//") with [SLASH; SLASH]. change (py "/*") with [SLASH; STAR].
  rewrite !contains_pair. split; [exact H1 | split; [exact H2|]].
  apply unix_lines_only_LF. exact H3.
Qed.

(** X2.  Stripping settles after two passes: a third pass changes nothing,
    whatever the text (a second pass may still add a line feed). *)
Theorem purge_comments_settles (T : str) :
  purge_comments (purge_comments (purge_comments T))
  = purge_comments (purge_comments T).
Proof.
  apply purge_comments_idempotent_iff. rewrite purge_comments_twice.
  destruct (terminatedb (purge_comments T)) eqn:E; [exact E|].
  unfold nl. apply terminatedb_snoc.
Qed.

(** One closed block comment in a text without ["//"]. *)
Lemma purge_comments_one_block (pre body post : str) :
  let T := pre ++ py "/*" ++ body ++ py "*/" ++ post in
  contains T (py "//") = false ->
  contains pre (py "/*") = false ->
  contains (STAR :: body) (py "*/") = false ->
  contains post (py "/*") = false ->
  unix_lines T = true ->
  purge_comments T = pre ++ post ++ closed T.
Proof.
  intros T Hss Hpre Hbody Hpost Hlf.
  change (py "/*") with [SLASH; STAR] in Hpre, Hpost.
  change (py "*/") with [STAR; SLASH] in Hbody.
  rewrite contains_pair in Hpre, Hbody, Hpost.
  rewrite purge_comments_scan, (line_pass_closed T Hss Hlf).
  assert (T ++ closed T
          = pre ++ SLASH :: (STAR :: body) ++ STAR :: SLASH :: (post ++ closed T))
    as ->.
  { unfold T. rewrite <- !app_assoc. reflexivity. }
  rewrite scan_keep_prefix by (exact Hpre || discriminate).
  change (scan true None (SLASH :: (STAR :: body) ++ STAR :: SLASH :: (post ++ closed T)))
    with (scan false (Some SLASH) ((STAR :: body) ++ STAR :: SLASH :: (post ++ closed T))).
  rewrite scan_skip by exact Hbody.
  rewrite scan_close, scan_no_open.
  - reflexivity.
  - rewrite has_pair_closed by discriminate. exact Hpost.
Qed.

(** X3.  A block comment that is closed goes without leaving anything in its
    place: in a text [pre /* body */ post] without ["//"], where [pre] and
    [post] hold no opener and the closer does not come earlier, what stood
    before and after the comment is joined. *)
Theorem purge_comments_block (pre body post : str) :
  let T := pre ++ py "/*" ++ body ++ py "*/" ++ post in
  contains T (py "//") = false ->
  contains pre (py "/*") = false ->
  contains (STAR :: body) (py "*/") = false ->
  contains post (py "/*") = false ->
  unix_lines T = true ->
  purge_comments T = pre ++ post ++ closed T.
Proof. exact (purge_comments_one_block pre body post). Qed.

Lemma purge_comments_block_witness :
  purge_comments (py "int a; /* old */ int b;" ++ nl) = py "int a;  int b;" ++ nl.
Proof.
  apply (purge_comments_block (py "int a; ") (py " old ") (py " int b;" ++ nl));
    reflexivity.
Defined.

(** X4.  The closer is looked for from the star of the opener on: ["/*/"] is
    a whole comment for the stripper. *)
Theorem purge_comments_slash_star_slash (pre post : str) :
  let T := pre ++ py "/*/" ++ post in
  contains T (py "//") = false ->
  contains pre (py "/*") = false ->
  contains post (py "/*") = false ->
  unix_lines T = true ->
  purge_comments T = pre ++ post ++ closed T.
Proof.
  intros T Hss Hpre Hpost Hlf.
  change (py "/*") with [SLASH; STAR] in Hpre, Hpost.
  rewrite contains_pair in Hpre, Hpost.
  rewrite purge_comments_scan, (line_pass_closed T Hss Hlf).
  assert (T ++ closed T = pre ++ SLASH :: STAR :: SLASH :: (post ++ closed T)) as ->.
  { unfold T. rewrite <- !app_assoc. reflexivity. }
  rewrite scan_keep_prefix by (exact Hpre || discriminate).
  change (scan true None (SLASH :: STAR :: SLASH :: (post ++ closed T)))
    with (scan false (Some SLASH) (STAR :: SLASH :: (post ++ closed T))).
  rewrite scan_close, scan_no_open.
  - reflexivity.
  - rewrite has_pair_closed by discriminate. exact Hpost.
Qed.

Lemma purge_comments_slash_star_slash_witness :
  purge_comments (py "a /*/ b" ++ nl) = py "a  b" ++ nl.
Proof.
  apply (purge_comments_slash_star_slash (py "a ") (py " b" ++ nl)); reflexivity.
Defined.

(** X5.  A block comment that is never closed takes the rest of the text
    with it, the final line feed included, and the loop ends without
    recording. *)
Theorem purge_comments_unterminated (pre rest : str) :
  let T := pre ++ py "/*" ++ rest in
  contains T (py "//") = false ->
  contains pre (py "/*") = false ->
  contains (STAR :: rest) (py "*/") = false ->
  unix_lines T = true ->
  purge_comments T = pre /\ ends_recording T = false.
Proof.
  intros T Hss Hpre Hrest Hlf.
  change (py "/*") with [SLASH; STAR] in Hpre.
  change (py "*/") with [STAR; SLASH] in Hrest.
  rewrite contains_pair in Hpre, Hrest.
  unfold ends_recording.
  rewrite purge_comments_scan, block_pass_scan, (line_pass_closed T Hss Hlf).
  assert (T ++ closed T = pre ++ SLASH :: ((STAR :: rest) ++ closed T) ++ []) as ->.
  { unfold T. rewrite <- !app_assoc, app_nil_r. reflexivity. }
  rewrite scan_keep_prefix by (exact Hpre || discriminate).
  change (scan true None (SLASH :: ((STAR :: rest) ++ closed T) ++ []))
    with (scan false (Some SLASH) (((STAR :: rest) ++ closed T) ++ [])).
  rewrite scan_skip.
  - cbn [scan fst snd]. rewrite app_nil_r. split; reflexivity.
  - rewrite has_pair_cons.
    change ((STAR :: rest) ++ closed T) with (STAR :: (rest ++ closed T)).
    change (SLASH =? STAR)%N with false. cbn [andb orb].
    change (STAR :: (rest ++ closed T)) with ((STAR :: rest) ++ closed T).
    rewrite has_pair_closed by discriminate. exact Hrest.
Qed.

Lemma purge_comments_unterminated_witness :
  purge_comments (py "int a; /* never closed" ++ nl ++ py "int b;" ++ nl)
  = py "int a; "
  /\ ends_recording (py "int a; /* never closed" ++ nl ++ py "int b;" ++ nl) = false.
Proof.
  apply (purge_comments_unterminated (py "int a; ")
           (py " never closed" ++ nl ++ py "int b;" ++ nl)); reflexivity.
Defined.

Lemma splitlines_aux_line (s cur rest : str) :
  no_break s ->
  splitlines_aux cur (s ++ LF :: rest) = (cur ++ s) :: splitlines_aux [] rest.
Proof.
  revert cur; induction s as [|c s IH]; intros cur H.
  - simpl app. rewrite app_nil_r. cbn [splitlines_aux].
    change (is_linebreak LF) with true. change (LF =? CR)%N with false.
    destruct rest; reflexivity.
  - inversion H as [|? ? Hc Hs]; subst.
    change ((c :: s) ++ LF :: rest) with (c :: (s ++ LF :: rest)).
    cbn [splitlines_aux]. rewrite Hc, (IH _ Hs), <- app_assoc. reflexivity.
Qed.

(** [find] on a line whose first ["//"] comes right after [code]. *)
Lemma find_first_slashes (code x : str) (k : nat) :
  has_pair SLASH SLASH (code ++ [SLASH]) = false ->
  find_from k (code ++ SLASH :: SLASH :: x) [SLASH; SLASH]
  = Z.of_nat (k + length code).
Proof.
  revert k; induction code as [|c code IH]; intros k H.
  - simpl. rewrite Nat.add_0_r. reflexivity.
  - change ((c :: code) ++ [SLASH]) with (c :: (code ++ [SLASH])) in H.
    rewrite has_pair_cons in H.
    change ((c :: code) ++ SLASH :: SLASH :: x)
      with (c :: (code ++ SLASH :: SLASH :: x)).
    cbn [find_from].
    assert (startswith (c :: (code ++ SLASH :: SLASH :: x)) [SLASH; SLASH] = false)
      as ->.
    { destruct code as [|d code']; cbn [app] in H |- *; cbn [startswith];
        apply orb_false_iff in H; destruct H as [H _].
      - rewrite (N.eqb_sym SLASH c). change (SLASH =? SLASH)%N with true in H |- *.
        cbn [andb]. rewrite andb_true_r in H |- *. exact H.
      - rewrite andb_true_r, (N.eqb_sym SLASH c), (N.eqb_sym SLASH d). exact H. }
    assert (H' : has_pair SLASH SLASH (code ++ [SLASH]) = false).
    { destruct (code ++ [SLASH]) eqn:E; [destruct code; discriminate E|].
      apply orb_false_iff in H. apply H. }
    rewrite (IH (S k) H'). f_equal. simpl. lia.
Qed.

Lemma cut_line_comment (code comment : str) :
  has_pair SLASH SLASH (code ++ [SLASH]) = false ->
  cut (code ++ py "//" ++ comment) = code.
Proof.
  intros H. unfold cut, find. cbv zeta.
  change (py "//") with [SLASH; SLASH].
  change (code ++ [SLASH; SLASH] ++ comment) with (code ++ SLASH :: SLASH :: comment).
  rewrite (find_first_slashes code comment 0 H). simpl (0 + _).
  destruct (Z.eqb_spec (Z.of_nat (length code)) (-1)) as [E | _]; [lia|].
  rewrite Nat2Z.id. unfold slice. rewrite Nat.sub_0_r. simpl skipn.
  apply firstn_length_app.
Qed.

(** X6.  A line comment goes up to the end of its line, the line feed stays,
    and the lines after it are stripped as if they stood alone: for [code]
    without ["//"] and ["/*"] that does not end in a slash,
    [code // comment \n rest] gives [code \n] and then [rest] stripped. *)
Theorem purge_comments_line_comment (code comment rest : str) :
  contains (code ++ [SLASH]) (py "//") = false ->
  contains code (py "/*") = false ->
  forallb (fun c => negb (is_linebreak c)) code = true ->
  forallb (fun c => negb (is_linebreak c)) comment = true ->
  purge_comments (code ++ py "//" ++ comment ++ LF :: rest)
  = code ++ LF :: purge_comments rest.
Proof.
  intros Hss Hst Hcode Hcomment.
  change (py "//") with [SLASH; SLASH] in Hss.
  change (py "/*") with [SLASH; STAR] in Hst.
  rewrite contains_pair in Hss, Hst.
  apply forallb_no_break in Hcode, Hcomment.
  assert (Hline : line_pass (code ++ py "//" ++ comment ++ LF :: rest)
                  = code ++ LF :: line_pass rest).
  { rewrite !line_pass_unlines. unfold splitlines.
    replace (code ++ py "//" ++ comment ++ LF :: rest)
      with ((code ++ py "//" ++ comment) ++ LF :: rest)
      by (rewrite <- !app_assoc; reflexivity).
    rewrite splitlines_aux_line.
    - cbn [map app]. rewrite unlines_cons, (cut_line_comment code comment Hss).
      reflexivity.
    - apply Forall_app. split; [exact Hcode|].
      apply Forall_app. split; [|exact Hcomment].
      repeat constructor. }
  rewrite !purge_comments_scan, Hline.
  rewrite scan_keep_prefix by (exact Hst || discriminate).
  rewrite (scan_true_head LF (line_pass rest) None eq_refl).
  rewrite (scan_true_prev (Some LF) None). reflexivity.
Qed.

Lemma purge_comments_line_comment_witness :
  purge_comments (py "int a; // was b" ++ nl ++ py "int c;")
  = py "int a; " ++ nl ++ purge_comments (py "int c;").
Proof.
  apply (purge_comments_line_comment (py "int a; ") (py " was b") (py "int c;"));
    reflexivity.
Defined.

End StripperExtras.

(* ================================================================== *)
(** * More about the API declaration detector *)
(* ================================================================== *)

Section DetectorExtras.

(** A word without the separating character, found in a joined text, lies
    in one of the joined pieces. *)
Lemma Substring_join_inv (w : str) (c : char) (tokens : list str) :
  w <> [] -> ~ In c w ->
  Substring w (join [c] tokens) -> exists t, In t tokens /\ Substring w t.
Proof.
  intros Hw Hc. induction tokens as [|x rest IH]; intros H.
  - exfalso. destruct H as [pre [post H]]. destruct pre; [|discriminate].
    destruct w; [contradiction | discriminate].
  - cbn [join] in H. destruct rest as [|y rest'].
    + exists x. split; [left; reflexivity | exact H].
    + change (x ++ [c] ++ join [c] (y :: rest'))
        with (x ++ c :: join [c] (y :: rest')) in H.
      destruct (Substring_split_char w x _ c Hc H) as [Hx | Hr].
      * exists x. split; [left; reflexivity | exact Hx].
      * destruct (IH Hr) as [t [Hin Ht]]. exists t. split; [right; exact Hin | exact Ht].
Qed.

Lemma Substring_unlines_inv (w : str) (ls : list str) :
  w <> [] -> ~ In LF w ->
  Substring w (unlines ls) -> exists l, In l ls /\ Substring w l.
Proof.
  intros Hw Hc. induction ls as [|x rest IH]; intros H.
  - exfalso. destruct H as [pre [post H]]. destruct pre; [|discriminate].
    destruct w; [contradiction | discriminate].
  - rewrite unlines_cons in H.
    destruct (Substring_split_char w x _ LF Hc H) as [Hx | Hr].
    + exists x. split; [left; reflexivity | exact Hx].
    + destruct (IH Hr) as [t [Hin Ht]]. exists t. split; [right; exact Hin | exact Ht].
Qed.

Lemma Substring_trans (a b c : str) : Substring a b -> Substring b c -> Substring a c.
Proof.
  intros [p1 [q1 ->]] [p2 [q2 ->]]. exists (p2 ++ p1), (q1 ++ q2).
  rewrite <- !app_assoc. reflexivity.
Qed.

(** The words [split()] returns are pieces of the text. *)
Lemma split_ws_aux_pieces (s cur : str) :
  Forall (fun t => Substring t (cur ++ s)) (split_ws_aux cur s).
Proof.
  revert cur; induction s as [|c rest IH]; intros cur; cbn [split_ws_aux].
  - rewrite app_nil_r. destruct cur; constructor; auto with substr.
  - destruct (is_space c).
    + assert (Forall (fun t => Substring t (cur ++ c :: rest)) (split_ws_aux [] rest))
        as Hrest.
      { eapply Forall_impl; [|exact (IH [])]. simpl. intros t Ht.
        apply Substring_app_r. change (c :: rest) with ([c] ++ rest).
        apply Substring_app_r. exact Ht. }
      destruct cur as [|x cur']; [exact Hrest|].
      constructor; [auto with substr | exact Hrest].
    + specialize (IH (cur ++ [c])). rewrite <- app_assoc in IH. exact IH.
Qed.

(** Without ["/*"] in the text the second loop keeps everything: the
    stripped text is the lines, each cut at its first ["//"]. *)
Lemma purge_comments_no_block (T : str) :
  has_pair SLASH STAR T = false ->
  purge_comments T = unlines (map cut (splitlines T)).
Proof.
  intros H. rewrite purge_comments_scan, line_pass_unlines.
  rewrite scan_no_open; [reflexivity|].
  apply unlines_pairs; try discriminate.
  pose proof (splitlines_aux_pairs SLASH STAR T [] H) as Hl.
  fold (splitlines T) in Hl. rewrite Forall_forall in Hl |- *.
  intros l Hin. apply in_map_iff in Hin. destruct Hin as [l0 [<- Hin]].
  specialize (Hl l0 Hin). destruct (cut_prefix l0) as [r E].
  rewrite E in Hl. apply has_pair_app_false in Hl. apply Hl.
Qed.

(** X7.  In a file without block comments, occurrences that stand after a
    ["//"] on their line do not count: when in no line the text looked for
    occurs before the first ["//"], the detector returns false (for a base
    name without white space). *)
Theorem has_api_definition_line_commented (fs : filesystem)
    (filename concatname : str) :
  contains (read fs concatname) (py "/*") = false ->
  forallb (fun c => negb (is_space c)) (needle filename) = true ->
  forallb (fun line => negb (contains (cut line) (needle filename)))
    (splitlines (read fs concatname)) = true ->
  has_api_definition fs filename concatname = false.
Proof.
  intros Hst Hns Hlines.
  change (py "/*") with [SLASH; STAR] in Hst. rewrite contains_pair in Hst.
  rewrite has_api_definition_searches.
  destruct (contains (normalised (read fs concatname)) (needle filename)) eqn:E;
    [|apply andb_false_r].
  exfalso. apply contains_Substring in E. unfold normalised in E.
  assert (Hne : needle filename <> []).
  { unfold needle. intros H. apply app_eq_nil in H. destruct H as [_ H].
    discriminate H. }
  assert (Hsp : forall c, In c (needle filename) -> is_space c = false).
  { intros c Hc. rewrite forallb_forall in Hns. specialize (Hns c Hc).
    apply negb_true_iff in Hns. exact Hns. }
  change (py " ") with [32%N] in E.
  apply Substring_join_inv in E; [|exact Hne|].
  2:{ intros Hin. specialize (Hsp _ Hin). discriminate Hsp. }
  destruct E as [t [Hin Ht]].
  pose proof (split_ws_aux_pieces (purge_comments (read fs concatname)) []) as Hp.
  rewrite Forall_forall in Hp. specialize (Hp t Hin). simpl app in Hp.
  pose proof (Substring_trans _ _ _ Ht Hp) as Hsub.
  rewrite (purge_comments_no_block _ Hst) in Hsub.
  apply Substring_unlines_inv in Hsub; [|exact Hne|].
  2:{ intros Hin'. specialize (Hsp _ Hin'). discriminate Hsp. }
  destruct Hsub as [l [Hl Hw]]. apply in_map_iff in Hl.
  destruct Hl as [l0 [<- Hl0]].
  rewrite forallb_forall in Hlines. specialize (Hlines l0 Hl0).
  apply negb_true_iff in Hlines. apply contains_Substring in Hw. congruence.
Qed.

Lemma has_api_definition_line_commented_witness :
  has_api_definition
    (one_file (py "d/Foo.cc")
       (py "int f(); // see Foo::get_api_definition" ++ nl ++ py "int g();" ++ nl))
    (py "Foo.cc") (py "d/Foo.cc")
  = false.
Proof.
  apply has_api_definition_line_commented; reflexivity.
Defined.

(** The lines [splitlines()] returns are pieces of the text. *)
Lemma splitlines_aux_pieces (s : str) :
  forall cur, Forall (fun l => Substring l (cur ++ s)) (splitlines_aux cur s).
Proof.
  induction s as [s IH] using str_length_ind. intros cur.
  destruct s as [|c rest]; cbn [splitlines_aux].
  - rewrite app_nil_r. destruct cur; constructor; auto with substr.
  - destruct (is_linebreak c).
    + constructor; [auto with substr|].
      destruct rest as [|d rest'].
      * constructor.
      * destruct ((c =? CR)%N && (d =? LF)%N).
        -- eapply Forall_impl; [|apply (IH rest'); simpl; lia].
           intros l [p [q H]]. simpl in H. exists (cur ++ [c; d] ++ p), q.
           rewrite H, <- !app_assoc. reflexivity.
        -- eapply Forall_impl; [|apply (IH (d :: rest')); simpl; lia].
           intros l [p [q H]]. simpl in H. exists (cur ++ [c] ++ p), q.
           rewrite H, <- !app_assoc. reflexivity.
    + specialize (IH rest ltac:(simpl; lia) (cur ++ [c])).
      rewrite <- app_assoc in IH. exact IH.
Qed.

Lemma In_unlines (l : str) (ls : list str) : In l ls -> Substring l (unlines ls).
Proof.
  induction ls as [|x rest IH]; [contradiction|].
  rewrite unlines_cons. intros [-> | Hin]; [auto with substr|].
  apply Substring_app_r. change (LF :: unlines rest) with ([LF] ++ unlines rest).
  apply Substring_app_r, IH, Hin.
Qed.

(** Joining the words by single spaces neither loses nor makes an
    occurrence of a word without white space. *)
Lemma normalised_iff (w T : str) :
  w <> [] -> (forall c, In c w -> is_space c = false) ->
  Substring w (normalised T) <-> Substring w (purge_comments T).
Proof.
  intros Hw Hns. split; [|apply normalised_keeps; assumption].
  intros E. unfold normalised in E. change (py " ") with [32%N] in E.
  apply Substring_join_inv in E; [|exact Hw|].
  2:{ intros Hin. specialize (Hns _ Hin). discriminate Hns. }
  destruct E as [t [Hin Ht]].
  pose proof (split_ws_aux_pieces (purge_comments T) []) as Hp.
  rewrite Forall_forall in Hp. specialize (Hp t Hin). simpl app in Hp.
  exact (Substring_trans _ _ _ Ht Hp).
Qed.

Lemma Substring_closed (w x T : str) :
  w <> [] -> is_space LF = true -> (forall c, In c w -> is_space c = false) ->
  Substring w (x ++ closed T) <-> Substring w x.
Proof.
  intros Hw HLF Hns. split; [|auto with substr].
  unfold closed. destruct (terminatedb T); [rewrite app_nil_r; auto|].
  intros H. unfold nl in H.
  apply Substring_split_char in H.
  - destruct H as [H | [p [q H]]]; [exact H|].
    exfalso. destruct p; [|discriminate H]. destruct w; [contradiction | discriminate H].
  - intros Hin. specialize (Hns _ Hin). rewrite HLF in Hns. discriminate Hns.
Qed.

Lemma needle_word (filename : str) :
  forallb (fun c => negb (is_space c)) (needle filename) = true ->
  needle filename <> [] /\ (forall c, In c (needle filename) -> is_space c = false).
Proof.
  intros Hns. split.
  - unfold needle. intros H. apply app_eq_nil in H. destruct H as [_ H].
    discriminate H.
  - intros c Hc. rewrite forallb_forall in Hns. specialize (Hns c Hc).
    apply negb_true_iff in Hns. exact Hns.
Qed.

(** C1.  What the detector makes of comments, for a base name without white
    space.  In a file without block comments it returns true exactly when
    [<base>::get_api_definition] stands in some line before the first
    ["//"]: there the claim holds both ways.  In a file with one closed
    block comment and no ["//"] it returns true exactly when the raw text
    holds an occurrence and the text with the comment cut out holds one: an
    occurrence before or after the comment is found, and occurrences inside
    it do not count as long as what stands before and after the comment does
    not make one when joined.  When it does, the claim fails: in
    [Foo::get_/* Foo::get_api_definition */api_definition] the only
    occurrence lies inside the comment, and the detector returns true. *)
Theorem has_api_definition_comments :
  (forall (fs : filesystem) (filename concatname : str),
     forallb (fun c => negb (is_space c)) (needle filename) = true ->
     (contains (read fs concatname) (py "/*") = false ->
      (has_api_definition fs filename concatname = true
       <-> exists line, In line (splitlines (read fs concatname))
                        /\ Substring (needle filename) (cut line)))
     /\ (forall pre body post : str,
           read fs concatname = pre ++ py "/*" ++ body ++ py "*/" ++ post ->
           contains (read fs concatname) (py "//") = false ->
           contains pre (py "/*") = false ->
           contains (STAR :: body) (py "*/") = false ->
           contains post (py "/*") = false ->
           unix_lines (read fs concatname) = true ->
           (has_api_definition fs filename concatname = true
            <-> Substring (needle filename) (read fs concatname)
                /\ Substring (needle filename) (pre ++ post))))
  /\ (let T := py "Foo::get_/* Foo::get_api_definition */api_definition" in
      (forall i, occurs_at (needle (py "Foo.cc")) T i ->
                 in_block_comment T i (length (needle (py "Foo.cc"))))
      /\ has_api_definition (one_file (py "d/Foo.cc") T) (py "Foo.cc") (py "d/Foo.cc")
         = true).
Proof.
  split.
  - intros fs filename concatname Hns.
    destruct (needle_word filename Hns) as [Hne Hsp].
    split.
    + intros Hst. change (py "/*") with [SLASH; STAR] in Hst.
      rewrite contains_pair in Hst.
      rewrite has_api_definition_searches, andb_true_iff, !contains_Substring.
      rewrite (normalised_iff _ _ Hne Hsp), (purge_comments_no_block _ Hst).
      split.
      * intros [_ H]. apply Substring_unlines_inv in H; [|exact Hne|].
        2:{ intros Hin. specialize (Hsp _ Hin). discriminate Hsp. }
        destruct H as [l [Hl Hw]]. apply in_map_iff in Hl.
        destruct Hl as [line [<- Hline]]. exists line. split; assumption.
      * intros [line [Hline Hw]]. split.
        -- pose proof (splitlines_aux_pieces (read fs concatname) []) as Hp.
           rewrite Forall_forall in Hp. specialize (Hp line Hline). simpl app in Hp.
           apply (Substring_trans _ line); [|exact Hp].
           apply (Substring_trans _ (cut line)); [exact Hw|].
           destruct (cut_prefix line) as [rest E]. exists [], rest. exact E.
        -- apply (Substring_trans _ (cut line)); [exact Hw|].
           apply In_unlines, in_map, Hline.
    + intros pre body post HT Hss Hpre Hbody Hpost Hlf.
      rewrite has_api_definition_searches, andb_true_iff, !contains_Substring.
      rewrite (normalised_iff _ _ Hne Hsp).
      assert (Hp : purge_comments (read fs concatname)
                   = (pre ++ post) ++ closed (read fs concatname)).
      { rewrite HT in Hss, Hlf |- *. rewrite <- app_assoc.
        exact (purge_comments_one_block pre body post Hss Hpre Hbody Hpost Hlf). }
      rewrite Hp, (Substring_closed _ _ _ Hne eq_refl Hsp). reflexivity.
  - intros T. split; [|reflexivity].
    intros i Hi. apply occurs_at_startswith in Hi. destruct Hi as [Hs Hlen].
    assert (i = 12) as ->.
    { assert (forallb (fun j => implb (startswith (skipn j T) (needle (py "Foo.cc")))
                                  (j =? 12))
                (seq 0 (S (length T))) = true) as Hall by (vm_compute; reflexivity).
      rewrite forallb_forall in Hall. specialize (Hall i).
      rewrite Hs in Hall. apply Nat.eqb_eq. apply Hall.
      apply in_seq. lia. }
    exists (py "Foo::get_"), (py " Foo::get_api_definition "), (py "api_definition").
    repeat split; try reflexivity; vm_compute; lia.
Qed.

Lemma has_api_definition_comments_witness :
  has_api_definition
    (one_file (py "d/Foo.cc")
       (py "Foo::get_/* Foo::get_api_definition */api_definition"))
    (py "Foo.cc") (py "d/Foo.cc") = true
  /\ has_api_definition
       (one_file (py "d/Foo.cc")
          (py "int Foo::get_api_definition() {} // makes the API" ++ nl))
       (py "Foo.cc") (py "d/Foo.cc") = true.
Proof.
  split.
  - apply (proj2 (proj1 has_api_definition_comments
                    (one_file (py "d/Foo.cc")
                       (py "Foo::get_/* Foo::get_api_definition */api_definition"))
                    (py "Foo.cc") (py "d/Foo.cc") eq_refl)
             (py "Foo::get_") (py " Foo::get_api_definition ") (py "api_definition")
             eq_refl eq_refl eq_refl eq_refl eq_refl eq_refl).
    split.
    + exists (py "Foo::get_/* "), (py " */api_definition"). reflexivity.
    + exists [], []. reflexivity.
  - apply (proj1 (proj1 has_api_definition_comments
                    (one_file (py "d/Foo.cc")
                       (py "int Foo::get_api_definition() {} // makes the API" ++ nl))
                    (py "Foo.cc") (py "d/Foo.cc") eq_refl) eq_refl).
    exists (py "int Foo::get_api_definition() {} // makes the API"). split.
    + left. reflexivity.
    + exists (py "int "), (py "() {} "). reflexivity.
Defined.

End DetectorExtras.

(* ================================================================== *)
(** * More about the path-to-API-name mapper *)
(* ================================================================== *)

Section MapperExtras.

Lemma notin_forallb (x : char) (s : str) :
  forallb (fun c => negb (c =? x)%N) s = true <-> ~ In x s.
Proof.
  rewrite forallb_forall. split.
  - intros H Hin. specialize (H x Hin). rewrite N.eqb_refl in H. discriminate H.
  - intros H c Hc. destruct (N.eqb_spec c x) as [-> | _]; [contradiction | reflexivity].
Qed.

Lemma split_on_pieces (sep : char) (s : str) :
  Forall (fun seg => ~ In sep seg) (split_on sep s).
Proof.
  induction s as [|c s IH]; cbn [split_on].
  - constructor; [intros [] | constructor].
  - destruct (N.eqb_spec c sep) as [-> | Hne].
    + constructor; [intros [] | exact IH].
    + destruct (split_on sep s) as [|h t]; [repeat constructor; intros [H | []]; auto|].
      inversion IH as [|? ? Hh Ht]; subst. constructor; [|exact Ht].
      intros [H | H]; [exact (Hne H) | exact (Hh H)].
Qed.

(** Splitting what was joined gives the pieces back, when no piece holds
    the separator. *)
Lemma split_on_join (sep : char) (l : list str) :
  l <> [] -> Forall (fun seg => ~ In sep seg) l ->
  split_on sep (join [sep] l) = l.
Proof.
  induction l as [|x rest IH]; intros Hne H; [contradiction|].
  inversion H as [|? ? Hx Hrest]; subst. cbn [join]. destruct rest as [|y rest'].
  - apply split_on_absent. exact Hx.
  - change (x ++ [sep] ++ join [sep] (y :: rest'))
      with (x ++ sep :: join [sep] (y :: rest')).
    rewrite (split_on_first sep x _ Hx), IH; [reflexivity | discriminate | exact Hrest].
Qed.

Lemma join_last_app (sep : str) (l : list str) (x y : str) :
  join sep (l ++ [x ++ y]) = join sep (l ++ [x]) ++ y.
Proof.
  destruct l as [|h t].
  - reflexivity.
  - change ((h :: t) ++ [x ++ y]) with (h :: (t ++ [x ++ y])).
    change ((h :: t) ++ [x]) with (h :: (t ++ [x])).
    rewrite !join_cons, !map_app, !concat_app. cbn [map concat].
    rewrite !app_nil_r, <- !app_assoc. reflexivity.
Qed.

(** The segment the mapper inserts is a segment of its own in the result. *)
Lemma join_api_segment (a b c : str) (rest : list str) :
  join (py "/") (a :: b :: (c ++ py "_api/auto_generated_api") :: rest)
  = join (py "/") (a :: b :: (c ++ py "_api") :: py "auto_generated_api" :: rest).
Proof.
  rewrite (join_cons (py "/") a (b :: (c ++ py "_api/auto_generated_api") :: rest)).
  rewrite (join_cons (py "/") a
             (b :: (c ++ py "_api") :: py "auto_generated_api" :: rest)).
  cbn [map concat].
  change (py "_api/auto_generated_api")
    with (py "_api" ++ py "/" ++ py "auto_generated_api").
  rewrite <- !app_assoc. reflexivity.
Qed.

(** What the mapper did when it returned. *)
Lemma apiname_Ok (fname newname : str) :
  apiname_from_filename fname = Ok newname ->
  exists seg0 seg1 seg2 mid base ext,
    split_on SLASH fname = seg0 :: seg1 :: seg2 :: mid ++ [base ++ DOT :: ext]
    /\ ~ In DOT base /\ ~ In DOT ext
    /\ newname = join (py "/")
                   (seg0 :: seg1 :: (seg2 ++ py "_api") :: py "auto_generated_api"
                    :: mid ++ [base ++ py "_API"]).
Proof.
  intros H. destruct (apiname_aborts_iff fname) as [Hiff _].
  assert (Hlen : 3 < length (split_on SLASH fname)).
  { destruct (Nat.ltb_spec 3 (length (split_on SLASH fname))) as [L | L]; [exact L|].
    assert (apiname_from_filename fname = Raise AssertionError) as E
      by (apply Hiff; left; exact L).
    congruence. }
  destruct (four_segments _ Hlen) as [seg0 [seg1 [seg2 [mid [lastseg [E El]]]]]].
  rewrite (apiname_from_segments fname seg0 seg1 seg2 mid lastseg E) in H.
  destruct (Nat.eqb_spec (count DOT lastseg) 1) as [Hc | Hc]; [|discriminate H].
  destruct (count_one DOT lastseg Hc) as [base [ext [-> [Hb He]]]].
  rewrite (split_on_base_ext base ext Hb He) in H. cbn [nth] in H.
  injection H as <-.
  exists seg0, seg1, seg2, mid, base, ext.
  split; [exact E | split; [exact Hb | split; [exact He|]]].
  apply join_api_segment.
Qed.

(** Two paths with the same API name have the same stem. *)
Lemma same_api_name_same_stem (fname1 fname2 newname : str) :
  apiname_from_filename fname1 = Ok newname ->
  apiname_from_filename fname2 = Ok newname ->
  exists stem ext1 ext2,
    fname1 = stem ++ DOT :: ext1 /\ fname2 = stem ++ DOT :: ext2
    /\ ~ In DOT ext1 /\ ~ In DOT ext2.
Proof.
  intros H1 H2.
  destruct (apiname_Ok _ _ H1) as [a1 [b1 [c1 [m1 [base1 [e1 [E1 [_ [He1 N1]]]]]]]]].
  destruct (apiname_Ok _ _ H2) as [a2 [b2 [c2 [m2 [base2 [e2 [E2 [_ [He2 N2]]]]]]]]].
  pose proof (split_on_pieces SLASH fname1) as P1. rewrite E1 in P1.
  pose proof (split_on_pieces SLASH fname2) as P2. rewrite E2 in P2.
  assert (Hfree : forall a b c m base e,
            Forall (fun seg => ~ In SLASH seg) (a :: b :: c :: m ++ [base ++ DOT :: e]) ->
            Forall (fun seg => ~ In SLASH seg)
              (a :: b :: (c ++ py "_api") :: py "auto_generated_api"
               :: m ++ [base ++ py "_API"])).
  { intros a b c m base e P.
    inversion P as [|? ? Pa P']; subst. inversion P' as [|? ? Pb P'']; subst.
    inversion P'' as [|? ? Pc P3]; subst. apply Forall_app in P3.
    destruct P3 as [Pm Pl]. inversion Pl as [|? ? Pbase _]; subst.
    constructor; [exact Pa|]. constructor; [exact Pb|].
    constructor.
    { intros Hin. apply in_app_or in Hin. destruct Hin as [Hin | Hin];
        [exact (Pc Hin) | revert Hin; apply notin_forallb; reflexivity]. }
    constructor; [apply notin_forallb; reflexivity|].
    apply Forall_app. split; [exact Pm|]. constructor; [|constructor].
    intros Hin. apply in_app_or in Hin. destruct Hin as [Hin | Hin].
    - apply Pbase. apply in_or_app. left. exact Hin.
    - revert Hin. apply notin_forallb. reflexivity. }
  assert (Hl : a1 :: b1 :: (c1 ++ py "_api") :: py "auto_generated_api"
               :: m1 ++ [base1 ++ py "_API"]
               = a2 :: b2 :: (c2 ++ py "_api") :: py "auto_generated_api"
                 :: m2 ++ [base2 ++ py "_API"]).
  { assert (Hj : split_on SLASH newname = split_on SLASH newname) by reflexivity.
    rewrite N1 in Hj at 1. rewrite N2 in Hj.
    change (py "/") with [SLASH] in Hj.
    rewrite !split_on_join in Hj;
      [exact Hj | discriminate | apply (Hfree _ _ _ _ _ _ P2)
       | discriminate | apply (Hfree _ _ _ _ _ _ P1)]. }
  injection Hl as <- <- Hc Hm.
  apply app_inv_tail in Hc. subst c2.
  apply app_inj_tail in Hm. destruct Hm as [<- Hb].
  apply app_inv_tail in Hb. subst base2.
  exists (join (py "/") (a1 :: b1 :: c1 :: m1 ++ [base1])), e1, e2.
  split; [|split; [|split; assumption]].
  - rewrite <- (join_split_on SLASH fname1), E1.
    change [SLASH] with (py "/").
    change (a1 :: b1 :: c1 :: m1 ++ [base1 ++ DOT :: e1])
      with ((a1 :: b1 :: c1 :: m1) ++ [base1 ++ DOT :: e1]).
    apply join_last_app.
  - rewrite <- (join_split_on SLASH fname2), E2.
    change [SLASH] with (py "/").
    change (a1 :: b1 :: c1 :: m1 ++ [base1 ++ DOT :: e2])
      with ((a1 :: b1 :: c1 :: m1) ++ [base1 ++ DOT :: e2]).
    apply join_last_app.
Qed.

(** X8.  Two paths that are given the same API name differ in their
    extension only: no two source files with different stems share an API
    counterpart. *)
Theorem apiname_from_filename_injective (fname1 fname2 newname : str) :
  apiname_from_filename fname1 = Ok newname ->
  apiname_from_filename fname2 = Ok newname ->
  exists stem ext1 ext2,
    fname1 = stem ++ DOT :: ext1 /\ fname2 = stem ++ DOT :: ext2
    /\ ~ In DOT ext1 /\ ~ In DOT ext2.
Proof. apply same_api_name_same_stem. Qed.

Lemma apiname_from_filename_injective_witness :
  exists stem ext1 ext2,
    py "../src/core/a/Foo.cc" = stem ++ DOT :: ext1
    /\ py "../src/core/a/Foo.hh" = stem ++ DOT :: ext2
    /\ ~ In DOT ext1 /\ ~ In DOT ext2.
Proof.
  apply (apiname_from_filename_injective _ _
           (py "../src/core_api/auto_generated_api/a/Foo_API")); reflexivity.
Defined.

End MapperExtras.

(* ================================================================== *)
(** * More about the dependency reader *)
(* ================================================================== *)

Section ReaderExtras.

Lemma is_comment_cons (c : char) (e : str) : is_comment (c :: e) = (c =? HASH)%N.
Proof.
  unfold is_comment. change (py "#") with [HASH]. cbn [startswith].
  rewrite andb_true_r. apply N.eqb_sym.
Qed.

Lemma dependency_tokens_filter (contents : str) :
  dependency_tokens contents
  = filter (fun t => negb (is_comment t)) (split_ws contents).
Proof. reflexivity. Qed.

Lemma filter_remove_first (p : str -> bool) (x : str) (l : list str) :
  p x = false -> filter p (remove_first x l) = filter p l.
Proof.
  intros Hx. induction l as [|y l IH]; simpl; [reflexivity|].
  destruct (str_eqb y x) eqn:E.
  - apply str_eqb_eq in E. subst y. rewrite Hx. reflexivity.
  - simpl. rewrite IH. reflexivity.
Qed.

(** The loop only removes words that start with the marker. *)
Lemma drop_comment_entries_keeps (fuel i : nat) (dlist l : list str) :
  drop_comment_entries fuel i dlist = Ok l ->
  filter (fun t => negb (is_comment t)) l
  = filter (fun t => negb (is_comment t)) dlist.
Proof.
  revert i dlist; induction fuel as [|fuel IH]; intros i dlist; simpl.
  - intros [= <-]. reflexivity.
  - destruct (nth_error dlist i) as [[|c entry']|]; try discriminate.
    + destruct (c =? HASH)%N eqn:E; intros H.
      * rewrite (IH _ _ H). apply filter_remove_first.
        rewrite is_comment_cons, E. reflexivity.
      * apply (IH _ _ H).
    + intros [= <-]. reflexivity.
Qed.

Lemma remove_first_incl (x : str) (l : list str) : incl (remove_first x l) l.
Proof.
  induction l as [|y l IH]; simpl; [apply incl_refl|].
  destruct (str_eqb y x).
  - apply incl_tl, incl_refl.
  - intros z [-> | Hz]; [left; reflexivity | right; apply IH; exact Hz].
Qed.

Lemma drop_comment_entries_incl (fuel i : nat) (dlist l : list str) :
  drop_comment_entries fuel i dlist = Ok l -> incl l dlist.
Proof.
  revert i dlist; induction fuel as [|fuel IH]; intros i dlist; simpl.
  - intros [= <-]. apply incl_refl.
  - destruct (nth_error dlist i) as [[|c entry']|]; try discriminate.
    + destruct (c =? HASH)%N; intros H.
      * eapply incl_tran; [exact (IH _ _ H) | apply remove_first_incl].
      * exact (IH _ _ H).
    + intros [= <-]. apply incl_refl.
Qed.

Lemma drop_comment_entries_length (fuel i : nat) (dlist l : list str) :
  drop_comment_entries fuel i dlist = Ok l -> length l <= length dlist.
Proof.
  revert i dlist; induction fuel as [|fuel IH]; intros i dlist; simpl.
  - intros [= <-]. lia.
  - destruct (nth_error dlist i) as [[|c entry']|]; try discriminate.
    + destruct (c =? HASH)%N; intros H.
      * pose proof (IH _ _ H). pose proof (remove_first_length (c :: entry') dlist).
        lia.
      * exact (IH _ _ H).
    + intros [= <-]. lia.
Qed.

(** X9.  Taking [entry[0]] never fails, whatever the directory and the
    file: [split()] yields no empty word.  When the dependency file is there
    and is read as the text [contents], the reader returns a list of at most
    as many words as [contents] has.  (The file-system model takes reading a
    file to succeed.)  Without a dependency file the reader returns the empty
    list, and for a path that is no directory it raises the failed
    assertion. *)
Theorem get_library_dependencies_total (fs : filesystem) (dirname : str) :
  get_library_dependencies fs dirname <> Raise IndexError
  /\ (forall contents,
        isdir fs dirname = true ->
        isfile fs (dirname ++ py "/link_dependencies.txt") = true ->
        read fs (dirname ++ py "/link_dependencies.txt") = contents ->
        exists l, get_library_dependencies fs dirname = Ok l
                  /\ length l <= length (split_ws contents))
  /\ (isdir fs dirname = true ->
      isfile fs (dirname ++ py "/link_dependencies.txt") = false ->
      get_library_dependencies fs dirname = Ok [])
  /\ (isdir fs dirname = false ->
      get_library_dependencies fs dirname = Raise AssertionError).
Proof.
  destruct (get_library_dependencies_returns fs dirname) as [H1 [H2 H3]].
  split; [|split; [|split; [exact H3 | exact H2]]].
  - destruct (isdir fs dirname) eqn:Hd.
    + destruct (H1 eq_refl) as [l ->]. discriminate.
    + rewrite (H2 eq_refl). discriminate.
  - intros contents Hd Hf Hread. destruct (H1 Hd) as [l Hl]. exists l.
    split; [exact Hl|]. rewrite <- Hread.
    unfold get_library_dependencies in Hl. rewrite Hd, Hf in Hl.
    cbn [assert bind] in Hl. cbv zeta in Hl.
    exact (drop_comment_entries_length _ _ _ _ Hl).
Qed.

Lemma get_library_dependencies_total_witness :
  (exists l, get_library_dependencies (deps_fs (py "#a #b libC")) (py "core") = Ok l
             /\ length l <= 3)
  /\ get_library_dependencies empty_fs (py "src/core") = Ok []
  /\ get_library_dependencies empty_fs (py "src/other") = Raise AssertionError.
Proof.
  split; [|split].
  - apply (proj1 (proj2 (get_library_dependencies_total
                           (deps_fs (py "#a #b libC")) (py "core")))
             (py "#a #b libC"));
      reflexivity.
  - apply (proj1 (proj2 (proj2 (get_library_dependencies_total empty_fs
                                  (py "src/core")))));
      reflexivity.
  - apply (proj2 (proj2 (proj2 (get_library_dependencies_total empty_fs
                                  (py "src/other"))))).
    reflexivity.
Defined.

(** X10.  The reader never loses a dependency: the words of its result that
    do not start with ["#"] are exactly those of the file, in their order
    and with their repetitions, and every word of the result is a word of
    the file.  (Words that start with ["#"] may stay.) *)
Theorem get_library_dependencies_keeps_names (fs : filesystem) (dirname : str)
    (l : list str) :
  isfile fs (dirname ++ py "/link_dependencies.txt") = true ->
  get_library_dependencies fs dirname = Ok l ->
  filter (fun t => negb (is_comment t)) l
  = dependency_tokens (read fs (dirname ++ py "/link_dependencies.txt"))
  /\ incl l (split_ws (read fs (dirname ++ py "/link_dependencies.txt"))).
Proof.
  intros Hf H. unfold get_library_dependencies in H.
  destruct (isdir fs dirname); [|discriminate H].
  cbn [assert bind] in H. cbv zeta in H. rewrite Hf in H. split.
  - rewrite dependency_tokens_filter. apply (drop_comment_entries_keeps _ _ _ _ H).
  - apply (drop_comment_entries_incl _ _ _ _ H).
Qed.

Lemma get_library_dependencies_keeps_names_witness :
  filter (fun t => negb (is_comment t)) [py "#b"; py "libC"; py "libC"]
  = dependency_tokens (py "#a #b libC libC")
  /\ incl [py "#b"; py "libC"; py "libC"] (split_ws (py "#a #b libC libC")).
Proof.
  apply (get_library_dependencies_keeps_names
           (deps_fs (py "#a #b libC libC")) (py "core")); reflexivity.
Defined.

Lemma drop_comment_entries_done (fuel i : nat) (dlist : list str) :
  length dlist <= i -> drop_comment_entries fuel i dlist = Ok dlist.
Proof.
  intros H. destruct fuel; simpl; [reflexivity|].
  replace (nth_error dlist i) with (@None str)
    by (symmetry; apply nth_error_None; exact H).
  reflexivity.
Qed.

Lemma remove_first_here (kept : list str) (e : str) (rest : list str) :
  is_comment e = true ->
  forallb (fun t => negb (is_comment t)) kept = true ->
  remove_first e (kept ++ e :: rest) = kept ++ rest.
Proof.
  intros He. induction kept as [|y kept IH]; simpl; intros Hk.
  - rewrite str_eqb_refl. reflexivity.
  - apply andb_true_iff in Hk. destruct Hk as [Hy Hk].
    destruct (str_eqb y e) eqn:E.
    + apply str_eqb_eq in E. subst y. rewrite He in Hy. discriminate Hy.
    + rewrite (IH Hk). reflexivity.
Qed.

Lemma no_adjacent_tail (a : str) (t : list str) :
  no_adjacent_comments (a :: t) = true -> no_adjacent_comments t = true.
Proof.
  cbn [no_adjacent_comments]. destruct t as [|b t']; [reflexivity|].
  intros H. apply andb_true_iff in H. apply H.
Qed.

Lemma no_adjacent_after (a b : str) (t : list str) :
  no_adjacent_comments (a :: b :: t) = true ->
  is_comment a = true -> negb (is_comment b) = true.
Proof.
  intros H Ha. change (no_adjacent_comments (a :: b :: t))
    with (negb (is_comment a && is_comment b) && no_adjacent_comments (b :: t)) in H.
  apply andb_true_iff in H. destruct H as [H _]. rewrite Ha in H. exact H.
Qed.

(** The loop on a list without two marked words in a row: [kept] is what
    stands before the index. *)
Lemma drop_comment_entries_alternating (fuel : nat) :
  forall kept rest : list str,
    Forall (fun t : str => t <> []) rest ->
    forallb (fun t => negb (is_comment t)) kept = true ->
    no_adjacent_comments rest = true ->
    length rest <= fuel ->
    drop_comment_entries fuel (length kept) (kept ++ rest)
    = Ok (kept ++ filter (fun t => negb (is_comment t)) rest).
Proof.
  induction fuel as [|fuel IH]; intros kept rest Hne Hk Hadj Hlen.
  - destruct rest; [reflexivity | simpl in Hlen; lia].
  - destruct rest as [|e rest'].
    + apply drop_comment_entries_done. rewrite app_nil_r. lia.
    + cbn [drop_comment_entries].
      rewrite nth_error_app2, Nat.sub_diag by lia. cbn [nth_error].
      inversion Hne as [|? ? He Hne']; subst.
      destruct e as [|c e']; [contradiction|].
      pose proof (is_comment_cons c e') as Hc.
      assert (Hstep : forall x, (kept ++ [x]) ++ rest' = kept ++ x :: rest')
        by (intros x; rewrite <- app_assoc; reflexivity).
      assert (Hidx : S (length kept) = length (kept ++ [c :: e']))
        by (rewrite length_app; simpl; lia).
      destruct (c =? HASH)%N eqn:E.
      * rewrite (remove_first_here kept (c :: e') rest' Hc Hk).
        cbn [filter]. rewrite Hc. cbn [negb].
        destruct rest' as [|x rest''].
        -- apply drop_comment_entries_done. rewrite app_nil_r. lia.
        -- pose proof (no_adjacent_after _ _ _ Hadj Hc) as Hx.
           apply no_adjacent_tail, no_adjacent_tail in Hadj.
           inversion Hne' as [|? ? _ Hne'']; subst.
           replace (S (length kept)) with (length (kept ++ [x]))
             by (rewrite length_app; simpl; lia).
           replace (kept ++ x :: rest'') with ((kept ++ [x]) ++ rest'')
             by (rewrite <- app_assoc; reflexivity).
           rewrite IH.
           ++ cbn [filter]. rewrite Hx, <- app_assoc. reflexivity.
           ++ exact Hne''.
           ++ rewrite forallb_app, Hk. cbn [forallb]. rewrite Hx. reflexivity.
           ++ exact Hadj.
           ++ simpl in Hlen. lia.
      * rewrite Hidx, <- Hstep, IH.
        -- cbn [filter]. rewrite Hc. cbn [negb]. rewrite <- app_assoc. reflexivity.
        -- exact Hne'.
        -- rewrite forallb_app, Hk. cbn [forallb]. rewrite Hc. reflexivity.
        -- apply no_adjacent_tail in Hadj. exact Hadj.
        -- simpl in Hlen. lia.
Qed.

(** X11.  When no two words in a row start with ["#"], the reader returns
    exactly the words of the file that do not start with ["#"]. *)
Theorem get_library_dependencies_alternating (fs : filesystem) (dirname : str) :
  isdir fs dirname = true ->
  isfile fs (dirname ++ py "/link_dependencies.txt") = true ->
  no_adjacent_comments (split_ws (read fs (dirname ++ py "/link_dependencies.txt")))
  = true ->
  get_library_dependencies fs dirname
  = Ok (dependency_tokens (read fs (dirname ++ py "/link_dependencies.txt"))).
Proof.
  intros Hd Hf Hadj. unfold get_library_dependencies.
  rewrite Hd, Hf. cbn [assert bind]. cbv zeta.
  apply (drop_comment_entries_alternating _ [] _); try reflexivity.
  - apply split_ws_aux_nonempty.
  - exact Hadj.
Qed.

Lemma get_library_dependencies_alternating_witness :
  get_library_dependencies
    (deps_fs (py "#first libA #x libB" ++ nl ++ py "#last")) (py "core")
  = Ok [py "libA"; py "libB"].
Proof.
  apply (get_library_dependencies_alternating
           (deps_fs (py "#first libA #x libB" ++ nl ++ py "#last")) (py "core"));
    reflexivity.
Defined.

End ReaderExtras.

(* ================================================================== *)
(** * More about the directory walker *)
(* ================================================================== *)

Section LoopFacts.

Context {A B : Type}.

Lemma for_each_invariant (P : A -> Prop) (body : A -> B -> result A) (l : list B) :
  (forall a x a', P a -> body a x = Ok a' -> P a') ->
  forall a a', P a -> for_each body l a = Ok a' -> P a'.
Proof.
  intros Hb. induction l as [|x l IH]; simpl; intros a a' Ha H.
  - injection H as <-. exact Ha.
  - apply bind_Ok in H. destruct H as [a1 [H1 H2]].
    apply (IH a1 a'); [apply (Hb a x a1 Ha H1) | exact H2].
Qed.

Lemma for_each_raises (body : A -> B -> result A) (l : list B) (x : B) :
  In x l -> (forall a, exists e, body a x = Raise e) ->
  forall a, exists e, for_each body l a = Raise e.
Proof.
  intros Hin Hx. induction l as [|y l IH]; [contradiction|]. intros a. simpl.
  destruct Hin as [-> | Hin].
  - destruct (Hx a) as [e He]. rewrite He. exists e. reflexivity.
  - destruct (body a y) as [a1 | e]; [|exists e; reflexivity].
    simpl. apply (IH Hin).
Qed.

Lemma for_each_ext (body1 body2 : A -> B -> result A) (l : list B) :
  (forall a x, body1 a x = body2 a x) ->
  forall a, for_each body1 l a = for_each body2 l a.
Proof.
  intros Hb. induction l as [|x l IH]; simpl; intros a; [reflexivity|].
  rewrite Hb. destruct (body2 a x); simpl; [apply IH | reflexivity].
Qed.

End LoopFacts.

Section WalkerExtras.

Variable fs : filesystem.
Variable libname : str.

Lemma source_under_entry (dirname fname : str) :
  endswith fname (py ".cc") || endswith fname (py ".hh") = true ->
  source_under dirname (dirname ++ py "/" ++ fname) = true.
Proof.
  intros H. unfold source_under. apply andb_true_iff. split.
  - apply startswith_prefix. exists fname. rewrite <- app_assoc. reflexivity.
  - apply orb_true_iff in H. apply orb_true_iff.
    destruct H as [H | H]; [left | right];
      apply endswith_suffix in H; destruct H as [pre ->];
      apply endswith_suffix; exists (dirname ++ py "/" ++ pre);
      rewrite <- !app_assoc; reflexivity.
Qed.

Lemma source_under_deeper (dirname fname p : str) :
  source_under (dirname ++ py "/" ++ fname) p = true ->
  source_under dirname p = true.
Proof.
  unfold source_under. intros H. apply andb_true_iff in H.
  destruct H as [H1 H2]. rewrite H2, andb_true_r.
  apply startswith_prefix in H1. destruct H1 as [t ->].
  apply startswith_prefix. exists (fname ++ py "/" ++ t).
  rewrite <- !app_assoc. reflexivity.
Qed.

Lemma listed_extend (skip_apps : bool) (st : list str * list str)
    (r : walked skip_apps) :
  fst (extend_walked skip_apps st r) = fst st ++ listed skip_apps r.
Proof. destruct skip_apps; reflexivity. Qed.

Lemma listed_return (skip_apps : bool) (st : list str * list str) :
  listed skip_apps (return_walked skip_apps st) = fst st.
Proof. destruct skip_apps; reflexivity. Qed.

Lemma visit_entry_listed (skip_apps : bool)
    (recurse : str -> result (walked skip_apps))
    (dirname : str) (st : list str * list str) (fname : str)
    (st' : list str * list str) :
  (forall d r, recurse d = Ok r ->
               Forall (fun p => source_under d p = true) (listed skip_apps r)) ->
  Forall (fun p => source_under dirname p = true) (fst st) ->
  visit_entry fs skip_apps recurse dirname st fname = Ok st' ->
  Forall (fun p => source_under dirname p = true) (fst st').
Proof.
  intros Hrec Hst. unfold visit_entry. destruct st as [outlist outlist_apis].
  cbv zeta. cbn [fst] in Hst.
  destruct (isfile fs (dirname ++ py "/" ++ fname)).
  - assert (Hout : Forall (fun p => source_under dirname p = true)
                     (if endswith fname (py ".cc") || endswith fname (py ".hh")
                      then outlist ++ [dirname ++ py "/" ++ fname] else outlist)).
    { destruct (endswith fname (py ".cc") || endswith fname (py ".hh")) eqn:E;
        [|exact Hst].
      apply Forall_app. split; [exact Hst|].
      constructor; [apply source_under_entry; exact E | constructor]. }
    destruct (_ && _ && _ && _).
    + intros H. apply bind_Ok in H. destruct H as [apiname [_ H]].
      injection H as <-. exact Hout.
    + intros [= <-]. exact Hout.
  - destruct (isdir fs (dirname ++ py "/" ++ fname)).
    + intros H. apply bind_Ok in H. destruct H as [r [Hr H]].
      injection H as <-. rewrite listed_extend. apply Forall_app.
      split; [exact Hst|].
      eapply Forall_impl; [|exact (Hrec _ _ Hr)].
      intros p. apply source_under_deeper.
    + intros [= <-]. exact Hst.
Qed.

(** X12.  Whatever the flag, every path the walker lists lies under the
    directory it was given ([dirname/...]) and ends in [.cc] or [.hh]. *)
Theorem walker_lists_sources_under (depth : nat) :
  forall (dirname : str) (skip_apps : bool) (r : walked skip_apps),
    get_all_cc_and_hh_files_in_dir_and_subdirs depth fs libname dirname skip_apps
    = Ok r ->
    Forall (fun p => source_under dirname p = true) (listed skip_apps r).
Proof.
  induction depth as [|depth IH]; intros dirname skip_apps r H; [discriminate H|].
  rewrite walk_S in H. destruct (isdir fs dirname); [|discriminate H].
  cbn [assert bind] in H.
  destruct (excluded libname dirname skip_apps).
  - injection H as <-. destruct skip_apps; constructor.
  - apply bind_Ok in H. destruct H as [st [Hst H]]. injection H as <-.
    rewrite listed_return.
    apply (for_each_invariant
             (fun st => Forall (fun p => source_under dirname p = true) (fst st))
             _ _
             (fun a x a' Ha Hx =>
                visit_entry_listed skip_apps _ dirname a x a'
                  (fun d r' Hr => IH d skip_apps r' Hr) Ha Hx)
             ([], []) st (Forall_nil _) Hst).
Qed.

Lemma apiname_ends_in_API (fname newname : str) :
  apiname_from_filename fname = Ok newname -> exists pre, newname = pre ++ py "_API".
Proof.
  intros H. destruct (apiname_Ok _ _ H)
    as [seg0 [seg1 [seg2 [mid [base [ext [_ [_ [_ ->]]]]]]]]].
  exists (join (py "/")
            ((seg0 :: seg1 :: (seg2 ++ py "_api") :: py "auto_generated_api" :: mid)
             ++ [base])).
  apply (join_last_app (py "/")
           (seg0 :: seg1 :: (seg2 ++ py "_api") :: py "auto_generated_api" :: mid)).
Qed.

Lemma api_entry_triple (pre : str) :
  Forall (fun p => api_entry p = true)
    [(pre ++ py "_API") ++ py ".cc"; (pre ++ py "_API") ++ py ".hh";
     (pre ++ py "_API") ++ py ".fwd.hh"].
Proof.
  unfold api_entry. repeat constructor.
  - rewrite <- app_assoc. change (py "_API" ++ py ".cc") with (py "_API.cc").
    rewrite endswith_app. reflexivity.
  - rewrite <- app_assoc. change (py "_API" ++ py ".hh") with (py "_API.hh").
    rewrite endswith_app, orb_true_r. reflexivity.
  - rewrite <- app_assoc. change (py "_API" ++ py ".fwd.hh") with (py "_API.fwd.hh").
    rewrite endswith_app, !orb_true_r. reflexivity.
Qed.

Lemma api_list_ok_app (l1 l2 : list str) :
  api_list_ok l1 -> api_list_ok l2 -> api_list_ok (l1 ++ l2).
Proof.
  intros [F1 [k1 L1]] [F2 [k2 L2]]. split.
  - apply Forall_app. split; assumption.
  - exists (k1 + k2). rewrite length_app. lia.
Qed.

Lemma visit_entry_apis (recurse : str -> result (walked true))
    (dirname : str) (st : list str * list str) (fname : str)
    (st' : list str * list str) :
  (forall d r, recurse d = Ok r -> api_list_ok (snd r)) ->
  api_list_ok (snd st) ->
  visit_entry fs true recurse dirname st fname = Ok st' ->
  api_list_ok (snd st').
Proof.
  intros Hrec Hst. unfold visit_entry. destruct st as [outlist outlist_apis].
  cbv zeta. cbn [snd] in Hst.
  destruct (isfile fs (dirname ++ py "/" ++ fname)).
  - destruct (_ && _ && _ && _).
    + intros H. apply bind_Ok in H. destruct H as [apiname [Hn H]].
      injection H as <-. cbn [snd]. apply api_list_ok_app; [exact Hst|].
      destruct (apiname_ends_in_API _ _ Hn) as [pre ->].
      split; [apply api_entry_triple | exists 1; reflexivity].
    + intros [= <-]. exact Hst.
  - destruct (isdir fs (dirname ++ py "/" ++ fname)).
    + intros H. apply bind_Ok in H. destruct H as [r [Hr H]].
      injection H as <-. cbn [extend_walked snd].
      apply api_list_ok_app; [exact Hst | exact (Hrec _ _ Hr)].
    + intros [= <-]. exact Hst.
Qed.

(** X13.  With the flag set, the second list is made of triples: its length
    is a multiple of three, and each of its paths ends in [_API.cc],
    [_API.hh] or [_API.fwd.hh]. *)
Theorem walker_api_list_shape (depth : nat) :
  forall (dirname : str) (r : list str * list str),
    get_all_cc_and_hh_files_in_dir_and_subdirs depth fs libname dirname true = Ok r ->
    Forall (fun p => api_entry p = true) (snd r)
    /\ exists k, length (snd r) = 3 * k.
Proof.
  induction depth as [|depth IH]; intros dirname r H; [discriminate H|].
  rewrite walk_S in H. destruct (isdir fs dirname); [|discriminate H].
  cbn [assert bind] in H.
  destruct (excluded libname dirname true).
  - injection H as <-. split; [constructor | exists 0; reflexivity].
  - apply bind_Ok in H. destruct H as [st [Hst H]]. injection H as <-.
    cbn [return_walked].
    apply (for_each_invariant (fun st => api_list_ok (snd st)) _ _
             (fun a x a' Ha Hx =>
                visit_entry_apis _ dirname a x a' (fun d r' Hr => IH d r' Hr) Ha Hx)
             ([], []) st
             (conj (Forall_nil _) (ex_intro _ 0 eq_refl)) Hst).
Qed.

(** The loop over a listing without subdirectories, flag unset. *)
Lemma for_each_flat (recurse : str -> result (walked false)) (dirname : str)
    (l : list str) :
  (forall f, In f l -> isfile fs (dirname ++ py "/" ++ f) = false ->
             isdir fs (dirname ++ py "/" ++ f) = false) ->
  forall acc,
    for_each (visit_entry fs false recurse dirname) l (acc, [])
    = Ok (acc
          ++ map (fun f => dirname ++ py "/" ++ f)
               (filter (fun f => isfile fs (dirname ++ py "/" ++ f)
                                 && (endswith f (py ".cc") || endswith f (py ".hh")))
                  l),
          []).
Proof.
  induction l as [|f l IH]; intros Hl acc.
  - simpl. rewrite app_nil_r. reflexivity.
  - cbn [for_each filter]. unfold visit_entry at 1. cbv zeta. cbn [andb].
    destruct (isfile fs (dirname ++ py "/" ++ f)) eqn:Ef.
    + cbn [andb bind].
      destruct (endswith f (py ".cc") || endswith f (py ".hh")).
      * rewrite IH by (intros g Hg; apply Hl; right; exact Hg).
        cbn [map]. rewrite <- app_assoc. reflexivity.
      * apply IH. intros g Hg. apply Hl. right. exact Hg.
    + rewrite (Hl f (or_introl eq_refl) Ef). cbn [andb bind].
      apply IH. intros g Hg. apply Hl. right. exact Hg.
Qed.

(** X14.  With the flag unset, the walk of a directory without
    subdirectories returns its listing, in listing order and with its
    repetitions, reduced to the files whose names end in [.cc] or [.hh],
    each as [dirname/name]. *)
Theorem walker_flat_directory (depth : nat) (dirname : str) :
  isdir fs dirname = true ->
  excluded libname dirname false = false ->
  (forall f, In f (listdir fs dirname) ->
             isfile fs (dirname ++ py "/" ++ f) = false ->
             isdir fs (dirname ++ py "/" ++ f) = false) ->
  get_all_cc_and_hh_files_in_dir_and_subdirs (S depth) fs libname dirname false
  = Ok (map (fun f => dirname ++ py "/" ++ f)
          (filter (fun f => isfile fs (dirname ++ py "/" ++ f)
                            && (endswith f (py ".cc") || endswith f (py ".hh")))
             (listdir fs dirname))).
Proof.
  intros Hd He Hl. rewrite walk_S, Hd, He. cbn [assert bind].
  rewrite (for_each_flat _ dirname _ Hl []). reflexivity.
Qed.

(** X15.  With the flag set, a directory that holds a [.cc] file the
    detector accepts, whose path has at most three segments or whose name
    does not hold exactly one dot, cannot be walked: the walk raises. *)
Theorem walker_aborts_on_malformed_api_file (depth : nat) (dirname fname : str) :
  isdir fs dirname = true ->
  excluded libname dirname true = false ->
  In fname (listdir fs dirname) ->
  isfile fs (dirname ++ py "/" ++ fname) = true ->
  endswith fname (py ".cc") = true ->
  str_eqb (dirname ++ py "/" ++ fname) (py "../src/base/MasalaObject.cc") = false ->
  has_api_definition fs fname (dirname ++ py "/" ++ fname) = true ->
  length (split_on SLASH (dirname ++ py "/" ++ fname)) <= 3
  \/ count DOT (last (split_on SLASH (dirname ++ py "/" ++ fname)) []) <> 1 ->
  exists e,
    get_all_cc_and_hh_files_in_dir_and_subdirs (S depth) fs libname dirname true
    = Raise e.
Proof.
  intros Hd He Hin Hf Hcc Hm Hapi Hbad.
  rewrite walk_S, Hd, He. cbn [assert bind].
  destruct (for_each_raises
              (visit_entry fs true
                 (fun d => get_all_cc_and_hh_files_in_dir_and_subdirs
                             depth fs libname d true) dirname)
              (listdir fs dirname) fname Hin) with (a := (@nil str, @nil str))
    as [e Hr].
  - intros [outlist outlist_apis]. unfold visit_entry. cbv zeta.
    rewrite Hf, Hcc, Hm, Hapi. cbn [andb negb].
    rewrite (proj2 (proj1 (apiname_aborts_iff _)) Hbad).
    exists AssertionError. reflexivity.
  - rewrite Hr. exists e. reflexivity.
Qed.

(** Visiting [../src/base/MasalaObject.cc] leaves the API list as it was,
    whatever the file holds. *)
Lemma visit_MasalaObject
    (recurse : str -> result (walked true)) (dirname fname : str)
    (st : list str * list str) :
  dirname ++ py "/" ++ fname = py "../src/base/MasalaObject.cc" ->
  isfile fs (py "../src/base/MasalaObject.cc") = true ->
  exists outlist,
    visit_entry fs true recurse dirname st fname = Ok (outlist, snd st).
Proof.
  intros E Hf. unfold visit_entry. destruct st as [outlist outlist_apis].
  cbv zeta. rewrite E, Hf, str_eqb_refl. cbn [negb andb].
  rewrite andb_false_r. cbn [andb snd]. eexists. reflexivity.
Qed.

End WalkerExtras.

Section WalkerExtrasContents.

(** Two file systems with the same directories, files and listings. *)
Variables fs1 fs2 : filesystem.
Hypothesis same_isdir : forall p, isdir fs1 p = isdir fs2 p.
Hypothesis same_isfile : forall p, isfile fs1 p = isfile fs2 p.
Hypothesis same_listdir : forall p, listdir fs1 p = listdir fs2 p.

(** X17.  With the flag unset the walker reads no file: what it returns
    does not depend on what the files hold. *)
Theorem walker_flat_ignores_contents (depth : nat) :
  forall libname dirname,
    get_all_cc_and_hh_files_in_dir_and_subdirs depth fs1 libname dirname false
    = get_all_cc_and_hh_files_in_dir_and_subdirs depth fs2 libname dirname false.
Proof.
  induction depth as [|depth IH]; intros libname dirname; [reflexivity|].
  rewrite !walk_S, same_isdir, same_listdir.
  destruct (isdir fs2 dirname); [|reflexivity]. cbn [assert bind].
  destruct (excluded libname dirname false); [reflexivity|].
  rewrite (for_each_ext _
             (visit_entry fs2 false
                (fun d => get_all_cc_and_hh_files_in_dir_and_subdirs
                            depth fs2 libname d false) dirname)).
  - reflexivity.
  - intros [outlist outlist_apis] fname. unfold visit_entry. cbv zeta.
    rewrite same_isfile, same_isdir. cbn [andb].
    destruct (isfile fs2 _); [reflexivity|].
    destruct (isdir fs2 _); [|reflexivity]. rewrite IH. reflexivity.
Qed.

End WalkerExtrasContents.

Section MasalaObject.

Variable fs : filesystem.
Variable libname : str.

(** A text has one decomposition at its last dot. *)
Lemma last_dot_unique (a b c d : str) :
  a ++ DOT :: b = c ++ DOT :: d -> ~ In DOT b -> ~ In DOT d -> a = c /\ b = d.
Proof.
  revert c; induction a as [|x a IH]; intros [|y c] H Hb Hd; simpl in H.
  - injection H as ->. split; reflexivity.
  - exfalso. injection H as _ H. apply Hb. rewrite H.
    apply in_or_app. right. left. reflexivity.
  - exfalso. injection H as _ H. apply Hd. rewrite <- H.
    apply in_or_app. right. left. reflexivity.
  - injection H as -> H. destruct (IH c H Hb Hd) as [-> ->]. split; reflexivity.
Qed.

(** Only [../src/base/MasalaObject.cc] has that API name among the paths
    that end in [.cc]. *)
Lemma masala_api_source (concatname pre : str) :
  concatname = pre ++ py ".cc" ->
  apiname_from_filename concatname = Ok masala_api ->
  concatname = py "../src/base/MasalaObject.cc".
Proof.
  intros Hcc Hn.
  assert (Hm : apiname_from_filename (py "../src/base/MasalaObject.cc") = Ok masala_api)
    by reflexivity.
  destruct (apiname_Ok _ _ Hn) as [a1 [b1 [c1 [m1 [base1 [e1 [E1 [_ [He1 N1]]]]]]]]].
  destruct (apiname_Ok _ _ Hm) as [a2 [b2 [c2 [m2 [base2 [e2 [E2 [_ [He2 N2]]]]]]]]].
  assert (Hstem : exists stem ext1 ext2,
            concatname = stem ++ DOT :: ext1
            /\ py "../src/base/MasalaObject.cc" = stem ++ DOT :: ext2
            /\ ~ In DOT ext1 /\ ~ In DOT ext2).
  { pose proof (split_on_pieces SLASH concatname) as P1. rewrite E1 in P1.
    pose proof (split_on_pieces SLASH (py "../src/base/MasalaObject.cc")) as P2.
    rewrite E2 in P2.
    apply (same_api_name_same_stem concatname (py "../src/base/MasalaObject.cc")
             masala_api); assumption. }
  destruct Hstem as [stem [ext1 [ext2 [H1 [H2 [Hx1 Hx2]]]]]].
  assert (Hcc' : concatname = pre ++ DOT :: py "cc") by exact Hcc.
  assert (Hl : py "../src/base/MasalaObject.cc"
               = py "../src/base/MasalaObject" ++ DOT :: py "cc") by reflexivity.
  assert (Hnodot : ~ In DOT (py "cc")) by (apply notin_forallb; reflexivity).
  rewrite H2 in Hl. apply last_dot_unique in Hl; [|exact Hx2 | exact Hnodot].
  destruct Hl as [-> ->].
  rewrite H1 in Hcc'. apply last_dot_unique in Hcc'; [|exact Hx1 | exact Hnodot].
  destruct Hcc' as [_ ->]. exact H1.
Qed.

(** The paths of a counterpart tell its API name. *)
Lemma counterpart_name (pre : str) (p : str) :
  In p [(pre ++ py "_API") ++ py ".cc"; (pre ++ py "_API") ++ py ".hh";
        (pre ++ py "_API") ++ py ".fwd.hh"] ->
  masala_counterpart p -> pre ++ py "_API" = masala_api.
Proof.
  assert (Hm : masala_api = py "../src/base_api/auto_generated_api/MasalaObject"
                            ++ py "_API") by reflexivity.
  intros Hin Hp. unfold masala_counterpart in Hp. rewrite Hm in Hp |- *.
  simpl In in Hin.
  destruct Hin as [<- | [<- | [<- | []]]]; destruct Hp as [Hp | [Hp | Hp]];
    try (apply app_inv_tail in Hp; exact Hp);
    exfalso; apply (f_equal (@rev char)) in Hp;
    rewrite !rev_app_distr in Hp; simpl in Hp; discriminate Hp.
Qed.

Lemma visit_entry_no_masala (recurse : str -> result (walked true))
    (dirname : str) (st : list str * list str) (fname : str)
    (st' : list str * list str) :
  (forall d r, recurse d = Ok r -> Forall (fun p => ~ masala_counterpart p) (snd r)) ->
  Forall (fun p => ~ masala_counterpart p) (snd st) ->
  visit_entry fs true recurse dirname st fname = Ok st' ->
  Forall (fun p => ~ masala_counterpart p) (snd st').
Proof.
  intros Hrec Hst. unfold visit_entry. destruct st as [outlist outlist_apis].
  cbv zeta. cbn [snd] in Hst.
  destruct (isfile fs (dirname ++ py "/" ++ fname)).
  - destruct (endswith fname (py ".cc")) eqn:Ecc;
      [|cbn [andb]; intros [= <-]; exact Hst].
    destruct (str_eqb (dirname ++ py "/" ++ fname) (py "../src/base/MasalaObject.cc"))
      eqn:Em; [cbn [andb negb]; intros [= <-]; exact Hst|].
    cbn [andb negb].
    destruct (has_api_definition fs fname (dirname ++ py "/" ++ fname));
      [|intros [= <-]; exact Hst].
    intros H. apply bind_Ok in H. destruct H as [apiname [Hn H]].
    injection H as <-. cbn [snd]. apply Forall_app. split; [exact Hst|].
    destruct (apiname_ends_in_API _ _ Hn) as [pre Hpre].
    apply Forall_forall. intros p Hin Hp. rewrite Hpre in Hin.
    pose proof (counterpart_name pre p Hin Hp) as Hname.
    rewrite <- Hpre in Hname. rewrite Hname in Hn.
    apply endswith_suffix in Ecc. destruct Ecc as [f0 Ef0].
    apply (masala_api_source _ (dirname ++ py "/" ++ f0)) in Hn.
    + apply str_eqb_neq in Em. contradiction.
    + rewrite Ef0, <- !app_assoc. reflexivity.
  - destruct (isdir fs (dirname ++ py "/" ++ fname)).
    + intros H. apply bind_Ok in H. destruct H as [r [Hr H]].
      injection H as <-. cbn [extend_walked snd].
      apply Forall_app. split; [exact Hst | exact (Hrec _ _ Hr)].
    + intros [= <-]. exact Hst.
Qed.

(** X16.  No walk ever lists the API counterpart of
    [../src/base/MasalaObject.cc]: whatever the tree and whatever that file
    holds, none of its three counterpart paths is in the API list. *)
Theorem walker_never_maps_MasalaObject (depth : nat) :
  forall (dirname : str) (r : list str * list str),
    get_all_cc_and_hh_files_in_dir_and_subdirs depth fs libname dirname true = Ok r ->
    Forall (fun p => ~ masala_counterpart p) (snd r).
Proof.
  induction depth as [|depth IH]; intros dirname r H; [discriminate H|].
  rewrite walk_S in H. destruct (isdir fs dirname); [|discriminate H].
  cbn [assert bind] in H.
  destruct (excluded libname dirname true).
  - injection H as <-. constructor.
  - apply bind_Ok in H. destruct H as [st [Hst H]]. injection H as <-.
    cbn [return_walked].
    apply (for_each_invariant
             (fun st => Forall (fun p => ~ masala_counterpart p) (snd st)) _ _
             (fun a x a' Ha Hx =>
                visit_entry_no_masala _ dirname a x a' (fun d r' Hr => IH d r' Hr) Ha Hx)
             ([], []) st (Forall_nil _) Hst).
Qed.

End MasalaObject.

Section WalkerExtrasWitnesses.

Lemma walker_never_maps_MasalaObject_witness :
  get_all_cc_and_hh_files_in_dir_and_subdirs 2 masala_fs (py "base")
    (py "../src/base") true
  = Ok ([py "../src/base/MasalaObject.cc"; py "../src/base/Other.cc"],
        [py "../src/base_api/auto_generated_api/Other_API.cc";
         py "../src/base_api/auto_generated_api/Other_API.hh";
         py "../src/base_api/auto_generated_api/Other_API.fwd.hh"])
  /\ Forall (fun p => ~ masala_counterpart p)
       [py "../src/base_api/auto_generated_api/Other_API.cc";
        py "../src/base_api/auto_generated_api/Other_API.hh";
        py "../src/base_api/auto_generated_api/Other_API.fwd.hh"].
Proof.
  split; [reflexivity|].
  apply (walker_never_maps_MasalaObject masala_fs (py "base") 2 (py "../src/base")
           ([py "../src/base/MasalaObject.cc"; py "../src/base/Other.cc"],
            [py "../src/base_api/auto_generated_api/Other_API.cc";
             py "../src/base_api/auto_generated_api/Other_API.hh";
             py "../src/base_api/auto_generated_api/Other_API.fwd.hh"])).
  reflexivity.
Defined.

Lemma walker_lists_sources_under_witness :
  Forall (fun p => source_under (py "../src/core") p = true)
    [py "../src/core/a/Foo.cc"; py "../src/core/a/Foo.hh"; py "../src/core/a/Bar.cc"].
Proof.
  apply (walker_lists_sources_under tree_fs (py "core") 3 (py "../src/core") true
           ([py "../src/core/a/Foo.cc"; py "../src/core/a/Foo.hh";
             py "../src/core/a/Bar.cc"],
            [py "../src/core_api/auto_generated_api/a/Foo_API.cc";
             py "../src/core_api/auto_generated_api/a/Foo_API.hh";
             py "../src/core_api/auto_generated_api/a/Foo_API.fwd.hh"])).
  reflexivity.
Defined.


Lemma walker_api_list_shape_witness :
  Forall (fun p => api_entry p = true)
    [py "../src/core_api/auto_generated_api/a/Foo_API.cc";
     py "../src/core_api/auto_generated_api/a/Foo_API.hh";
     py "../src/core_api/auto_generated_api/a/Foo_API.fwd.hh"]
  /\ exists k, 3 = 3 * k.
Proof.
  apply (walker_api_list_shape tree_fs (py "core") 3 (py "../src/core")
           ([py "../src/core/a/Foo.cc"; py "../src/core/a/Foo.hh";
             py "../src/core/a/Bar.cc"],
            [py "../src/core_api/auto_generated_api/a/Foo_API.cc";
             py "../src/core_api/auto_generated_api/a/Foo_API.hh";
             py "../src/core_api/auto_generated_api/a/Foo_API.fwd.hh"])).
  reflexivity.
Defined.

Lemma walker_flat_directory_witness :
  get_all_cc_and_hh_files_in_dir_and_subdirs 1 tree_fs (py "core")
    (py "../src/core/a") false
  = Ok [py "../src/core/a/Foo.cc"; py "../src/core/a/Foo.hh";
        py "../src/core/a/Bar.cc"].
Proof.
  apply (walker_flat_directory tree_fs (py "core") 0 (py "../src/core/a"));
    reflexivity.
Defined.

Lemma walker_aborts_on_malformed_api_file_witness :
  exists e,
    get_all_cc_and_hh_files_in_dir_and_subdirs 1 malformed_fs (py "core")
      (py "../src/core") true
    = Raise e.
Proof.
  apply (walker_aborts_on_malformed_api_file malformed_fs (py "core") 0
           (py "../src/core") (py "Foo.test.cc")); try reflexivity.
  - left. reflexivity.
  - right. vm_compute. discriminate.
Defined.

Lemma walker_flat_ignores_contents_witness :
  get_all_cc_and_hh_files_in_dir_and_subdirs 3 tree_fs (py "core_api")
    (py "../src/core_api") false
  = get_all_cc_and_hh_files_in_dir_and_subdirs 3
      {| isdir := isdir tree_fs; isfile := isfile tree_fs;
         listdir := listdir tree_fs; read := fun _ => py "anything" |}
      (py "core_api") (py "../src/core_api") false.
Proof.
  apply walker_flat_ignores_contents; intros p; reflexivity.
Defined.

End WalkerExtrasWitnesses.

(* ================================================================== *)
(** * More about the descriptors and the run *)
(* ================================================================== *)

(** Walk to the piece [t] of a text written as [a ++ b ++ ...]. *)
Ltac goto_piece t :=
  repeat match goal with
         | |- Substring _ (t ++ _) => fail 1
         | |- Substring _ (_ ++ _) => apply Substring_app_r
         end;
  try apply Substring_app_l.

Section EmitterExtras.

Lemma Substring_concat_map {X : Type} (f : X -> str) (x : X) (l : list X) :
  In x l -> Substring (f x) (concat (map f l)).
Proof.
  induction l as [|y l IH]; [contradiction|]. intros [-> | Hin]; simpl.
  - auto with substr.
  - apply Substring_app_r, IH, Hin.
Qed.

Lemma In_length_pos {X : Type} (x : X) (l : list X) :
  In x l -> (0 <? length l) = true.
Proof. destruct l; [contradiction | reflexivity]. Qed.

Lemma nonempty_length_pos {X : Type} (l : list X) :
  l <> [] -> (0 <? length l) = true.
Proof. destruct l; [contradiction | reflexivity]. Qed.

(** X18.  Nothing that was collected is left out of the descriptors: every
    library file and, when there are library files, every dependency is in
    the library descriptor; every application has its block there, also
    when the library has no file; every API path is in the API descriptor,
    as an output of the generating command and as a source of the API
    library; every test file is in the test descriptor. *)
Theorem descriptors_list_everything (lib_name : str) (l : lists) :
  (forall entry, In entry (cclist l) ->
     Substring (nl ++ tab ++ entry) (library_descriptor lib_name l))
  /\ (forall dentry, In dentry (depend_list l) -> cclist l <> [] ->
        Substring (nl ++ tab ++ py "PUBLIC " ++ dentry)
          (library_descriptor lib_name l))
  /\ (forall app, In app (appslist l) ->
        Substring (app_block lib_name (depend_list l) app)
          (library_descriptor lib_name l))
  /\ (forall entry, In entry (api_cclist l) ->
        Substring (tab ++ tab ++ entry ++ nl) (api_descriptor lib_name l)
        /\ Substring (nl ++ tab ++ entry) (api_descriptor lib_name l))
  /\ (forall entry, In entry (testslist l) ->
        Substring (nl ++ tab ++ entry) (tests_descriptor lib_name l)).
Proof.
  split; [|split; [|split; [|split]]].
  - intros entry Hin. unfold library_descriptor.
    rewrite (In_length_pos _ _ Hin). cbv iota. apply Substring_app_l.
    goto_piece (entry_lines (cclist l)).
    apply (Substring_concat_map (fun e => nl ++ tab ++ e)). exact Hin.
  - intros dentry Hin Hne. unfold library_descriptor.
    rewrite (nonempty_length_pos _ Hne), (In_length_pos _ _ Hin). cbv iota.
    apply Substring_app_l. goto_piece (public_links (depend_list l)).
    apply (Substring_concat_map (fun d => nl ++ tab ++ py "PUBLIC " ++ d)).
    exact Hin.
  - intros app Hin. unfold library_descriptor.
    rewrite (In_length_pos _ _ Hin). cbv iota. apply Substring_app_r.
    apply (Substring_concat_map (app_block lib_name (depend_list l))). exact Hin.
  - intros entry Hin. unfold api_descriptor. split.
    + goto_piece (concat (map (fun entry => tab ++ tab ++ entry ++ nl) (api_cclist l))).
      apply (Substring_concat_map (fun e => tab ++ tab ++ e ++ nl)). exact Hin.
    + goto_piece (entry_lines (api_cclist l)).
      apply (Substring_concat_map (fun e => nl ++ tab ++ e)). exact Hin.
  - intros entry Hin. unfold tests_descriptor. cbv zeta.
    rewrite (In_length_pos _ _ Hin). cbv iota.
    goto_piece (entry_lines (testslist l)).
    apply (Substring_concat_map (fun e => nl ++ tab ++ e)). exact Hin.
Qed.

Lemma descriptors_list_everything_witness :
  Substring (nl ++ tab ++ py "a.cc")
    (library_descriptor (py "core")
       {| cclist := [py "a.cc"]; api_cclist := []; depend_list := [];
          appslist := []; testslist := [] |}).
Proof.
  apply (proj1 (descriptors_list_everything (py "core")
                  {| cclist := [py "a.cc"]; api_cclist := []; depend_list := [];
                     appslist := []; testslist := [] |})).
  left. reflexivity.
Defined.

(** X19.  The generating command of the API descriptor names [core] and
    [build/core_api.json] whatever the library is. *)
Theorem api_descriptor_names_core (lib_name : str) (l : lists) :
  Substring
    (py "python3 code_templates/generate_library_api.py core build/core_api.json")
    (api_descriptor lib_name l).
Proof.
  apply (Substring_trans _
           (py "cd .. && python3 code_templates/generate_library_api.py core build/core_api.json && cd build")).
  - exists (py "cd .. && "), (py " && cd build"). reflexivity.
  - unfold api_descriptor.
    goto_piece (py "cd .. && python3 code_templates/generate_library_api.py core build/core_api.json && cd build").
    apply Substring_refl.
Qed.

End EmitterExtras.

Section RunExtras.

(** X20.  A run that returns found its directories: the source directory,
    the directory [<source dir>_api] and, unless the last argument is
    [NONE], the directory [../tests/unit/<library>]; and it was given six
    arguments. *)
Theorem main_needs_directories (depth : nat) (fs : filesystem)
    (argv : list str) (ws : list written) :
  main depth fs argv = Ok ws ->
  length argv = 6
  /\ isdir fs (nth 2 argv []) = true
  /\ isdir fs (nth 2 argv [] ++ py "_api") = true
  /\ (nth 5 argv [] <> py "NONE" ->
      isdir fs (py "../tests/unit/" ++ nth 1 argv []) = true).
Proof.
  intros H. apply main_Ok in H. destruct H as [Hlen [l [w_tests [Hl _]]]].
  split; [exact Hlen|]. unfold collect in Hl.
  apply bind_Ok in Hl. destruct Hl as [r [Hr Hl]].
  apply bind_Ok in Hl. destruct Hl as [r_api [Hapi Hl]].
  apply bind_Ok in Hl. destruct Hl as [deps [_ Hl]].
  apply bind_Ok in Hl. destruct Hl as [apps [_ Hl]].
  apply bind_Ok in Hl. destruct Hl as [tests [Ht _]].
  split; [exact (walk_Ok_isdir _ _ _ _ _ _ Hr)|].
  split; [exact (walk_Ok_isdir _ _ _ _ _ _ Hapi)|].
  intros Hnone. unfold or_none in Ht.
  destruct (str_eqb (nth 5 argv []) (py "NONE")) eqn:E.
  - apply str_eqb_eq in E. contradiction.
  - apply bind_Ok in Ht. destruct Ht as [_ [_ Ht]].
    exact (walk_Ok_isdir _ _ _ _ _ _ Ht).
Qed.

Lemma main_needs_directories_witness :
  length [py "generate_cmake_build.py"; py "core"; py "src/core";
          py "core.cmake"; py "NONE"; py "tests.cmake"] = 6
  /\ isdir tested_fs (py "src/core") = true
  /\ isdir tested_fs (py "src/core_api") = true
  /\ (py "tests.cmake" <> py "NONE" ->
      isdir tested_fs (py "../tests/unit/core") = true).
Proof.
  apply (main_needs_directories 3 tested_fs
           [py "generate_cmake_build.py"; py "core"; py "src/core";
            py "core.cmake"; py "NONE"; py "tests.cmake"] _ eq_refl).
Defined.

End RunExtras.
